(** * BlackRoad core gateway: a shallow embedding of gateway/server.js

    The gateway is a Node.js HTTP service.  This development embeds the
    request pipeline of [gateway/server.js] together with the modules it
    calls ([gateway/memory.js], [gateway/providers/index.js],
    [gateway/providers/ollama.js]):

    - JavaScript values that travel through the pipeline are [json] terms;
      strings are byte strings (UTF-8), so [Buffer.byteLength] is [length];
    - objects used as dictionaries are [gmap string _], which holds their
      own properties; where the code reads such an object with a key that
      the request chooses, a key the object does not hold finds the member
      of that name of [Object.prototype], if there is one ([inherited]);
    - the policy and prompt documents are records with optional fields, a
      field being [None] when the JSON document omits it;
    - the mutable process state (rate-limiter windows, metrics counters,
      memory journal, access log) is threaded explicitly; the request
      handler runs in a state-and-exception monad;
    - everything the handler obtains from outside (clock readings, files,
      request body, upstream providers) is read from an explicit
      environment; built-in functions whose definition is not part of the
      repository are the fields of the class [Runtime], and the provider
      adapters with the services behind them those of the class [Registry].

    One request is handled at a time: interleavings of several in-flight
    requests at [await] points are outside the model, and a promise the
    handler does not await ([memory.record]) runs to completion where it
    is created.  Writing the response to the socket does not throw.

    Part I holds the definitions, Part II the theorems. *)

From Stdlib Require Import ZArith QArith String Ascii List Bool Lia.
From stdpp Require Import base option list gmap strings.

Set Warnings "-register-all".
Local Open Scope string_scope.
Local Open Scope Z_scope.

(** * Part I: definitions *)

(** ** JavaScript values *)

(** Numbers as [JSON.parse] can produce them: a finite double is the
    rational it denotes, and an out-of-range literal gives an infinity. *)
Inductive number :=
| NegInfinity
| Finite (q : Q)
| PosInfinity.

Definition num_leb (a b : number) : bool :=
  match a, b with
  | NegInfinity, _ => true
  | _, PosInfinity => true
  | Finite x, Finite y => Qle_bool x y
  | _, _ => false
  end.

Definition num_of_Z (z : Z) : number := Finite (inject_Z z).

(** [Math.max(a, b)] and [Math.min(a, b)] on numbers other than NaN. *)
Definition Math_max (a b : number) : number := if num_leb a b then b else a.
Definition Math_min (a b : number) : number := if num_leb a b then a else b.

Inductive json :=
| JNull
| JBool (b : bool)
| JNum (n : number)
| JStr (s : string)
| JArr (items : list json)
| JObj (fields : list (string * json)).

(** Own-property lookup in a field list ([obj[key]], [None] for undefined). *)
Fixpoint assoc (key : string) (fields : list (string * json)) : option json :=
  match fields with
  | [] => None
  | (k, v) :: rest => if String.eqb k key then Some v else assoc key rest
  end.

(** [obj.key = v]: overwrite in place, or append a new property. *)
Fixpoint assoc_set (key : string) (v : json) (fields : list (string * json))
  : list (string * json) :=
  match fields with
  | [] => [(key, v)]
  | (k, w) :: rest =>
      if String.eqb k key then (k, v) :: rest else (k, w) :: assoc_set key v rest
  end.

(** Property read on a value that is not null; primitives and arrays have
    none of the properties the gateway asks for. *)
Definition jprop (key : string) (v : json) : option json :=
  match v with
  | JObj fields => assoc key fields
  | _ => None
  end.

(** ToBoolean. *)
Definition truthy (v : json) : bool :=
  match v with
  | JNull => false
  | JBool b => b
  | JNum (Finite q) => negb (Qeq_bool q 0)
  | JNum _ => true
  | JStr s => negb (String.eqb s "")
  | JArr _ | JObj _ => true
  end.

Definition truthy_opt (o : option json) : bool :=
  match o with Some v => truthy v | None => false end.

Definition str_truthy (o : option string) : bool :=
  match o with Some s => negb (String.eqb s "") | None => false end.

Definition num_truthy (o : option Z) : bool :=
  match o with Some z => negb (z =? 0) | None => false end.

Definition is_string (o : option json) : bool :=
  match o with Some (JStr _) => true | _ => false end.

(** [array.push(x)] *)
Definition push {A : Type} (l : list A) (x : A) : list A := (l ++ [x])%list.

(** ** Members inherited from [Object.prototype]

    A plain object answers a property read with its own property, and,
    for a key it does not hold, with the member of that name of
    [Object.prototype] if there is one: a built-in function, or, for
    [__proto__], the prototype object itself. *)
Definition object_prototype : list string :=
  [ "constructor"; "__defineGetter__"; "__defineSetter__"; "hasOwnProperty";
    "__lookupGetter__"; "__lookupSetter__"; "isPrototypeOf"; "propertyIsEnumerable";
    "toString"; "valueOf"; "__proto__"; "toLocaleString" ].

Definition inherited (key : string) : bool := existsb (String.eqb key) object_prototype.

(** What a variable of the handler holds: JSON data, or a member of
    [Object.prototype] that a property read has found. *)
Inductive value :=
| Data (v : json)
| Inherited (member : string).

Definition value_truthy (v : value) : bool :=
  match v with
  | Data d => truthy d
  | Inherited _ => true
  end.

Definition value_truthy_opt (o : option value) : bool :=
  match o with Some v => value_truthy v | None => false end.

(** What [JSON.stringify] leaves of a property that holds the value: a
    function is left out, and the prototype object has no property that
    can be enumerated. *)
Definition serialized (v : value) : option json :=
  match v with
  | Data d => Some d
  | Inherited member => if String.eqb member "__proto__" then Some (JObj []) else None
  end.

(** Thrown values: [Error] objects, identified by constructor name and
    message. *)
Record JsError := mkError { err_name : string; message : string }.

Definition Error (msg : string) : JsError := mkError "Error" msg.
Definition TypeError (msg : string) : JsError := mkError "TypeError" msg.
Definition ReferenceError (msg : string) : JsError := mkError "ReferenceError" msg.

Inductive outcome (A : Type) :=
| Ret (a : A)
| Throw (e : JsError).
Arguments Ret {A} a.
Arguments Throw {A} e.

(** ** Policy and prompt documents *)

Record AgentPolicy := {
  description : option string;
  allowed_intents : option (list string);
  allowed_providers : option (list string);
  default_provider : option string;
  fallback_chain : option (list string);
  max_input_bytes : option Z;
  rate_limit_per_minute : option Z;
  intent_routes : option (gmap string string)
}.

Record GlobalPolicy := { global_rate_limit_per_minute : option Z }.

Record Policy := {
  global : option GlobalPolicy;
  agents : option (gmap string AgentPolicy)
}.

Record Prompts := {
  prompts_default : option string;
  prompts_agents : option (gmap string string);
  prompts_intents : option (gmap string string)
}.

(** ** pickProvider (server.js, 198-206) *)

(** [policy.intent_routes[intent]], [None] for undefined *)
Definition route_of (policy : AgentPolicy) (intent : string) : option value :=
  match intent_routes policy with
  | Some routes =>
      match routes !! intent with
      | Some route => Some (Data (JStr route))
      | None => if inherited intent then Some (Inherited intent) else None
      end
  | None => None
  end.

Definition pickProvider (requested : option json) (policy : AgentPolicy)
    (intent : string) : option value :=
  if truthy_opt requested then Data <$> requested
  else if value_truthy_opt (route_of policy intent) then route_of policy intent
  else if str_truthy (default_provider policy)
       then (fun name => Data (JStr name)) <$> default_provider policy
  else None.

(** The policy sets no route for the intent: [intent_routes] is absent,
    or it holds the empty string for the intent, or it holds nothing for
    it and the intent names no member of [Object.prototype]. *)
Definition unrouted (policy : AgentPolicy) (intent : string) : Prop :=
  forall routes,
    intent_routes policy = Some routes ->
    routes !! intent = Some "" \/ (routes !! intent = None /\ inherited intent = false).

(** The policy object of the test suite (tests/gateway.test.js, 92-98). *)
Definition test_policy : AgentPolicy :=
  {| description := None; allowed_intents := None; allowed_providers := None;
     default_provider := Some "ollama"; fallback_chain := None;
     max_input_bytes := None; rate_limit_per_minute := None;
     intent_routes := Some (<["analyze" := "ollama"]> (<["plan" := "claude"]> ∅)) |}.

Definition test_policy_no_default : AgentPolicy :=
  {| description := None; allowed_intents := None; allowed_providers := None;
     default_provider := None; fallback_chain := None;
     max_input_bytes := None; rate_limit_per_minute := None;
     intent_routes := Some ∅ |}.

(** ** Rate limiter (server.js, 22-64)

  [windows] maps an agent to the array of its recorded timestamps.  Every
  method that calls [Date.now()] takes the reading as [now]. *)
Module RateLimiter.

Abbreviation windows := (gmap string (list Z)).

Definition empty : windows := ∅.

(** [while (entries.length > 0 && entries[0] < cutoff) entries.shift()] *)
Fixpoint shift_while (cutoff : Z) (entries : list Z) : list Z :=
  match entries with
  | e :: rest => if e <? cutoff then shift_while cutoff rest else entries
  | [] => []
  end.

Definition _prune (now : Z) (entries : list Z) (windowMs : Z) : list Z :=
  shift_while (now - windowMs) entries.

(** [if (!this.windows.has(key)) this.windows.set(key, [])] *)
Definition ensure (agent : string) (w : windows) : windows :=
  match w !! agent with
  | Some _ => w
  | None => <[agent := []]> w
  end.

Definition check (now : Z) (agent : string) (limitPerMinute : Z) (w : windows)
  : bool * windows :=
  if (limitPerMinute =? 0) || (limitPerMinute <=? 0) then (true, w)
  else
    let w1 := ensure agent w in
    let entries := _prune now (default [] (w1 !! agent)) 60000 in
    (Z.of_nat (length entries) <? limitPerMinute, <[agent := entries]> w1).

Definition record (now : Z) (agent : string) (w : windows) : windows :=
  let w1 := ensure agent w in
  <[agent := push (default [] (w1 !! agent)) now]> w1.

Definition getUsage (now : Z) (agent : string) (w : windows) : Z * windows :=
  match w !! agent with
  | None => (0, w)
  | Some entries0 =>
      let entries := _prune now entries0 60000 in
      (Z.of_nat (length entries), <[agent := entries]> w)
  end.

(** A call on the limiter, with the clock reading it observes. *)
Inductive call :=
| DoRecord (now : Z) (agent : string)
| DoCheck (now : Z) (agent : string) (limit : Z)
| DoGetUsage (now : Z) (agent : string).

Definition time_of (c : call) : Z :=
  match c with DoRecord t _ | DoCheck t _ _ | DoGetUsage t _ => t end.

Definition step (w : windows) (c : call) : windows :=
  match c with
  | DoRecord t a => record t a w
  | DoCheck t a l => snd (check t a l w)
  | DoGetUsage t a => snd (getUsage t a w)
  end.

Definition run (calls : list call) (w : windows) : windows :=
  fold_left step calls w.

(** The timestamps [record] was called with for [agent], in call order. *)
Fixpoint recorded (agent : string) (calls : list call) : list Z :=
  match calls with
  | [] => []
  | DoRecord t a :: rest =>
      if String.eqb a agent then t :: recorded agent rest else recorded agent rest
  | _ :: rest => recorded agent rest
  end.

(** All clock readings lie in one window of 60 seconds starting at [start]. *)
Definition within_window (start : Z) (times : list Z) : Prop :=
  Forall (fun t => start <= t <= start + 60000) times.

(** The timestamps held for [agent], an absent key counting as none. *)
Definition entries_of (agent : string) (w : windows) : list Z :=
  default [] (w !! agent).

(** The calls of the test suite (tests/gateway.test.js, 173-189), one
    millisecond apart. *)
Definition test_suite_calls : list call :=
  [ DoCheck 0 "test-agent" 5; DoGetUsage 1 "test-agent";
    DoRecord 2 "test-agent"; DoRecord 3 "test-agent"; DoRecord 4 "test-agent";
    DoGetUsage 5 "test-agent"; DoCheck 6 "test-agent" 5;
    DoRecord 7 "test-agent"; DoRecord 8 "test-agent" ].

End RateLimiter.

(** ** Built-in functions

    Functions of the JavaScript runtime that the gateway calls and whose
    definition is not part of the repository. *)
Class Runtime := {
  (** [JSON.parse]; [None] when it throws a SyntaxError, and an object it
      returns holds each key once *)
  JSON_parse : string -> option json;
  JSON_stringify : json -> string;
  (** ToString and ToNumber on values that are not strings ([None]: NaN) *)
  ToString : json -> string;
  ToNumber : json -> option number;
  (** [String.prototype.trim] *)
  trim : string -> string;
  (** [new Date(ms).toISOString()] *)
  toISOString : Z -> string;
  (** [createHash('sha256').update(s).digest('hex').slice(0, 16)] *)
  sha256_hex16 : string -> string;
  (** [new URL(url, 'http://localhost')]: the pathname and the [limit]
      search parameter *)
  parse_url : string -> outcome (string * option string);
  (** [parseInt]; [None] is NaN *)
  parseInt : string -> option Z;
  (** [chunk.toString()] on a Buffer: the UTF-8 decoding of its bytes, in
      which every ill-formed sequence becomes U+FFFD *)
  Buffer_toString : string -> string;
  (** ToString of the member [m] of [Object.prototype]: the source text of
      a built-in function, and [[object Object]] for [__proto__] *)
  member_text : string -> string
}.

(** A value converted to a string: as a property key, in a template
    literal, in [Array.prototype.join]. *)
Definition to_text `{Runtime} (v : json) : string :=
  match v with
  | JStr s => s
  | _ => ToString v
  end.

Definition value_text `{Runtime} (v : value) : string :=
  match v with
  | Data d => to_text d
  | Inherited member => member_text member
  end.

(** ** Provider registry (providers/index.js) and upstream services *)

Record InvokeArgs := {
  arg_input : string;
  arg_system : string;
  arg_context : json;
  arg_requestId : string;
  arg_agent : string;
  arg_intent : string
}.

(** [World] is the state of the upstream services; [invoke] is an adapter's
    [invoke(args)], which returns the generated text or throws.  An adapter
    module that exports no [invoke] is one whose call throws a TypeError. *)
Class Registry := {
  World : Type;
  Adapter : Type;
  getProvider : string -> option Adapter;
  listProviders : list string;
  invoke : Adapter -> InvokeArgs -> World -> outcome string * World
}.

(** ** Provider invocation with fallback chain (server.js, 238-272) *)

Record DispatchResult := {
  output : string;
  provider : string;
  fallback : bool
}.

(** [fallbackChain && fallbackChain.length > 0] *)
Definition has_fallbacks (fallbackChain : option (list string)) : bool :=
  match fallbackChain with
  | Some (_ :: _) => true
  | _ => false
  end.

(** The [for (const name of fallbackChain)] loop, with the [errors] array
    accumulated so far. *)
Fixpoint try_fallbacks `{Registry} (primaryProvider : string) (chain : list string)
    (invokeArgs : InvokeArgs) (errors : list string) (w : World)
  : outcome DispatchResult * World :=
  match chain with
  | [] => (Throw (Error ("All providers failed: " ++ String.concat "; " errors)), w)
  | name :: rest =>
      if String.eqb name primaryProvider
      then try_fallbacks primaryProvider rest invokeArgs errors w
      else
        match getProvider name with
        | None => try_fallbacks primaryProvider rest invokeArgs errors w
        | Some fb =>
            match invoke fb invokeArgs w with
            | (Ret out, w') =>
                (Ret {| output := out; provider := name; fallback := true |}, w')
            | (Throw err, w') =>
                try_fallbacks primaryProvider rest invokeArgs
                  (push errors (name ++ ": " ++ message err)) w'
            end
        end
  end.

Definition fallback_phase `{Registry} (primaryProvider : string)
    (fallbackChain : option (list string)) (invokeArgs : InvokeArgs) (w : World)
  : outcome DispatchResult * World :=
  if has_fallbacks fallbackChain
  then try_fallbacks primaryProvider (default [] fallbackChain) invokeArgs [] w
  else (Throw (Error "No provider available"), w).

Definition invokeWithFallback `{Registry} (primaryProvider : string)
    (fallbackChain : option (list string)) (invokeArgs : InvokeArgs) (w : World)
  : outcome DispatchResult * World :=
  match getProvider primaryProvider with
  | Some primary =>
      match invoke primary invokeArgs w with
      | (Ret out, w') =>
          (Ret {| output := out; provider := primaryProvider; fallback := false |}, w')
      | (Throw err, w') =>
          if negb (has_fallbacks fallbackChain) then (Throw err, w')
          else fallback_phase primaryProvider fallbackChain invokeArgs w'
      end
  | None => fallback_phase primaryProvider fallbackChain invokeArgs w
  end.

(** A run of the loop over [names] in which every call throws: [errors]
    are the entries pushed, from upstream state [w] to [w']. *)
Inductive all_fail `{Registry} (invokeArgs : InvokeArgs)
  : list string -> World -> list string -> World -> Prop :=
| all_fail_nil w : all_fail invokeArgs [] w [] w
| all_fail_cons name rest fb err w w' errors w'' :
    getProvider name = Some fb ->
    invoke fb invokeArgs w = (Throw err, w') ->
    all_fail invokeArgs rest w' errors w'' ->
    all_fail invokeArgs (name :: rest) w ((name ++ ": " ++ message err) :: errors) w''.

(** The fallback entries the loop really calls: not the primary's name,
    and known to the registry. *)
Definition attempted `{Registry} (primaryProvider : string) (chain : list string)
  : list string :=
  List.filter (fun name => negb (String.eqb name primaryProvider)
                      && bool_decide (is_Some (getProvider name))) chain.

(** ** Metrics (server.js, 71-99) *)
Module Metrics.

(** [byAgent] and [byProvider] are plain objects.  The maps of these
    names hold their own properties that are numbers.  An own property
    that is a string can only stand under the name of a member of
    [Object.prototype] (see [bump_text]); [agentTexts] and [providerTexts]
    hold these, and are read under such names only. *)
Record t := {
  totalRequests : Z;
  totalErrors : Z;
  totalOk : Z;
  byAgent : gmap string Z;
  byProvider : gmap string Z;
  agentTexts : gmap string string;
  providerTexts : gmap string string;
  startTime : Z
}.

Definition initial (now : Z) : t :=
  {| totalRequests := 0; totalErrors := 0; totalOk := 0;
     byAgent := ∅; byProvider := ∅; agentTexts := ∅; providerTexts := ∅;
     startTime := now |}.

(** [counters[key] = (counters[key] || 0) + 1] where [counters[key]] is a
    number or undefined: on a Map, and on an object under a key that holds
    a number or that nothing answers. *)
Definition bump (key : string) (counters : gmap string Z) : gmap string Z :=
  <[key := default 0 (counters !! key) + 1]> counters.

(** What [counters[key]] reads on a plain object whose own properties are
    the numbers [counts] and the strings [texts]. *)
Inductive slot :=
| Number (n : Z)
| Text (s : string)
| Member
| Nothing.

Definition read (key : string) (counts : gmap string Z) (texts : gmap string string)
  : slot :=
  match counts !! key with
  | Some n => Number n
  | None =>
      if inherited key then
        match texts !! key with
        | Some s => Text s
        | None => Member
        end
      else Nothing
  end.

(** The numbers after [counters[key] = (counters[key] || 0) + 1] on such an
    object: a string that is not empty and an inherited member are truthy,
    and [+ 1] appends to what they convert to. *)
Definition bump_count (key : string) (counts : gmap string Z)
    (texts : gmap string string) : gmap string Z :=
  match read key counts texts with
  | Number _ | Nothing => bump key counts
  | Text s => if String.eqb s "" then <[key := 1]> counts else counts
  | Member => counts
  end.

(** The strings after the same statement.  An assignment to [__proto__]
    that finds no own property reaches the setter of [Object.prototype],
    which ignores a string. *)
Definition bump_text `{Runtime} (key : string) (counts : gmap string Z)
    (texts : gmap string string) : gmap string string :=
  match read key counts texts with
  | Text s => if String.eqb s "" then texts else <[key := s ++ "1"]> texts
  | Member =>
      if String.eqb key "__proto__" then texts
      else <[key := member_text key ++ "1"]> texts
  | Number _ | Nothing => texts
  end.

(** The property key [byAgent[agent]] reads: [null] becomes ["null"]. *)
Definition agent_key (agent : option string) : string :=
  match agent with
  | Some a => a
  | None => "null"
  end.

Definition record `{Runtime} (agent : option string) (provider : option value)
    (status : string) (m : t) : t :=
  let counted :=
    match provider with
    | Some p => if value_truthy p then Some (value_text p) else None
    | None => None
    end in
  {| totalRequests := totalRequests m + 1;
     totalErrors := if String.eqb status "ok" then totalErrors m else totalErrors m + 1;
     totalOk := if String.eqb status "ok" then totalOk m + 1 else totalOk m;
     byAgent := bump_count (agent_key agent) (byAgent m) (agentTexts m);
     byProvider :=
       match counted with
       | Some key => bump_count key (byProvider m) (providerTexts m)
       | None => byProvider m
       end;
     agentTexts := bump_text (agent_key agent) (byAgent m) (agentTexts m);
     providerTexts :=
       match counted with
       | Some key => bump_text key (byProvider m) (providerTexts m)
       | None => providerTexts m
       end;
     startTime := startTime m |}.

Definition counter_fields (counters : gmap string Z) : list (string * json) :=
  map (fun kv => (fst kv, JNum (num_of_Z (snd kv)))) (map_to_list counters).

Definition counters_json (counters : gmap string Z) : json :=
  JObj (counter_fields counters).

(** The own properties of a table that are strings. *)
Definition text_fields (counts : gmap string Z) (texts : gmap string string)
  : list (string * json) :=
  map (fun kv => (fst kv, JStr (snd kv)))
    (List.filter (fun kv => match read (fst kv) counts texts with
                            | Text _ => true
                            | _ => false
                            end)
       (map_to_list texts)).

(** [{ ...table }] *)
Definition table_json (counts : gmap string Z) (texts : gmap string string) : json :=
  JObj (counter_fields counts ++ text_fields counts texts).

(** The snapshot object; the order of the keys of [by_agent] and
    [by_provider] is the map's, not the insertion order. *)
Definition snapshot (now : Z) (m : t) : list (string * json) :=
  [ ("uptime_seconds", JNum (num_of_Z ((now - startTime m) / 1000)));
    ("total_requests", JNum (num_of_Z (totalRequests m)));
    ("total_ok", JNum (num_of_Z (totalOk m)));
    ("total_errors", JNum (num_of_Z (totalErrors m)));
    ("by_agent", table_json (byAgent m) (agentTexts m));
    ("by_provider", table_json (byProvider m) (providerTexts m)) ].

End Metrics.

(** ** Strings *)

Definition dquote : string := String "034" EmptyString.
Definition newline : string := String "010" EmptyString.

Definition ascii_lower (c : ascii) : ascii :=
  let n := nat_of_ascii c in
  if ((65 <=? n) && (n <=? 90))%nat then ascii_of_nat (n + 32) else c.

Fixpoint lower (s : string) : string :=
  match s with
  | EmptyString => EmptyString
  | String c rest => String (ascii_lower c) (lower rest)
  end.

(** [haystack.includes(needle)] *)
Definition includes (needle haystack : string) : bool :=
  match String.index 0 needle haystack with
  | Some _ => true
  | None => false
  end.

(** [s.startsWith(p)] *)
Definition startsWith (p s : string) : bool := String.prefix p s.

Fixpoint occurs (c : ascii) (s : string) : bool :=
  match s with
  | EmptyString => false
  | String d rest => Ascii.eqb d c || occurs c rest
  end.

(** [s.replace(/"/g, '\\"')] *)
Fixpoint escape_quotes (s : string) : string :=
  match s with
  | EmptyString => EmptyString
  | String c rest =>
      if Ascii.eqb c "034" then String "\" (String c (escape_quotes rest))
      else String c (escape_quotes rest)
  end.

(** [list.includes(x)] on an array of strings *)
Definition str_in (x : string) (l : list string) : bool := existsb (String.eqb x) l.

(** ** Structured output of the verify model (server.js, 449-461) *)

(** The suffix of [s] that starts at its first opening brace. *)
Fixpoint from_first_open (s : string) : option string :=
  match s with
  | EmptyString => None
  | String c rest => if Ascii.eqb c "{" then Some s else from_first_open rest
  end.

(** The longest prefix of [s] that ends with a closing brace. *)
Fixpoint upto_last_close (s : string) : option string :=
  match s with
  | EmptyString => None
  | String c rest =>
      match upto_last_close rest with
      | Some t => Some (String c t)
      | None => if Ascii.eqb c "}" then Some (String c EmptyString) else None
      end
  end.

(** [s.match(/\{[\s\S]*\}/)]: the match starts at the first opening brace
    and, the star being greedy, ends at the last closing brace after it. *)
Definition match_braces (s : string) : option string :=
  match from_first_open s with
  | Some t => upto_last_close t
  | None => None
  end.

Record Verdict := {
  verdict : string;
  confidence : number;
  reasoning : string;
  flags : list json
}.

Definition num_zero : number := Finite 0.
Definition num_one : number := Finite 1.
Definition num_half : number := Finite (1 # 2).

Definition recognized_verdicts : list string :=
  ["true"; "false"; "unverified"; "conflicting"].

Definition default_verdict (raw : string) : Verdict :=
  {| verdict := "unverified"; confidence := num_half; reasoning := raw; flags := [] |}.

(** The fields read off the parsed object. *)
Definition verdict_of_parsed (raw : string) (parsed : json) : Verdict :=
  {| verdict :=
       match jprop "verdict" parsed with
       | Some (JStr v) => if str_in v recognized_verdicts then v else "unverified"
       | _ => "unverified"
       end;
     confidence :=
       match jprop "confidence" parsed with
       | Some (JNum n) => Math_min num_one (Math_max num_zero n)
       | _ => num_half
       end;
     reasoning :=
       match jprop "reasoning" parsed with
       | Some (JStr r) => r
       | _ => raw
       end;
     flags :=
       match jprop "flags" parsed with
       | Some (JArr items) => items
       | _ => []
       end |}.

(** The whole [try { ... } catch { /* keep defaults */ }] block; a property
    read on [null] throws before any variable is assigned. *)
Definition parse_verdict_with (extract : string -> option string)
    (parse : string -> option json) (raw : string) : Verdict :=
  match extract raw with
  | None => default_verdict raw
  | Some text =>
      match parse text with
      | None | Some JNull => default_verdict raw
      | Some parsed => verdict_of_parsed raw parsed
      end
  end.

Definition parse_verdict `{Runtime} (raw : string) : Verdict :=
  parse_verdict_with match_braces JSON_parse raw.

(** The spec's wording of the extraction, for comparison: the first
    substring that starts at an opening brace and ends where the braces
    opened since are all closed. *)
Fixpoint spec_balanced_prefix (depth : nat) (s : string) : option string :=
  match s with
  | EmptyString => None
  | String c rest =>
      if Ascii.eqb c "{" then String c <$> spec_balanced_prefix (S depth) rest
      else if Ascii.eqb c "}" then
        match depth with
        | O => None
        | S O => Some (String c EmptyString)
        | S d => String c <$> spec_balanced_prefix d rest
        end
      else String c <$> spec_balanced_prefix depth rest
  end.

Fixpoint spec_first_balanced (s : string) : option string :=
  match s with
  | EmptyString => None
  | String c rest =>
      if Ascii.eqb c "{" then
        match spec_balanced_prefix 0 s with
        | Some t => Some t
        | None => spec_first_balanced rest
        end
      else spec_first_balanced rest
  end.

(** ** Request helpers (server.js, 143-233) *)

Record Config := {
  maxBodyBytes : Z;
  allowRemote : bool
}.

(** What the handler reads of [req]: the body arrives as ['data'] chunks,
    each a Buffer of bytes, followed by ['end'] or by an ['error'] event.
    [chunk.length] counts the bytes of a chunk, and [body += chunk] appends
    what the chunk decodes to on its own. *)
Record Request := {
  method : string;
  url : string;
  remoteAddress : option string;
  chunks : list string;
  stream_error : option JsError
}.

Definition isLoopback (req : Request) : bool :=
  let address := default "" (remoteAddress req) in
  String.eqb address "127.0.0.1"
  || String.eqb address "::1"
  || startsWith "::ffff:127." address.

(** The ['data'] listener of [readBody], chunk after chunk. *)
Fixpoint read_chunks `{Runtime} (pending : list string) (error : option JsError)
    (body : string) (bytes maxBytes : Z) : outcome string :=
  match pending with
  | [] =>
      match error with
      | Some e => Throw e
      | None => Ret body
      end
  | chunk :: rest =>
      let bytes' := bytes + Z.of_nat (String.length chunk) in
      if bytes' >? maxBytes then Throw (Error "Request body too large")
      else read_chunks rest error (body ++ Buffer_toString chunk) bytes' maxBytes
  end.

Definition readBody `{Runtime} (req : Request) (maxBytes : Z) : outcome string :=
  read_chunks (chunks req) (stream_error req) "" 0 maxBytes.

(** [Object.keys(v).length > 0] on a truthy value *)
Definition has_keys (v : json) : bool :=
  match v with
  | JObj (_ :: _) | JArr (_ :: _) => true
  | JStr s => negb (String.eqb s "")
  | _ => false
  end.

Definition lookup_prompt (table : option (gmap string string)) (key : string)
  : option string :=
  match table with
  | Some m => m !! key
  | None => None
  end.

Definition buildSystemPrompt `{Runtime} (prompts : option Prompts)
    (agent intent : string) (context : option json) : string :=
  match prompts with
  | None => ""
  | Some prompts =>
      let parts0 : list string := [] in
      let parts1 :=
        match prompts_default prompts with
        | Some d => if String.eqb (trim d) "" then parts0 else push parts0 (trim d)
        | None => parts0
        end in
      let parts2 :=
        match lookup_prompt (prompts_agents prompts) agent with
        | Some a => push parts1 (trim a)
        | None => parts1
        end in
      let parts3 :=
        match lookup_prompt (prompts_intents prompts) intent with
        | Some i => push parts2 (trim i)
        | None => parts2
        end in
      let parts4 :=
        match context with
        | Some c =>
            if truthy c && has_keys c
            then push parts3 ("Context JSON:" ++ newline ++ JSON_stringify c)
            else parts3
        | None => parts3
        end in
      String.concat (newline ++ newline) parts4
  end.

Definition validateRequest (payload : json) : option string :=
  match payload with
  | JNull | JBool _ | JNum _ | JStr _ => Some "Invalid JSON payload"
  | _ =>
      if negb (truthy_opt (jprop "agent" payload) && is_string (jprop "agent" payload))
      then Some "Missing agent"
      else if negb (truthy_opt (jprop "intent" payload) && is_string (jprop "intent" payload))
      then Some "Missing intent"
      else if negb (is_string (jprop "input" payload))
      then Some "Missing input"
      else
        match jprop "context" payload with
        | Some (JArr _) | Some (JObj _) | None => None
        | Some c => if truthy c then Some "Context must be an object" else None
        end
  end.

(** [payload.key] where validation has established a string. *)
Definition str_field (key : string) (payload : json) : string :=
  match jprop key payload with
  | Some (JStr s) => s
  | _ => ""
  end.

Definition opt_json (o : option json) : json := default JNull o.
Definition str_json (o : option string) : json :=
  match o with Some s => JStr s | None => JNull end.
Definition strs_json (l : list string) : json := JArr (map JStr l).

(** [agentPolicy.rate_limit_per_minute ||
     (policy.global && policy.global.rate_limit_per_minute) || 0]
    (server.js, 541-542) *)
Definition agentLimit (agentPolicy : AgentPolicy) (policy : Policy) : Z :=
  if num_truthy (rate_limit_per_minute agentPolicy)
  then default 0 (rate_limit_per_minute agentPolicy)
  else
    let inherited :=
      match global policy with
      | Some g => global_rate_limit_per_minute g
      | None => None
      end in
    if num_truthy inherited then default 0 inherited else 0.

(** ** Memory journal (memory.js) *)

Record GatewayMemory := {
  lastHash : string;
  context : json;
  sessionCounts : gmap string Z;
  _initialized : bool
}.

Definition new_memory : GatewayMemory :=
  {| lastHash := "GENESIS"; context := JObj []; sessionCounts := ∅;
     _initialized := false |}.

(** The files the gateway writes: the journal and the access log as the
    lines they hold ([None]: the journal does not exist yet), and the
    context file as its text. *)
Record Files := {
  journal_file : option (list string);
  context_file : option string;
  access_log : list string
}.

(** [{ ...base, ...entry }] *)
Definition spread (base entry : list (string * json)) : list (string * json) :=
  fold_left (fun acc kv => assoc_set (fst kv) (snd kv) acc) entry base.

(** [lines.slice(-limit)]; [None] is NaN *)
Definition slice_last {A : Type} (limit : option Z) (lines : list A) : list A :=
  match limit with
  | None => lines
  | Some n =>
      if 0 <? n then drop (length lines - Z.to_nat n) lines
      else drop (Z.to_nat (- n)) lines
  end.

(** [Object.keys(v).length] *)
Definition object_keys_count (v : json) : outcome Z :=
  match v with
  | JNull => Throw (TypeError "Cannot convert undefined or null to object")
  | JObj fields => Ret (Z.of_nat (length fields))
  | JArr items => Ret (Z.of_nat (length items))
  | JStr s => Ret (Z.of_nat (String.length s))
  | _ => Ret 0
  end.

Fixpoint parse_all (parse : string -> option json) (lines : list string)
  : option (list json) :=
  match lines with
  | [] => Some []
  | l :: rest =>
      match parse l, parse_all parse rest with
      | Some v, Some vs => Some (v :: vs)
      | _, _ => None
      end
  end.

(** ** Process state and the handler monad *)

(** What one request obtains from outside the process. *)
Record Env := {
  (** successive readings of [Date.now()] *)
  clock : nat -> Z;
  (** [randomUUID()] for the request and for the verify request id *)
  request_uuid : string;
  verify_uuid : string;
  process_uptime : number;
  (** [loadJson(path)]: a read or syntax error, [null], or the document *)
  policy_file : outcome (option Policy);
  prompts_file : outcome (option Prompts);
  (** [fetch(...)] followed by [res.json()] on the worlds feed *)
  worlds_feed : outcome json;
  (** outcome of the file-system writes *)
  memory_mkdir_ok : bool;
  journal_append_ok : bool;
  log_append_error : option JsError
}.

(** State that lives as long as the process. *)
Module Process.
Record t `{Registry} := {
  rateLimiter : gmap string (list Z);
  metrics : Metrics.t;
  memory : GatewayMemory;
  files : Files;
  upstream : World
}.
End Process.

(** The [let] variables of one request (server.js, 285-292). *)
Module Locals.
Record t := {
  agentName : option string;
  intent : option string;
  providerName : option value;
  status : string;
  responsePayload : option (list (string * json));
  requestPayload : option json
}.
Definition initial : t :=
  {| agentName := None; intent := None; providerName := None; status := "error";
     responsePayload := None; requestPayload := None |}.
End Locals.

(** [sent] lists the [res.writeHead(code); res.end(payload)] calls made so
    far; [ticks] counts the clock readings. *)
Record State `{Registry} := {
  process : Process.t;
  locals : Locals.t;
  sent : list (Z * list (string * json));
  ticks : nat
}.

Definition M `{Registry} (A : Type) : Type := State -> outcome A * State.

Definition ret `{Registry} {A : Type} (a : A) : M A := fun s => (Ret a, s).

Definition throw `{Registry} {A : Type} (e : JsError) : M A := fun s => (Throw e, s).

Definition bind `{Registry} {A B : Type} (m : M A) (k : A -> M B) : M B :=
  fun s =>
    match m s with
    | (Ret a, s') => k a s'
    | (Throw e, s') => (Throw e, s')
    end.

Notation "x <- m ;; k" := (bind m (fun x => k))
  (at level 100, m at next level, right associativity).
Notation "m ;; k" := (bind m (fun _ => k))
  (at level 100, right associativity).

(** An awaited promise that settled with [o]. *)
Definition await `{Registry} {A : Type} (o : outcome A) : M A := fun s => (o, s).

(** [try { body } catch (e) { handler }] *)
Definition try_catch `{Registry} {A : Type} (body : M A) (handler : JsError -> M A)
  : M A :=
  fun s =>
    match body s with
    | (Ret a, s') => (Ret a, s')
    | (Throw e, s') => handler e s'
    end.

(** [try { body } finally { cleanup }]: an exception of [cleanup] replaces
    the completion of [body]. *)
Definition try_finally `{Registry} {A : Type} (body : M A) (cleanup : M unit) : M A :=
  fun s =>
    match body s with
    | (r, s') =>
        match cleanup s' with
        | (Ret _, s'') => (r, s'')
        | (Throw e, s'') => (Throw e, s'')
        end
    end.

(** Reading an identifier that no scope declares. *)
Definition undeclared `{Registry} {A : Type} (name : string) : M A :=
  throw (ReferenceError (name ++ " is not defined")).

Definition get_locals `{Registry} : M Locals.t := fun s => (Ret (locals s), s).

(** Reading one component of the process state. *)
Definition gets `{Registry} {X : Type} (f : Process.t -> X) : M X :=
  fun s => (Ret (f (process s)), s).

Definition update_locals `{Registry} (f : Locals.t -> Locals.t) : M unit :=
  fun s => (Ret tt, {| process := process s; locals := f (locals s);
                       sent := sent s; ticks := ticks s |}).

Definition update_process `{Registry} (f : Process.t -> Process.t) : M unit :=
  fun s => (Ret tt, {| process := f (process s); locals := locals s;
                       sent := sent s; ticks := ticks s |}).

(** [Date.now()] *)
Definition Date_now `{Registry} (env : Env) : M Z :=
  fun s => (Ret (clock env (ticks s)),
            {| process := process s; locals := locals s;
               sent := sent s; ticks := S (ticks s) |}).

(** [res.writeHead(code, ...); res.end(JSON.stringify(payload))] *)
Definition write_response `{Registry} (code : Z) (payload : list (string * json))
  : M unit :=
  fun s => (Ret tt, {| process := process s; locals := locals s;
                       sent := push (sent s) (code, payload); ticks := ticks s |}).

Definition set_agentName (v : option string) (l : Locals.t) : Locals.t :=
  {| Locals.agentName := v; Locals.intent := Locals.intent l;
     Locals.providerName := Locals.providerName l; Locals.status := Locals.status l;
     Locals.responsePayload := Locals.responsePayload l;
     Locals.requestPayload := Locals.requestPayload l |}.

Definition set_intent (v : option string) (l : Locals.t) : Locals.t :=
  {| Locals.agentName := Locals.agentName l; Locals.intent := v;
     Locals.providerName := Locals.providerName l; Locals.status := Locals.status l;
     Locals.responsePayload := Locals.responsePayload l;
     Locals.requestPayload := Locals.requestPayload l |}.

Definition set_providerName (v : option value) (l : Locals.t) : Locals.t :=
  {| Locals.agentName := Locals.agentName l; Locals.intent := Locals.intent l;
     Locals.providerName := v; Locals.status := Locals.status l;
     Locals.responsePayload := Locals.responsePayload l;
     Locals.requestPayload := Locals.requestPayload l |}.

Definition set_status (v : string) (l : Locals.t) : Locals.t :=
  {| Locals.agentName := Locals.agentName l; Locals.intent := Locals.intent l;
     Locals.providerName := Locals.providerName l; Locals.status := v;
     Locals.responsePayload := Locals.responsePayload l;
     Locals.requestPayload := Locals.requestPayload l |}.

Definition set_responsePayload (v : option (list (string * json))) (l : Locals.t)
  : Locals.t :=
  {| Locals.agentName := Locals.agentName l; Locals.intent := Locals.intent l;
     Locals.providerName := Locals.providerName l; Locals.status := Locals.status l;
     Locals.responsePayload := v;
     Locals.requestPayload := Locals.requestPayload l |}.

Definition set_requestPayload (v : option json) (l : Locals.t) : Locals.t :=
  {| Locals.agentName := Locals.agentName l; Locals.intent := Locals.intent l;
     Locals.providerName := Locals.providerName l; Locals.status := Locals.status l;
     Locals.responsePayload := Locals.responsePayload l;
     Locals.requestPayload := v |}.

Definition set_rateLimiter `{Registry} (v : gmap string (list Z)) (p : Process.t)
  : Process.t :=
  {| Process.rateLimiter := v; Process.metrics := Process.metrics p;
     Process.memory := Process.memory p; Process.files := Process.files p;
     Process.upstream := Process.upstream p |}.

Definition set_metrics `{Registry} (v : Metrics.t) (p : Process.t) : Process.t :=
  {| Process.rateLimiter := Process.rateLimiter p; Process.metrics := v;
     Process.memory := Process.memory p; Process.files := Process.files p;
     Process.upstream := Process.upstream p |}.

Definition set_memory `{Registry} (v : GatewayMemory) (p : Process.t) : Process.t :=
  {| Process.rateLimiter := Process.rateLimiter p; Process.metrics := Process.metrics p;
     Process.memory := v; Process.files := Process.files p;
     Process.upstream := Process.upstream p |}.

Definition set_files `{Registry} (v : Files) (p : Process.t) : Process.t :=
  {| Process.rateLimiter := Process.rateLimiter p; Process.metrics := Process.metrics p;
     Process.memory := Process.memory p; Process.files := v;
     Process.upstream := Process.upstream p |}.

Definition set_upstream `{Registry} (v : World) (p : Process.t) : Process.t :=
  {| Process.rateLimiter := Process.rateLimiter p; Process.metrics := Process.metrics p;
     Process.memory := Process.memory p; Process.files := Process.files p;
     Process.upstream := v |}.

Fixpoint mapM `{Registry} {A B : Type} (f : A -> M B) (l : list A) : M (list B) :=
  match l with
  | [] => ret []
  | x :: rest => y <- f x ;; ys <- mapM f rest ;; ret (y :: ys)
  end.

(** *** The rate limiter and the dispatcher in the handler monad

    [check] and [getUsage] read the clock only when they reach [_prune]. *)
Definition limiter_check `{Registry} (env : Env) (agent : string) (limit : Z) : M bool :=
  if (limit =? 0) || (limit <=? 0) then ret true
  else
    now <- Date_now env ;;
    w <- gets Process.rateLimiter ;;
    let r := RateLimiter.check now agent limit w in
    update_process (set_rateLimiter (snd r)) ;;
    ret (fst r).

Definition limiter_record `{Registry} (env : Env) (agent : string) : M unit :=
  now <- Date_now env ;;
  w <- gets Process.rateLimiter ;;
  update_process (set_rateLimiter (RateLimiter.record now agent w)).

Definition limiter_getUsage `{Registry} (env : Env) (agent : string) : M Z :=
  w <- gets Process.rateLimiter ;;
  match w !! agent with
  | None => ret 0
  | Some _ =>
      now <- Date_now env ;;
      let r := RateLimiter.getUsage now agent w in
      update_process (set_rateLimiter (snd r)) ;;
      ret (fst r)
  end.

(** [invokeWithFallback(providerName, chain, args)] on the upstream state;
    [getProvider] calls [name.toLowerCase()] first, which only strings have. *)
Definition dispatch `{Registry} (providerName : value) (chain : option (list string))
    (invokeArgs : InvokeArgs) : M DispatchResult :=
  match providerName with
  | Data (JStr name) =>
      fun s =>
        let r := invokeWithFallback name chain invokeArgs (Process.upstream (process s)) in
        (fst r, {| process := set_upstream (snd r) (process s); locals := locals s;
                   sent := sent s; ticks := ticks s |})
  | _ => throw (TypeError "name.toLowerCase is not a function")
  end.

(** *** memory.js in the handler monad

    The promise [memory.record] returns is not awaited by the handler; the
    model runs it to completion at the call. *)

(** [JSON.parse(lines[lines.length - 1]).hash]; a last line that does not
    parse leaves [lastHash] as it is, and so does, in this model, one whose
    [hash] is not a string. *)
Definition tail_hash `{Runtime} (mem : GatewayMemory) (fs : Files) : string :=
  match journal_file fs with
  | Some lines =>
      match last lines with
      | Some line =>
          match JSON_parse line with
          | Some parsed =>
              match jprop "hash" parsed with
              | Some (JStr h) => h
              | _ => lastHash mem
              end
          | None => lastHash mem
          end
      | None => lastHash mem
      end
  | None => lastHash mem
  end.

Definition loaded_context `{Runtime} (mem : GatewayMemory) (fs : Files) : json :=
  match context_file fs with
  | Some text => default (context mem) (JSON_parse text)
  | None => context mem
  end.

Definition memory_init `{Runtime} `{Registry} (env : Env) : M unit :=
  mem <- gets Process.memory ;;
  fs <- gets Process.files ;;
  if _initialized mem then ret tt
  else if memory_mkdir_ok env then
    update_process (set_memory
      {| lastHash := tail_hash mem fs;
         context := loaded_context mem fs;
         sessionCounts := sessionCounts mem;
         _initialized := true |})
  else ret tt.

Definition append_journal (line : string) (fs : Files) : Files :=
  {| journal_file := Some (push (default [] (journal_file fs)) line);
     context_file := context_file fs;
     access_log := access_log fs |}.

Definition append_access_log (line : string) (fs : Files) : Files :=
  {| journal_file := journal_file fs;
     context_file := context_file fs;
     access_log := push (access_log fs) line |}.

Definition memory_record `{Runtime} `{Registry} (env : Env)
    (entry : list (string * json)) : M string :=
  memory_init env ;;
  now <- Date_now env ;;
  mem <- gets Process.memory ;;
  let record0 :=
    spread [("ts", JStr (toISOString now)); ("prev", JStr (lastHash mem))] entry in
  let hash := sha256_hex16 (lastHash mem ++ JSON_stringify (JObj record0)) in
  let record := assoc_set "hash" (JStr hash) record0 in
  let counts :=
    match assoc "agent" entry with
    | Some a =>
        if truthy a then Metrics.bump (to_text a) (sessionCounts mem)
        else sessionCounts mem
    | None => sessionCounts mem
    end in
  update_process (set_memory
    {| lastHash := hash; context := context mem; sessionCounts := counts;
       _initialized := _initialized mem |}) ;;
  (if journal_append_ok env
   then update_process (fun p =>
          set_files (append_journal (JSON_stringify (JObj record)) (Process.files p)) p)
   else ret tt) ;;
  ret hash.

Definition memory_recent `{Runtime} `{Registry} (env : Env) (limit : option Z)
  : M (list json) :=
  memory_init env ;;
  fs <- gets Process.files ;;
  match journal_file fs with
  | None => ret []
  | Some lines =>
      match parse_all JSON_parse (slice_last limit lines) with
      | Some entries => ret (rev entries)
      | None => ret []
      end
  end.

Definition memory_stats `{Runtime} `{Registry} (env : Env) : M (list (string * json)) :=
  memory_init env ;;
  mem <- gets Process.memory ;;
  fs <- gets Process.files ;;
  let lineCount := Z.of_nat (length (default [] (journal_file fs))) in
  keys <- await (object_keys_count (context mem)) ;;
  ret [ ("journal_entries", JNum (num_of_Z lineCount));
        ("last_hash", JStr (lastHash mem));
        ("context_keys", JNum (num_of_Z keys));
        ("session_calls", Metrics.counters_json (sessionCounts mem));
        ("total_session_calls",
          JNum (num_of_Z (fold_right Z.add 0 (map snd (map_to_list (sessionCounts mem)))))) ].

(** [appendLog(logPath, entry)]: [mkdir] and [appendFile] may throw. *)
Definition appendLog `{Runtime} `{Registry} (env : Env) (entry : json) : M unit :=
  match log_append_error env with
  | Some e => throw e
  | None =>
      update_process (fun p =>
        set_files (append_access_log (JSON_stringify entry) (Process.files p)) p)
  end.

Definition loadPolicy `{Registry} (env : Env) : M (Policy * gmap string AgentPolicy) :=
  policy <- await (policy_file env) ;;
  match policy with
  | Some p =>
      match agents p with
      | Some table => ret (p, table)
      | None => throw (Error "Policy file missing or invalid")
      end
  | None => throw (Error "Policy file missing or invalid")
  end.

(** ** The request handler (server.js, 284-660) *)

Definition field_is (key value : string) (payload : list (string * json)) : bool :=
  match assoc key payload with
  | Some (JStr s) => String.eqb s value
  | _ => false
  end.

(** [if (payload.status === 'error' && typeof payload.output !== 'string')
    payload.output = ''] *)
Definition with_error_output (payload : list (string * json)) : list (string * json) :=
  if field_is "status" "error" payload && negb (is_string (assoc "output" payload))
  then assoc_set "output" (JStr "") payload
  else payload.

(** [send(code, payload)] (server.js, 294-302).  Every payload the handler
    builds carries a string [status], so [payload.status || status] is that
    string unless it is empty. *)
Definition send `{Registry} (code : Z) (payload : list (string * json)) : M unit :=
  let payload' := with_error_output payload in
  update_locals (set_responsePayload (Some payload')) ;;
  update_locals (fun l =>
    set_status
      match assoc "status" payload' with
      | Some (JStr s) => if String.eqb s "" then Locals.status l else s
      | _ => Locals.status l
      end l) ;;
  write_response code payload'.

Definition error_payload (msg : string) : list (string * json) :=
  [("status", JStr "error"); ("error", JStr msg)].

Definition error_payload_id (msg requestId : string) : list (string * json) :=
  [("status", JStr "error"); ("error", JStr msg); ("request_id", JStr requestId)].

(** [!config.allowRemote && !isLoopback(req)] *)
Definition remote_denied (cfg : Config) (req : Request) : bool :=
  negb (allowRemote cfg) && negb (isLoopback req).

(** GET /healthz, /health (server.js, 308-319); [metrics.snapshot()] has no
    [activeAgents], so [agents] is 0. *)
Definition route_health `{Runtime} `{Registry} (env : Env) : M unit :=
  let providerList := listProviders in
  _ <- Date_now env ;;
  now <- Date_now env ;;
  send 200
    [ ("status", JStr "ok"); ("gateway", JStr "blackroad-core");
      ("version", JNum (num_of_Z 2)); ("providers", strs_json providerList);
      ("agents", JNum (num_of_Z 0)); ("uptime", JNum (process_uptime env));
      ("timestamp", JStr (toISOString now)) ].

(** GET /metrics (server.js, 324-329) *)
Definition route_metrics `{Registry} (cfg : Config) (env : Env) (req : Request) : M unit :=
  if remote_denied cfg req then send 403 (error_payload "Remote access denied")
  else
    now <- Date_now env ;;
    m <- gets Process.metrics ;;
    send 200 [("status", JStr "ok"); ("metrics", JObj (Metrics.snapshot now m))].

Definition roster_entry `{Registry} (env : Env) (item : string * AgentPolicy) : M json :=
  let name := fst item in
  let cfg := snd item in
  usage <- limiter_getUsage env name ;;
  ret (JObj
    [ ("name", JStr name);
      ("description", JStr (if str_truthy (description cfg)
                            then default "" (description cfg) else ""));
      ("intents", strs_json (default [] (allowed_intents cfg)));
      ("providers", strs_json (default [] (allowed_providers cfg)));
      ("default_provider", if str_truthy (default_provider cfg)
                           then str_json (default_provider cfg) else JNull);
      ("rate_limit", if num_truthy (rate_limit_per_minute cfg)
                     then JNum (num_of_Z (default 0 (rate_limit_per_minute cfg)))
                     else JNull);
      ("usage_last_minute", JNum (num_of_Z usage)) ]).

(** GET /v1/agents (server.js, 334-349); the roster follows the order of
    the map's keys. *)
Definition route_agents `{Registry} (cfg : Config) (env : Env) (req : Request) : M unit :=
  if remote_denied cfg req then send 403 (error_payload "Remote access denied")
  else
    policy <- loadPolicy env ;;
    roster <- mapM (roster_entry env) (map_to_list (snd policy)) ;;
    send 200 [("status", JStr "ok"); ("agents", JArr roster)].

(** GET /v1/worlds (server.js, 354-362) *)
Definition route_worlds `{Registry} (env : Env) : M unit :=
  try_catch
    (data <- await (worlds_feed env) ;;
     send 200 [("status", JStr "ok"); ("worlds", data)])
    (fun _ => send 502 (error_payload "worlds feed unavailable")).

(** GET /v1/memory... (server.js, 369-379) *)
Definition route_memory `{Runtime} `{Registry} (cfg : Config) (env : Env) (req : Request)
  : M unit :=
  if remote_denied cfg req then send 403 (error_payload "Remote access denied")
  else
    parsed <- await (parse_url (url req)) ;;
    if String.eqb (fst parsed) "/v1/memory/recent" then
      let limit := parseInt (if str_truthy (snd parsed) then default "" (snd parsed)
                             else "10") in
      entries <- memory_recent env limit ;;
      send 200 [("status", JStr "ok"); ("entries", JArr entries)]
    else
      stats <- memory_stats env ;;
      send 200 [("status", JStr "ok"); ("memory", JObj stats)].

(** GET /v1/providers (server.js, 384-389) *)
Definition route_providers `{Registry} (cfg : Config) (req : Request) : M unit :=
  if remote_denied cfg req then send 403 (error_payload "Remote access denied")
  else send 200 [("status", JStr "ok"); ("providers", strs_json listProviders)].

(** *** POST /v1/verify (server.js, 394-488) *)

Definition security_words : list string :=
  ["password"; "secret"; "key"; "token"; "vulnerability"; "exploit"; "breach"; "hack"].

(** [/password|secret|...|hack/i.test(claim)]; without the [u] flag the
    pattern's ASCII letters match ASCII letters only. *)
Definition isSecurityClaim (claim : string) : bool :=
  existsb (fun word => includes word (lower claim)) security_words.

(** [sources.length], [None] being undefined *)
Definition sources_length (sources : json) : outcome (option json) :=
  match sources with
  | JNull => Throw (TypeError "Cannot read properties of null (reading 'length')")
  | JArr items => Ret (Some (JNum (num_of_Z (Z.of_nat (length items)))))
  | JStr s => Ret (Some (JNum (num_of_Z (Z.of_nat (String.length s)))))
  | JObj fields => Ret (assoc "length" fields)
  | _ => Ret None
  end.

(** [v > 0] *)
Definition gt_zero `{Runtime} (v : option json) : bool :=
  match v with
  | None => false
  | Some (JNum n) => negb (num_leb n num_zero)
  | Some other =>
      match ToNumber other with
      | Some n => negb (num_leb n num_zero)
      | None => false
      end
  end.

(** An element under [Array.prototype.join] *)
Definition join_item `{Runtime} (v : json) : string :=
  match v with
  | JNull => ""
  | _ => to_text v
  end.

(** [sources.length > 0 ? `\nSources to cross-check: ${sources.join(', ')}` : ''];
    only arrays have a [join] that can be called. *)
Definition sourcesLine `{Runtime} (sources : json) : outcome string :=
  match sources_length sources with
  | Throw e => Throw e
  | Ret len =>
      if gt_zero len then
        match sources with
        | JArr items =>
            Ret (newline ++ "Sources to cross-check: "
                 ++ String.concat ", " (map join_item items))
        | _ => Throw (TypeError "sources.join is not a function")
        end
      else Ret ""
  end.

Definition quoted (s : string) : string := dquote ++ s ++ dquote.

Definition verifyPrompt `{Runtime} (claim sourcesLine : string) (confidence_threshold : json)
  : string :=
  "You are an information verification system. Analyze the following claim and respond ONLY with a single valid JSON object — no markdown fences, no surrounding text."
  ++ newline ++ newline
  ++ "Claim: " ++ quoted (escape_quotes claim) ++ sourcesLine ++ newline
  ++ "Confidence threshold: " ++ to_text confidence_threshold ++ newline ++ newline
  ++ "Check for: numeric facts or statistics that may be hallucinated, dates and time references, proper nouns (people, places, organizations), logical consistency, and internal contradictions."
  ++ newline ++ newline
  ++ "Respond with ONLY this JSON shape:" ++ newline
  ++ "{" ++ quoted "verdict" ++ ":" ++ quoted "true" ++ "|" ++ quoted "false" ++ "|"
  ++ quoted "unverified" ++ "|" ++ quoted "conflicting" ++ ","
  ++ quoted "confidence" ++ ":<0.0-1.0>,"
  ++ quoted "reasoning" ++ ":" ++ quoted "<concise explanation>" ++ ","
  ++ quoted "flags" ++ ":[" ++ quoted "<issue1>" ++ "]}".

(** [!claim || typeof claim !== 'string' || claim.trim().length === 0] *)
Definition claim_missing `{Runtime} (claim : option json) : bool :=
  match claim with
  | Some (JStr c) => String.eqb c "" || String.eqb (trim c) ""
  | _ => true
  end.

Definition optional_field (key : string) (v : option json) : list (string * json) :=
  match v with
  | Some x => [(key, x)]
  | None => []
  end.

(** The statements after the claim has been accepted (server.js, 408-484);
    [agentName], [intent] and [providerName] are constants of this block,
    the handler's variables of the same names stay [null]. *)
Definition verify_claim `{Runtime} `{Registry} (env : Env) (verifyStart : Z)
    (claim : string) (sources confidence_threshold : json) : M unit :=
  let isSecurity := isSecurityClaim claim in
  let agentName := if isSecurity then "cipher" else "prism" in
  let intent := if isSecurity then "audit" else "analyze" in
  policy <- loadPolicy env ;;
  match snd policy !! agentName with
  | None =>
      throw (TypeError "Cannot read properties of undefined (reading 'intent_routes')")
  | Some agentPolicy =>
      match pickProvider (Some JNull) agentPolicy intent with
      | None => send 503 (error_payload "No provider available for verification")
      | Some providerName =>
          line <- await (sourcesLine sources) ;;
          let prompt := verifyPrompt claim line confidence_threshold in
          prompts <- await (prompts_file env) ;;
          let systemPrompt := buildSystemPrompt prompts agentName intent (Some (JObj [])) in
          let verifyRequestId := "verify-" ++ verify_uuid env in
          result <- dispatch providerName (Some (default [] (fallback_chain agentPolicy)))
                      {| arg_input := prompt; arg_system := systemPrompt;
                         arg_context := JObj [("task", JStr "verification")];
                         arg_requestId := verifyRequestId;
                         arg_agent := agentName; arg_intent := intent |} ;;
          let v := parse_verdict (output result) in
          checked <- await (sources_length sources) ;;
          now <- Date_now env ;;
          try_catch
            (_ <- memory_record env
                    ([ ("type", JStr "verify"); ("agent", JStr agentName);
                       ("provider", JStr (provider result)); ("intent", JStr intent);
                       ("verdict", JStr (verdict v)); ("confidence", JNum (confidence v)) ]
                     ++ optional_field "sources_checked" checked
                     ++ [("duration_ms", JNum (num_of_Z (now - verifyStart)))])%list ;;
             ret tt)
            (fun _ => ret tt) ;;
          stamp <- Date_now env ;;
          send 200
            ([ ("status", JStr "ok"); ("verdict", JStr (verdict v));
               ("confidence", JNum (confidence v)); ("reasoning", JStr (reasoning v));
               ("agent_used", JStr agentName) ]
             ++ optional_field "sources_checked" checked
             ++ [("flags", JArr (flags v)); ("timestamp", JStr (toISOString stamp))])%list
      end
  end.

Definition route_verify `{Runtime} `{Registry} (env : Env) (req : Request) : M unit :=
  verifyStart <- Date_now env ;;
  try_catch
    (verBody <- await (readBody req 65536) ;;
     match JSON_parse verBody with
     | None => send 400 (error_payload "Invalid JSON")
     | Some JNull =>
         throw (TypeError "Cannot destructure property 'claim' of 'verPayload' as it is null.")
     | Some verPayload =>
         let claim := jprop "claim" verPayload in
         let sources := default (JArr []) (jprop "sources" verPayload) in
         let confidence_threshold :=
           default (JNum (Finite (7 # 10))) (jprop "confidence_threshold" verPayload) in
         if claim_missing claim then send 400 (error_payload "claim is required")
         else
           verify_claim env verifyStart (str_field "claim" verPayload)
             sources confidence_threshold
     end)
    (fun e => send 502 (error_payload
                (if String.eqb (message e) "" then "verify failed" else message e))).

(** *** POST /v1/agent (server.js, 497-606) *)

(** [policy.agents[agentName]].  A name that [agents] does not hold and
    that names a member of [Object.prototype] finds that member, which is
    truthy and has none of the properties of an agent policy. *)
Definition no_policy : AgentPolicy :=
  {| description := None; allowed_intents := None; allowed_providers := None;
     default_provider := None; fallback_chain := None; max_input_bytes := None;
     rate_limit_per_minute := None; intent_routes := None |}.

Definition agent_policy (table : gmap string AgentPolicy) (agentName : string)
  : option AgentPolicy :=
  match table !! agentName with
  | Some agentPolicy => Some agentPolicy
  | None => if inherited agentName then Some no_policy else None
  end.

(** The statements that follow the rate limit (server.js, 558-606). *)
Definition call_provider `{Runtime} `{Registry} (env : Env) (requestId : string)
    (startTime : Z) (payload : json) (agentName intent : string)
    (agentPolicy : AgentPolicy) : M unit :=
  let picked := pickProvider (jprop "provider" payload) agentPolicy intent in
  update_locals (set_providerName picked) ;;
  match picked with
  | None => send 400 (error_payload_id "Provider not configured" requestId)
  | Some providerName =>
      if match allowed_providers agentPolicy with
         | Some names =>
             negb (match providerName with
                   | Data (JStr name) => str_in name names
                   | _ => false
                   end)
         | None => false
         end
      then send 403 (error_payload_id "Provider not allowed" requestId)
      else
        prompts <- await (prompts_file env) ;;
        let systemPrompt :=
          buildSystemPrompt prompts agentName intent (jprop "context" payload) in
        let invokeArgs :=
          {| arg_input := str_field "input" payload;
             arg_system := systemPrompt;
             arg_context := if truthy_opt (jprop "context" payload)
                            then opt_json (jprop "context" payload) else JObj [];
             arg_requestId := requestId;
             arg_agent := agentName;
             arg_intent := intent |} in
        result <- dispatch providerName
                    (Some (default [] (fallback_chain agentPolicy))) invokeArgs ;;
        limiter_record env agentName ;;
        update_locals (set_status "ok") ;;
        update_locals (set_providerName (Some (Data (JStr (provider result))))) ;;
        now <- Date_now env ;;
        let responsePayload :=
          [ ("status", JStr "ok"); ("provider", JStr (provider result));
            ("output", JStr (output result)); ("request_id", JStr requestId);
            ("metadata", JObj [ ("latency_ms", JNum (num_of_Z (now - startTime)));
                                ("fallback", JBool (fallback result)) ]) ] in
        update_locals (set_responsePayload (Some responsePayload)) ;;
        send 200 responsePayload
  end.

(** The statements that follow the policy lookup of an agent
    (server.js, 527-553). *)
Definition invoke_agent `{Runtime} `{Registry} (env : Env) (requestId : string)
    (startTime : Z) (payload : json) (agentName intent : string)
    (policy : Policy) (agentPolicy : AgentPolicy) : M unit :=
  if negb (match allowed_intents agentPolicy with
           | Some intents => str_in intent intents
           | None => false
           end)
  then send 403 (error_payload_id "Intent not allowed" requestId)
  else if num_truthy (max_input_bytes agentPolicy)
          && (Z.of_nat (String.length (str_field "input" payload))
              >? default 0 (max_input_bytes agentPolicy))
  then send 413 (error_payload_id "Input too large" requestId)
  else
    let limit := agentLimit agentPolicy policy in
    within <- (if limit >? 0 then limiter_check env agentName limit else ret true) ;;
    if (limit >? 0) && negb within then
      send 429
        [ ("status", JStr "error"); ("error", JStr "Rate limit exceeded");
          ("request_id", JStr requestId);
          ("metadata", JObj [ ("limit_per_minute", JNum (num_of_Z limit));
                              ("retry_after_seconds", JNum (num_of_Z 60)) ]) ]
    else call_provider env requestId startTime payload agentName intent agentPolicy.

Definition route_agent `{Runtime} `{Registry} (cfg : Config) (env : Env) (req : Request)
    (requestId : string) (startTime : Z) : M unit :=
  if remote_denied cfg req
  then send 403 (error_payload_id "Remote access denied" requestId)
  else
    body <- await (readBody req (maxBodyBytes cfg)) ;;
    match JSON_parse body with
    | None => send 400 (error_payload_id "Invalid JSON" requestId)
    | Some payload =>
        match validateRequest payload with
        | Some validationError => send 400 (error_payload_id validationError requestId)
        | None =>
            update_locals (set_requestPayload (Some payload)) ;;
            update_locals (set_agentName (Some (str_field "agent" payload))) ;;
            update_locals (set_intent (Some (str_field "intent" payload))) ;;
            policy <- loadPolicy env ;;
            match agent_policy (snd policy) (str_field "agent" payload) with
            | None => send 403 (error_payload_id "Agent not allowed" requestId)
            | Some agentPolicy =>
                invoke_agent env requestId startTime payload
                  (str_field "agent" payload) (str_field "intent" payload)
                  (fst policy) agentPolicy
            end
        end
    end.

(** *** Routing, [catch] and [finally] *)

Definition routes `{Runtime} `{Registry} (cfg : Config) (env : Env) (req : Request)
    (requestId : string) (startTime : Z) : M unit :=
  let get := String.eqb (method req) "GET" in
  let post := String.eqb (method req) "POST" in
  if get && (String.eqb (url req) "/healthz" || String.eqb (url req) "/health")
  then route_health env
  else if get && String.eqb (url req) "/metrics" then route_metrics cfg env req
  else if get && String.eqb (url req) "/v1/agents" then route_agents cfg env req
  else if get && String.eqb (url req) "/v1/worlds" then route_worlds env
  else if get && startsWith "/v1/memory" (url req) then route_memory cfg env req
  else if get && String.eqb (url req) "/v1/providers" then route_providers cfg req
  else if post && String.eqb (url req) "/v1/verify" then route_verify env req
  else if negb post || negb (String.eqb (url req) "/v1/agent")
  then send 404 (error_payload_id "Not found" requestId)
  else route_agent cfg env req requestId startTime.

(** The [catch (error)] block (server.js, 607-617).  Payloads are written
    as [JSON.stringify] leaves them: a [provider] that is a function does
    not appear. *)
Definition catch_block `{Registry} (env : Env) (requestId : string) (startTime : Z)
    (error : JsError) : M unit :=
  now <- Date_now env ;;
  let payload0 :=
    [ ("status", JStr "error");
      ("error", JStr (if String.eqb (message error) "" then "Gateway error"
                      else message error));
      ("request_id", JStr requestId);
      ("metadata", JObj [("latency_ms", JNum (num_of_Z (now - startTime)))]) ] in
  l <- get_locals ;;
  let payload :=
    match Locals.providerName l with
    | Some providerName =>
        if value_truthy providerName
        then match serialized providerName with
             | Some v => assoc_set "provider" v payload0
             | None => payload0
             end
        else payload0
    | None => payload0
    end in
  update_locals (set_responsePayload (Some payload)) ;;
  send 500 payload.

(** The property [key: v] of an object literal, as [JSON.stringify] leaves
    it. *)
Definition value_field (key : string) (v : option value) : list (string * json) :=
  match v with
  | Some x => optional_field key (serialized x)
  | None => [(key, JNull)]
  end.

Definition requestLog (requestPayload : option json) : json :=
  match requestPayload with
  | Some p =>
      JObj [ ("agent", opt_json (jprop "agent" p));
             ("intent", opt_json (jprop "intent" p));
             ("provider", if truthy_opt (jprop "provider" p)
                          then opt_json (jprop "provider" p) else JNull);
             ("input", opt_json (jprop "input" p));
             ("context", if truthy_opt (jprop "context" p)
                         then opt_json (jprop "context" p) else JObj []);
             ("input_bytes", JNum (num_of_Z (Z.of_nat (String.length (str_field "input" p))))) ]
  | None => JNull
  end.

(** The [finally] block after [metrics.record] (server.js, 622-658).
    [startMs] is declared nowhere in the file: the handler's start time is
    [startTime]. *)
Definition journal_and_log `{Runtime} `{Registry} (env : Env) (req : Request)
    (requestId : string) (l : Locals.t) : M unit :=
  (if str_truthy (Locals.agentName l) then
     now <- Date_now env ;;
     startMs <- undeclared "startMs" ;;
     try_catch
       (_ <- memory_record env
               ([ ("type", JStr "agent_call");
                  ("agent", str_json (Locals.agentName l)) ]
                ++ value_field "provider" (Locals.providerName l)
                ++ [ ("intent", if str_truthy (Locals.intent l)
                                then str_json (Locals.intent l) else JNull);
                     ("status", JStr (Locals.status l));
                     ("duration_ms", JNum (num_of_Z (now - startMs))) ])%list ;;
        ret tt)
       (fun _ => ret tt)
   else ret tt) ;;
  stamp <- Date_now env ;;
  let logEntry :=
    JObj ([ ("timestamp", JStr (toISOString stamp));
            ("request_id", JStr requestId);
            ("agent", str_json (Locals.agentName l));
            ("intent", str_json (Locals.intent l)) ]
          ++ value_field "provider" (Locals.providerName l)
          ++ [ ("status", JStr (Locals.status l));
               ("request", requestLog (Locals.requestPayload l));
               ("response", match Locals.responsePayload l with
                            | Some r => JObj r
                            | None => JNull
                            end);
               ("remote_address", if str_truthy (remoteAddress req)
                                  then str_json (remoteAddress req) else JNull) ])%list in
  try_catch (appendLog env logEntry) (fun _ => ret tt).

(** The [finally] block (server.js, 618-659) *)
Definition finally_block `{Runtime} `{Registry} (env : Env) (req : Request)
    (requestId : string) : M unit :=
  l <- get_locals ;;
  update_process (fun p =>
    set_metrics (Metrics.record (Locals.agentName l) (Locals.providerName l)
                   (Locals.status l) (Process.metrics p)) p) ;;
  journal_and_log env req requestId l.

(** The [async (req, res) => { ... }] listener. *)
Definition handler `{Runtime} `{Registry} (cfg : Config) (env : Env) (req : Request)
  : M unit :=
  startTime <- Date_now env ;;
  let requestId := request_uuid env in
  try_finally
    (try_catch (routes cfg env req requestId startTime)
               (catch_block env requestId startTime))
    (finally_block env req requestId).

(** One request served by a process in state [p]: how the listener's
    promise settled, the responses written, and the state left behind. *)
Record Served `{Registry} := {
  completion : outcome unit;
  responses : list (Z * list (string * json));
  served_locals : Locals.t;
  after : Process.t
}.

Definition handle `{Runtime} `{Registry} (cfg : Config) (env : Env) (req : Request)
    (p : Process.t) : Served :=
  let r := handler cfg env req
             {| process := p; locals := Locals.initial; sent := []; ticks := O |} in
  {| completion := fst r; responses := sent (snd r);
     served_locals := locals (snd r); after := process (snd r) |}.

(** Requests served one after the other by the same process. *)
Fixpoint serve `{Runtime} `{Registry} (cfg : Config) (reqs : list (Env * Request))
    (p : Process.t) : list Served :=
  match reqs with
  | [] => []
  | (env, req) :: rest =>
      let s := handle cfg env req p in
      s :: serve cfg rest (after s)
  end.

(** ** The registry of providers/index.js *)
Module Providers.

(** The adapter modules the table refers to. *)
Inductive adapter := ollama | openai | anthropic | gemini | deepseek | groq.

Definition providers : list (string * adapter) :=
  [ ("ollama", ollama); ("openai", openai); ("claude", anthropic);
    ("anthropic", anthropic); ("gemini", gemini); ("deepseek", deepseek);
    ("groq", groq) ].

Fixpoint find (key : string) (table : list (string * adapter)) : option adapter :=
  match table with
  | [] => None
  | (k, a) :: rest => if String.eqb k key then Some a else find key rest
  end.

(** [providers[name.toLowerCase()] || null], on ASCII names; the table is
    read under the names it lists and under names that nothing answers to,
    an inherited member being no adapter. *)
Definition getProvider (name : string) : option adapter := find (lower name) providers.

Definition listProviders : list string := map fst providers.

(** The registry over upstream services that behave as [invoke] says. *)
Definition registry (W : Type)
    (invoke : adapter -> InvokeArgs -> W -> outcome string * W) : Registry :=
  Build_Registry W adapter getProvider listProviders invoke.

End Providers.

(** ** Properties of handler computations *)

(** [m] leaves the component [f] of the state as it found it. *)
Definition preserves `{Registry} {X A : Type} (f : State -> X) (m : M A) : Prop :=
  forall s, f (snd (m s)) = f s.

(** [m] neither reads nor writes what [u] changes. *)
Definition commutes `{Registry} {A : Type} (u : State -> State) (m : M A) : Prop :=
  forall s, m (u s) = (fst (m s), u (snd (m s))).

(** An envelope whose status is ["error"] has the empty string as output. *)
Definition error_output_empty (r : Z * list (string * json)) : bool :=
  implb (field_is "status" "error" (snd r)) (field_is "output" "" (snd r)).

(** The status code is not 403. *)
Definition not_forbidden (r : Z * list (string * json)) : bool := negb (fst r =? 403).

(** A 200 response of the verify endpoint carries a recognized verdict
    and a confidence between 0 and 1. *)
Definition verdict_ok (r : Z * list (string * json)) : bool :=
  negb (fst r =? 200)
  || (match assoc "verdict" (snd r) with
      | Some (JStr v) => str_in v recognized_verdicts
      | _ => false
      end
      && match assoc "confidence" (snd r) with
         | Some (JNum n) => num_leb num_zero n && num_leb n num_one
         | _ => false
         end).

(** [m] writes one response, which satisfies [ok], when it returns, and
    none when it throws. *)
Definition responds `{Registry} {A : Type} (ok : Z * list (string * json) -> bool)
    (m : M A) : Prop :=
  forall s,
    match m s with
    | (Ret _, s') => exists r, sent s' = push (sent s) r /\ ok r = true
    | (Throw _, s') => sent s' = sent s
    end.

Definition sent_of `{Registry} (s : State) := sent s.
Definition locals_of `{Registry} (s : State) := locals s.
Definition metrics_of `{Registry} (s : State) := Process.metrics (process s).
Definition files_of `{Registry} (s : State) := Process.files (process s).
Definition limiter_of `{Registry} (s : State) := Process.rateLimiter (process s).
Definition agentName_of `{Registry} (s : State) := Locals.agentName (locals s).
Definition log_of `{Registry} (s : State) := access_log (files_of s).

(** The state with the rate limiter's windows replaced. *)
Definition with_limiter `{Registry} (w : gmap string (list Z)) (s : State) : State :=
  {| process := set_rateLimiter w (process s); locals := locals s;
     sent := sent s; ticks := ticks s |}.

(** The request is for the main agent endpoint. *)
Definition agent_route (req : Request) : bool :=
  String.eqb (method req) "POST" && String.eqb (url req) "/v1/agent".

(** A POST /v1/verify request. *)
Definition verify_request (address : option string) (body : list string)
    (error : option JsError) : Request :=
  {| method := "POST"; url := "/v1/verify"; remoteAddress := address;
     chunks := body; stream_error := error |}.

(** The policy with every [allowed_intents] list and every rate limit
    taken out. *)
Definition relax_agent (a : AgentPolicy) : AgentPolicy :=
  {| description := description a;
     allowed_intents := None;
     allowed_providers := allowed_providers a;
     default_provider := default_provider a;
     fallback_chain := fallback_chain a;
     max_input_bytes := max_input_bytes a;
     rate_limit_per_minute := None;
     intent_routes := intent_routes a |}.

Definition relax_policy (p : Policy) : Policy :=
  {| global := None;
     agents := match agents p with
               | Some table => Some (relax_agent <$> table)
               | None => None
               end |}.

Definition with_policy_file (file : outcome (option Policy)) (env : Env) : Env :=
  {| clock := clock env; request_uuid := request_uuid env;
     verify_uuid := verify_uuid env; process_uptime := process_uptime env;
     policy_file := file; prompts_file := prompts_file env;
     worlds_feed := worlds_feed env; memory_mkdir_ok := memory_mkdir_ok env;
     journal_append_ok := journal_append_ok env;
     log_append_error := log_append_error env |}.

Definition relaxed (env : Env) : Env :=
  with_policy_file
    match policy_file env with
    | Ret p => Ret (relax_policy <$> p)
    | Throw e => Throw e
    end env.

(** ** Worked examples: inputs *)

(** Upstream services that answer every call with [text]. *)
Definition answering (text : string) : Registry :=
  Providers.registry unit (fun _ _ w => (Ret text, w)).

(** Upstream services that refuse every call, each adapter with a message
    of its own. *)
Definition adapter_error (a : Providers.adapter) : string :=
  match a with
  | Providers.ollama => "fetch failed"
  | Providers.openai => "OpenAI error 401"
  | Providers.anthropic => "Anthropic error 401"
  | Providers.gemini => "Gemini error 403"
  | Providers.deepseek | Providers.groq => "fallback.invoke is not a function"
  end.

Definition refusing : Registry :=
  Providers.registry unit (fun a _ w => (Throw (Error (adapter_error a)), w)).

Definition example_args : InvokeArgs :=
  {| arg_input := "hi"; arg_system := ""; arg_context := JObj [];
     arg_requestId := "r-1"; arg_agent := "planner"; arg_intent := "analyze" |}.

(** The body [{"agent":"planner","intent":"analyze","input":"hi"}]. *)
Definition planner_body : string :=
  "{" ++ quoted "agent" ++ ":" ++ quoted "planner" ++ ","
  ++ quoted "intent" ++ ":" ++ quoted "analyze" ++ ","
  ++ quoted "input" ++ ":" ++ quoted "hi" ++ "}".

Definition planner_payload : json :=
  JObj [("agent", JStr "planner"); ("intent", JStr "analyze"); ("input", JStr "hi")].

(** The model output [{"verdict":"false","confidence":0.9} (see {notes})]:
    a JSON object followed by prose that holds braces of its own. *)
Definition verdict_text : string :=
  "{" ++ quoted "verdict" ++ ":" ++ quoted "false" ++ ","
  ++ quoted "confidence" ++ ":0.9}".

Definition verdict_object : json :=
  JObj [("verdict", JStr "false"); ("confidence", JNum (Finite (9 # 10)))].

Definition chatty_output : string := verdict_text ++ " (see {notes})".

(** The body [{"claim":"the sky is green"}] of a verify request. *)
Definition sky_body : string :=
  "{" ++ quoted "claim" ++ ":" ++ quoted "the sky is green" ++ "}".

Definition sky_payload : json := JObj [("claim", JStr "the sky is green")].

(** The body [{"agent":"constructor","intent":"analyze","input":"hi"}]:
    a request for an agent that no policy lists and every object answers
    to. *)
Definition constructor_body : string :=
  "{" ++ quoted "agent" ++ ":" ++ quoted "constructor" ++ ","
  ++ quoted "intent" ++ ":" ++ quoted "analyze" ++ ","
  ++ quoted "input" ++ ":" ++ quoted "hi" ++ "}".

Definition constructor_payload : json :=
  JObj [("agent", JStr "constructor"); ("intent", JStr "analyze"); ("input", JStr "hi")].

(** [JSON.parse] on the texts of the examples: the four texts above are
    JSON texts of the objects given, and [chatty_output] from its first to
    its last brace is not a JSON text. *)
Definition example_parse (text : string) : option json :=
  if String.eqb text planner_body then Some planner_payload
  else if String.eqb text verdict_text then Some verdict_object
  else if String.eqb text sky_body then Some sky_payload
  else if String.eqb text constructor_body then Some constructor_payload
  else None.

(** The text Node gives for a member of [Object.prototype]. *)
Definition node_member_text (member : string) : string :=
  if String.eqb member "__proto__" then "[object Object]"
  else "function "
       ++ (if String.eqb member "constructor" then "Object" else member)
       ++ "() { [native code] }".

(** A runtime for the examples.  Their chunks are ASCII text, which
    decodes to itself; no result below depends on the built-ins other than
    [JSON.parse], the decoding of a chunk and the text of an inherited
    member. *)
Definition example_runtime : Runtime :=
  {| JSON_parse := example_parse;
     JSON_stringify := fun _ => "{}";
     ToString := fun _ => "";
     ToNumber := fun _ => None;
     trim := fun s => s;
     toISOString := fun _ => "1970-01-01T00:00:00.000Z";
     sha256_hex16 := fun _ => "0000000000000000";
     parse_url := fun u => Ret (u, None);
     parseInt := fun _ => None;
     Buffer_toString := fun chunk => chunk;
     member_text := node_member_text |}.

Definition example_config : Config := {| maxBodyBytes := 1048576; allowRemote := false |}.

Definition planner_policy (own_limit : option Z) : AgentPolicy :=
  {| description := None;
     allowed_intents := Some ["analyze"];
     allowed_providers := Some ["ollama"; "openai"];
     default_provider := Some "ollama";
     fallback_chain := Some ["openai"];
     max_input_bytes := Some 65536;
     rate_limit_per_minute := own_limit;
     intent_routes := None |}.

(** A policy whose global limit is [global_limit] requests per minute and
    whose only agent, [planner], states [own_limit]. *)
Definition example_policy (global_limit : Z) (own_limit : option Z) : Policy :=
  {| global := Some {| global_rate_limit_per_minute := Some global_limit |};
     agents := Some (<["planner" := planner_policy own_limit]> ∅) |}.

(** A policy that knows the agent [prism] of the verify endpoint. *)
Definition prism_policy : Policy :=
  {| global := None;
     agents := Some (<["prism" := planner_policy None]> ∅) |}.

Definition example_env (policy : Policy) (start : Z) : Env :=
  {| clock := fun n => start + Z.of_nat n;
     request_uuid := "00000000-0000-4000-8000-000000000000";
     verify_uuid := "00000000-0000-4000-8000-000000000001";
     process_uptime := num_of_Z 1;
     policy_file := Ret (Some policy);
     prompts_file := Ret None;
     worlds_feed := Throw (Error "fetch failed");
     memory_mkdir_ok := true;
     journal_append_ok := true;
     log_append_error := None |}.

Definition local_request (method url body : string) : Request :=
  {| method := method; url := url; remoteAddress := Some "127.0.0.1";
     chunks := [body]; stream_error := None |}.

Definition fresh_process (R : Registry) (w : @World R) : @Process.t R :=
  {| Process.rateLimiter := RateLimiter.empty;
     Process.metrics := Metrics.initial 0;
     Process.memory := new_memory;
     Process.files := {| journal_file := None; context_file := None; access_log := [] |};
     Process.upstream := w |}.

(** The state in which the [finally] block of a request starts. *)
Definition before_finally `{Runtime} `{Registry} (cfg : Config) (env : Env)
    (req : Request) (p : Process.t) : State :=
  snd (try_catch (routes cfg env req (request_uuid env) (clock env O))
                 (catch_block env (request_uuid env) (clock env O))
         {| process := p; locals := Locals.initial; sent := []; ticks := 1%nat |}).

(** Two requests by [planner], one second apart, under a policy whose
    global limit is one request per minute and in which [planner] sets
    [rate_limit_per_minute] to 0. *)
Definition planner_twice : list (Env * Request) :=
  [ (example_env (example_policy 1 (Some 0)) 1000,
     local_request "POST" "/v1/agent" planner_body);
    (example_env (example_policy 1 (Some 0)) 2000,
     local_request "POST" "/v1/agent" planner_body) ].

(** ** The request body, as a whole *)

(** The bytes of a body that arrives as [chunks], and its text: what the
    chunks decode to, one after the other. *)
Definition body_bytes (chunks : list string) : Z :=
  fold_right (fun chunk n => Z.of_nat (String.length chunk) + n) 0 chunks.

Definition body_text `{Runtime} (chunks : list string) : string :=
  fold_right (fun chunk text => Buffer_toString chunk ++ text) "" chunks.

(** The bytes received, one chunk after the other. *)
Definition received (chunks : list string) : string :=
  fold_right String.append "" chunks.

(** ** A primary provider that gives no result *)

(** The primary gives no result: its name is unknown to the registry, or
    its call throws, taking the upstream state from [w] to [w']. *)
Definition primary_fails `{Registry} (primaryProvider : string) (invokeArgs : InvokeArgs)
    (w w' : World) : Prop :=
  match getProvider primaryProvider with
  | Some primary => exists err, invoke primary invokeArgs w = (Throw err, w')
  | None => w' = w
  end.

(** ** The window of the last minute *)

(** Clock readings that never go back. *)
Fixpoint nondecreasing (times : list Z) : Prop :=
  match times with
  | [] => True
  | t :: rest => Forall (fun u => t <= u) rest /\ nondecreasing rest
  end.

(** The timestamps of [times] that a window of 60 seconds ending at [now]
    still holds. *)
Definition in_last_minute (now : Z) (times : list Z) : list Z :=
  List.filter (fun t => now - 60000 <=? t) times.

(** ** Counters over a series of requests *)

(** The sum of the counters of a table. *)
Definition counter_total (counters : gmap string Z) : Z :=
  fold_right Z.add 0 (map snd (map_to_list counters)).

(** The process state after a series of requests. *)
Definition state_after `{Registry} (served : list Served) (p : Process.t) : Process.t :=
  match last served with
  | Some s => after s
  | None => p
  end.

(** ** Disciplines

    A discipline says what a handler computation is allowed to do: [drift]
    relates the state before to the state after any part of it, [answer]
    the state before and after to the response it writes.  [footprint] is
    the part of the state on which [drift] depends. *)
Record Discipline `{Registry} := {
  footprint_of : Type;
  footprint : State -> footprint_of;
  drift : State -> State -> Prop;
  answer : State -> State -> Z * list (string * json) -> Prop
}.

(** The laws of a discipline: a step that leaves the footprint alone is
    within the drift, drifts compose, and what holds of a response after a
    drift holds of it from the start. *)
Class Lawful `{Registry} (D : Discipline) : Prop := {
  drift_frame : forall s s', footprint D s' = footprint D s -> drift D s s';
  drift_trans : forall s1 s2 s3, drift D s1 s2 -> drift D s2 s3 -> drift D s1 s3;
  answer_after : forall s1 s2 s3 r, drift D s1 s2 -> answer D s2 s3 r -> answer D s1 s3 r
}.

(** [m] stays within the drift of [D]. *)
Definition calm `{Registry} (D : Discipline) {A : Type} (m : M A) : Prop :=
  forall s, drift D s (snd (m s)).

(** [m] writes one response when it returns, in keeping with [D], and
    none when it throws, within the drift of [D]. *)
Definition settles `{Registry} (D : Discipline) {A : Type} (m : M A) : Prop :=
  forall s,
    match m s with
    | (Ret _, s') => exists r, sent s' = push (sent s) r /\ answer D s s' r
    | (Throw _, s') => sent s' = sent s /\ drift D s s'
    end.

Definition upstream_of `{Registry} (s : State) := Process.upstream (process s).

(** ** Further properties of responses *)

(** The state in which the [try] block of a request starts. *)
Definition request_start `{Registry} (p : Process.t) : State :=
  {| process := p; locals := Locals.initial; sent := []; ticks := 1%nat |}.

(** The status code is 200 exactly when the envelope's status is "ok",
    and the status is "error" otherwise. *)
Definition code_matches_status (r : Z * list (string * json)) : bool :=
  if fst r =? 200 then field_is "status" "ok" (snd r)
  else field_is "status" "error" (snd r).

(** The envelope carries the request id. *)
Definition traced (requestId : string) (r : Z * list (string * json)) : bool :=
  field_is "request_id" requestId (snd r).

(** The handler's [status] is the status of the response it wrote. *)
Definition reports_status `{Registry} : Discipline :=
  {| footprint_of := unit;
     footprint := fun _ => tt;
     drift := fun _ _ => True;
     answer := fun _ s' r =>
       field_is "status" (Locals.status (locals s')) (snd r) = true |}.

(** ** Quota and admission *)

(** No window of [w'] holds more timestamps than it does in [w]. *)
Definition no_growth (w w' : gmap string (list Z)) : Prop :=
  forall agent,
    (length (RateLimiter.entries_of agent w') <= length (RateLimiter.entries_of agent w))%nat.

(** Quota is spent by a 200 response only. *)
Definition spends_quota `{Registry} : Discipline :=
  {| footprint_of := gmap string (list Z);
     footprint := limiter_of;
     drift := fun s s' => no_growth (limiter_of s) (limiter_of s');
     answer := fun s s' r =>
       fst r <> 200 -> no_growth (limiter_of s) (limiter_of s') |}.

(** The gates of POST /v1/agent that come before the rate limit let the
    request through: the client may connect, the body is read and parses
    to [payload], the payload is valid, [policy] knows the agent as
    [agentPolicy] and allows the intent, and the input is within the
    agent's byte budget. *)
Definition screened `{Runtime} (cfg : Config) (env : Env) (req : Request)
    (payload : json) (policy : Policy) (agentPolicy : AgentPolicy) : Prop :=
  remote_denied cfg req = false
  /\ exists body table,
       readBody req (maxBodyBytes cfg) = Ret body
       /\ JSON_parse body = Some payload
       /\ validateRequest payload = None
       /\ policy_file env = Ret (Some policy)
       /\ agents policy = Some table
       /\ table !! str_field "agent" payload = Some agentPolicy
       /\ (exists intents,
             allowed_intents agentPolicy = Some intents
             /\ str_in (str_field "intent" payload) intents = true)
       /\ (forall budget,
             max_input_bytes agentPolicy = Some budget -> budget <> 0 ->
             Z.of_nat (String.length (str_field "input" payload)) <= budget).

(** Every gate of POST /v1/agent lets the request through: it is
    screened, a provider is picked, and the policy allows that provider. *)
Definition admitted `{Runtime} (cfg : Config) (env : Env) (req : Request) : Prop :=
  exists payload policy agentPolicy providerName,
    screened cfg env req payload policy agentPolicy
    /\ pickProvider (jprop "provider" payload) agentPolicy
         (str_field "intent" payload) = Some providerName
    /\ (forall names,
          allowed_providers agentPolicy = Some names ->
          exists name, providerName = Data (JStr name) /\ str_in name names = true).

(** A provider is reached, and 200 answered, only with [admitted]. *)
Definition gatekeeper `{Registry} (admitted : Prop) : Discipline :=
  {| footprint_of := World;
     footprint := upstream_of;
     drift := fun s s' => admitted \/ upstream_of s' = upstream_of s;
     answer := fun s s' r =>
       (fst r = 200 -> admitted) /\ (admitted \/ upstream_of s' = upstream_of s) |}.

(** A POST /v1/verify request. *)
Definition verify_route (req : Request) : bool :=
  String.eqb (method req) "POST" && String.eqb (url req) "/v1/verify".

(** The routes that answer loopback clients only, unless [allowRemote] is
    set: GET /metrics, /v1/agents, /v1/memory..., /v1/providers and
    POST /v1/agent. *)
Definition loopback_only (req : Request) : bool :=
  String.eqb (method req) "GET"
  && (String.eqb (url req) "/metrics" || String.eqb (url req) "/v1/agents"
      || startsWith "/v1/memory" (url req) || String.eqb (url req) "/v1/providers")
  || agent_route req.

(** The claim of a verify request, read as the handler reads it. *)
Definition claim_of `{Runtime} (req : Request) : string :=
  match readBody req 65536 with
  | Ret body =>
      match JSON_parse body with
      | Some verPayload => str_field "claim" verPayload
      | None => ""
      end
  | Throw _ => ""
  end.

(** A discipline that constrains the response alone. *)
Definition answers `{Registry} (P : Z * list (string * json) -> Prop) : Discipline :=
  {| footprint_of := unit;
     footprint := fun _ => tt;
     drift := fun _ _ => True;
     answer := fun _ _ r => P r |}.

(** ** What a response relays

    [m] writes one response when it returns and none when it throws.  When
    the response is a 200, [m] has called the dispatcher, on the providers
    as it found them and leaving them as the call left them, and [P] holds
    of the result of the call and the payload. *)
Definition relays `{Registry} (P : DispatchResult -> list (string * json) -> Prop)
    {A : Type} (m : M A) : Prop :=
  forall s,
    match m s with
    | (Ret _, s') =>
        exists r,
          sent s' = push (sent s) r
          /\ (fst r = 200 ->
              exists name chain invokeArgs result,
                invokeWithFallback name chain invokeArgs (upstream_of s)
                = (Ret result, upstream_of s')
                /\ P result (snd r))
    | (Throw _, s') => sent s' = sent s
    end.

(** The payload carries the verdict, confidence, reasoning and flags that
    the verify route reads off the output of [result]. *)
Definition carries_verdict `{Runtime} (result : DispatchResult)
    (payload : list (string * json)) : Prop :=
  let v := parse_verdict (output result) in
  assoc "verdict" payload = Some (JStr (verdict v))
  /\ assoc "confidence" payload = Some (JNum (confidence v))
  /\ assoc "reasoning" payload = Some (JStr (reasoning v))
  /\ assoc "flags" payload = Some (JArr (flags v)).

(** The status code is not 200. *)
Definition not_ok (r : Z * list (string * json)) : bool := negb (fst r =? 200).

(** A 200 response names [agent] as the agent used. *)
Definition used_agent (agent : string) (r : Z * list (string * json)) : Prop :=
  fst r = 200 -> assoc "agent_used" (snd r) = Some (JStr agent).

(** ** The journal *)

(** The record [memory.record] builds for [entry] at [now] when the last
    hash is [prev] (memory.js, 748-753). *)
Definition journal_record `{Runtime} (now : Z) (prev : string)
    (entry : list (string * json)) : list (string * json) :=
  let record0 := spread [("ts", JStr (toISOString now)); ("prev", JStr prev)] entry in
  assoc_set "hash" (JStr (sha256_hex16 (prev ++ JSON_stringify (JObj record0)))) record0.

Definition memory_of `{Registry} (s : State) := Process.memory (process s).
Definition journal_of `{Registry} (s : State) := journal_file (Process.files (process s)).

(** ** Configuration (server.js, 10-17, 116-141, 278-282)

    A configuration object, each property being any value or undefined
    ([None]). *)
Module Settings.
Record t := {
  bind : option json;
  port : option json;
  policyPath : option json;
  promptPath : option json;
  logPath : option json;
  maxBodyBytes : option json;
  allowRemote : option json
}.
End Settings.

(** [a || b] *)
Definition or_else (a b : option json) : option json :=
  if truthy_opt a then a else b.

(** [Number.isFinite(v)] *)
Definition isFinite (v : option json) : bool :=
  match v with
  | Some (JNum (Finite _)) => true
  | _ => false
  end.

(** [typeof v === 'boolean'] *)
Definition is_boolean (v : option json) : bool :=
  match v with
  | Some (JBool _) => true
  | _ => false
  end.

Definition mergeConfig (base extra : Settings.t) : Settings.t :=
  {| Settings.bind := or_else (Settings.bind extra) (Settings.bind base);
     Settings.port := if isFinite (Settings.port extra) then Settings.port extra
                      else Settings.port base;
     Settings.policyPath := or_else (Settings.policyPath extra) (Settings.policyPath base);
     Settings.promptPath := or_else (Settings.promptPath extra) (Settings.promptPath base);
     Settings.logPath := or_else (Settings.logPath extra) (Settings.logPath base);
     Settings.maxBodyBytes :=
       if isFinite (Settings.maxBodyBytes extra) then Settings.maxBodyBytes extra
       else Settings.maxBodyBytes base;
     Settings.allowRemote :=
       if is_boolean (Settings.allowRemote extra) then Settings.allowRemote extra
       else Settings.allowRemote base |}.

(** [env.NAME || undefined] *)
Definition env_string (env : gmap string string) (name : string) : option json :=
  match env !! name with
  | Some s => if String.eqb s "" then None else Some (JStr s)
  | None => None
  end.

(** [env.NAME ? Number(env.NAME) : undefined].  [Number] is the built-in
    conversion, [None] for NaN; NaN is not a [json] number and is written
    like undefined here: [Number.isFinite], the one reader of these
    properties, is false on both. *)
Definition env_number (Number : string -> option number) (env : gmap string string)
    (name : string) : option json :=
  match env !! name with
  | Some s => if String.eqb s "" then None else JNum <$> Number s
  | None => None
  end.

Definition readEnvConfig (Number : string -> option number) (env : gmap string string)
  : Settings.t :=
  {| Settings.bind := env_string env "BLACKROAD_GATEWAY_BIND";
     Settings.port := env_number Number env "BLACKROAD_GATEWAY_PORT";
     Settings.policyPath := env_string env "BLACKROAD_GATEWAY_POLICY_PATH";
     Settings.promptPath := env_string env "BLACKROAD_GATEWAY_PROMPT_PATH";
     Settings.logPath := env_string env "BLACKROAD_GATEWAY_LOG_PATH";
     Settings.maxBodyBytes := env_number Number env "BLACKROAD_GATEWAY_MAX_BODY_BYTES";
     Settings.allowRemote :=
       Some (JBool (bool_decide (env !! "BLACKROAD_GATEWAY_ALLOW_REMOTE" = Some "true"))) |}.

(** [DEFAULT_CONFIG], the three paths being what [path.join] makes of the
    directory of the module. *)
Definition DEFAULT_CONFIG (policyPath promptPath logPath : string) : Settings.t :=
  {| Settings.bind := Some (JStr "127.0.0.1");
     Settings.port := Some (JNum (num_of_Z 8787));
     Settings.policyPath := Some (JStr policyPath);
     Settings.promptPath := Some (JStr promptPath);
     Settings.logPath := Some (JStr logPath);
     Settings.maxBodyBytes := Some (JNum (num_of_Z (1024 * 1024)));
     Settings.allowRemote := None |}.

(** The properties [mergeConfig] reads of the configuration file:
    [(await loadJson(configFilePath)) || {}]. *)
Definition fileConfig (loaded : option json) : Settings.t :=
  let file := if truthy_opt loaded then default JNull loaded else JObj [] in
  {| Settings.bind := jprop "bind" file;
     Settings.port := jprop "port" file;
     Settings.policyPath := jprop "policyPath" file;
     Settings.promptPath := jprop "promptPath" file;
     Settings.logPath := jprop "logPath" file;
     Settings.maxBodyBytes := jprop "maxBodyBytes" file;
     Settings.allowRemote := jprop "allowRemote" file |}.

(** [config] of [start()] (server.js, 282). *)
Definition start_config (defaults : Settings.t) (loaded : option json)
    (Number : string -> option number) (env : gmap string string) : Settings.t :=
  mergeConfig defaults (mergeConfig (fileConfig loaded) (readEnvConfig Number env)).

Definition no_settings : Settings.t :=
  {| Settings.bind := None; Settings.port := None; Settings.policyPath := None;
     Settings.promptPath := None; Settings.logPath := None;
     Settings.maxBodyBytes := None; Settings.allowRemote := None |}.

(** The base object of the test suite (tests/gateway.test.js, 196-204). *)
Definition test_base : Settings.t :=
  {| Settings.bind := Some (JStr "127.0.0.1");
     Settings.port := Some (JNum (num_of_Z 8787));
     Settings.policyPath := Some (JStr "/default/policy.json");
     Settings.promptPath := Some (JStr "/default/prompts.json");
     Settings.logPath := Some (JStr "/default/logs/gateway.jsonl");
     Settings.maxBodyBytes := Some (JNum (num_of_Z 1048576));
     Settings.allowRemote := Some (JBool false) |}.

(** ** The Ollama adapter (providers/ollama.js) *)
Module Ollama.

(** What the adapter reads of a fetch response: [ok], [status], and the
    value [response.json()] resolves with ([None] when it rejects). *)
Record Response := {
  ok : bool;
  status : Z;
  json_body : option json
}.

(** The network: [fetch(url, { method: 'POST', body })] answers or
    rejects (no route, time-out), and changes the state of the services
    it reaches. *)
Class Network := {
  Net : Type;
  (** [typeof fetch === 'function'] *)
  fetch_defined : bool;
  fetch : string -> string -> Net -> outcome Response * Net
}.

Definition PI_BRIDGE_URL : string := "http://192.168.4.38:4010".
Definition LOCAL_OLLAMA_URL : string := "http://127.0.0.1:11434".
Definition DEFAULT_BASE_URL : string := PI_BRIDGE_URL.
Definition DEFAULT_MODEL : string := "qwen2.5:3b".

Definition buildPrompt `{Runtime} (system input : string) : string :=
  if negb (String.eqb system "") && negb (String.eqb (trim system) "")
  then system ++ newline ++ newline ++ input
  else input.

(** The statements of the [try] block that follow the fetch. *)
Definition read_answer `{Runtime} (response : Response) : outcome string :=
  match default (JObj []) (json_body response) with
  | JNull =>
      Throw (TypeError
        (if ok response then "Cannot read properties of null (reading 'response')"
         else "Cannot read properties of null (reading 'error')"))
  | data =>
      if negb (ok response) then
        Throw (Error
          (if truthy_opt (jprop "error" data) then to_text (default JNull (jprop "error" data))
           else "Ollama error " ++ ToString (JNum (num_of_Z (status response)))))
      else
        match jprop "response" data with
        | Some (JStr text) => Ret text
        | _ =>
            match jprop "message" data with
            | Some message =>
                if truthy message then
                  match jprop "content" message with
                  | Some (JStr text) => Ret text
                  | _ => Ret ""
                  end
                else Ret ""
            | None => Ret ""
            end
        end
  end.

(** One turn of the loop: the request to [baseUrl] and the reading of its
    answer. *)
Definition attempt `{Runtime} `{Network} (baseUrl body : string) (w : Net)
  : outcome string * Net :=
  match fetch (baseUrl ++ "/api/generate") body w with
  | (Ret response, w') => (read_answer response, w')
  | (Throw err, w') => (Throw err, w')
  end.

(** [for (const baseUrl of urlsToTry) { try { ... } catch (err) { lastError = err } }
    throw lastError || new Error('Ollama unreachable on all endpoints')] *)
Fixpoint try_urls `{Runtime} `{Network} (urlsToTry : list string) (body : string)
    (lastError : option JsError) (w : Net) : outcome string * Net :=
  match urlsToTry with
  | [] => (Throw (default (Error "Ollama unreachable on all endpoints") lastError), w)
  | baseUrl :: rest =>
      match attempt baseUrl body w with
      | (Ret text, w') => (Ret text, w')
      | (Throw err, w') => try_urls rest body (Some err) w'
      end
  end.

Definition urlsToTry (requestedUrl : string) : list string :=
  if negb (String.eqb requestedUrl LOCAL_OLLAMA_URL)
  then [requestedUrl; LOCAL_OLLAMA_URL]
  else [requestedUrl].

(** [process.env.NAME || fallback] *)
Definition env_or (env : gmap string string) (name fallback : string) : string :=
  if str_truthy (env !! name) then default "" (env !! name) else fallback.

Definition request_body `{Runtime} (env : gmap string string) (input system : string)
  : string :=
  JSON_stringify
    (JObj [ ("model", JStr (env_or env "BLACKROAD_OLLAMA_MODEL" DEFAULT_MODEL));
            ("prompt", JStr (buildPrompt system input));
            ("stream", JBool false) ]).

(** [invoke({ input, system })] *)
Definition invoke `{Runtime} `{Network} (env : gmap string string)
    (input system : string) (w : Net) : outcome string * Net :=
  if negb fetch_defined then (Throw (Error "Global fetch is not available"), w)
  else
    try_urls (urlsToTry (env_or env "BLACKROAD_OLLAMA_URL" DEFAULT_BASE_URL))
      (request_body env input system) None w.

End Ollama.

(** The status code is not 429. *)
Definition not_limited (r : Z * list (string * json)) : bool := negb (fst r =? 429).

(** ** The call to the dispatcher *)

(** The arguments POST /v1/agent hands to the dispatcher
    (server.js, 574-583). *)
Definition agent_args `{Runtime} (requestId : string) (payload : json)
    (prompts : option Prompts) : InvokeArgs :=
  {| arg_input := str_field "input" payload;
     arg_system :=
       buildSystemPrompt prompts (str_field "agent" payload) (str_field "intent" payload)
         (jprop "context" payload);
     arg_context := if truthy_opt (jprop "context" payload)
                    then opt_json (jprop "context" payload) else JObj [];
     arg_requestId := requestId;
     arg_agent := str_field "agent" payload;
     arg_intent := str_field "intent" payload |}.

(** ** Worked examples: further inputs *)

(** Upstream services of which the local model is down: the Ollama
    adapter throws, every other adapter answers [text]. *)
Definition ollama_down (text : string) : Registry :=
  Providers.registry unit
    (fun a _ w =>
       match a with
       | Providers.ollama => (Throw (Error "fetch failed"), w)
       | _ => (Ret text, w)
       end).

(** A process whose journal holds two lines. *)
Definition journaled_process (R : Registry) (w : @World R) : @Process.t R :=
  {| Process.rateLimiter := RateLimiter.empty;
     Process.metrics := Metrics.initial 0;
     Process.memory := new_memory;
     Process.files := {| journal_file := Some [planner_body; sky_body];
                         context_file := None; access_log := [] |};
     Process.upstream := w |}.

(** A runtime without a global [fetch]. *)
Definition no_fetch : Ollama.Network :=
  {| Ollama.Net := unit;
     Ollama.fetch_defined := false;
     Ollama.fetch := fun _ _ w => (Throw (ReferenceError "fetch is not defined"), w) |}.

(** A network on which no endpoint is reachable. *)
Definition unreachable : Ollama.Network :=
  {| Ollama.Net := unit;
     Ollama.fetch_defined := true;
     Ollama.fetch := fun url _ w => (Throw (Error ("connect ECONNREFUSED " ++ url)), w) |}.

(** * Part II: theorems *)

(** ** pickProvider *)

Lemma str_truthy_true (o : option string) :
  str_truthy o = true <-> exists s, o = Some s /\ s <> "".
Proof.
  destruct o as [s|]; simpl.
  - rewrite negb_true_iff, String.eqb_neq. split.
    + intros Hs. exists s. auto.
    + intros (s' & Heq & Hs). congruence.
  - split; [discriminate | intros (s & Heq & _); discriminate].
Qed.

Lemma str_truthy_some (s : string) : s <> "" -> str_truthy (Some s) = true.
Proof. intros Hs. apply str_truthy_true. eauto. Qed.

Lemma unrouted_spec (policy : AgentPolicy) (intent : string) :
  unrouted policy intent <-> value_truthy_opt (route_of policy intent) = false.
Proof.
  unfold unrouted, route_of. destruct (intent_routes policy) as [routes|]; cbn beta iota.
  - destruct (routes !! intent) as [route|] eqn:Hroute.
    + split.
      * intros Hun. destruct (Hun routes eq_refl) as [Hempty|[Hnone _]];
          rewrite Hroute in *; [|discriminate]. now injection Hempty as ->.
      * simpl. rewrite negb_false_iff, String.eqb_eq. intros -> routes' [= <-]. now left.
    + destruct (inherited intent) eqn:Hintent; simpl.
      * split; [|discriminate]. intros Hun.
        destruct (Hun routes eq_refl) as [Hempty|[_ Hown]];
          [rewrite Hroute in Hempty|]; discriminate.
      * split; [reflexivity|]. intros _ routes' [= <-]. now right.
  - split; [reflexivity | discriminate].
Qed.



(** The five assertions of the test suite (tests/gateway.test.js, 100-128). *)
Example pickProvider_test_suite :
  pickProvider (Some (JStr "openai")) test_policy "analyze" = Some (Data (JStr "openai"))
  /\ pickProvider (Some JNull) test_policy "plan" = Some (Data (JStr "claude"))
  /\ pickProvider (Some JNull) test_policy "analyze" = Some (Data (JStr "ollama"))
  /\ pickProvider (Some JNull) test_policy "unknown" = Some (Data (JStr "ollama"))
  /\ pickProvider (Some JNull) test_policy_no_default "anything" = None.
Proof. repeat split; vm_compute; reflexivity. Qed.

(** What [pickProvider] returns is never falsy, so the handler's
    [!providerName] holds exactly when the result is null. *)
Lemma pickProvider_truthy (requested : option json) (policy : AgentPolicy)
    (intent : string) (p : value) :
  pickProvider requested policy intent = Some p -> value_truthy p = true.
Proof.
  unfold pickProvider.
  destruct (truthy_opt requested) eqn:Hreq.
  - destruct requested as [r|]; [|discriminate]. intros [= <-]. exact Hreq.
  - destruct (value_truthy_opt (route_of policy intent)) eqn:Hroute.
    + intros Heq. rewrite Heq in Hroute. exact Hroute.
    + destruct (str_truthy (default_provider policy)) eqn:Hdef; [|discriminate].
      destruct (default_provider policy) as [d|]; [|discriminate].
      intros [= <-]. exact Hdef.
Qed.

(** ** Rate limiter *)
Module RateLimiterFacts.
Import RateLimiter.

Lemma shift_while_keeps (cutoff : Z) (entries : list Z) :
  Forall (fun e => cutoff <= e) entries -> shift_while cutoff entries = entries.
Proof.
  intros Hall. destruct Hall as [|e rest He _]; simpl; [reflexivity|].
  destruct (Z.ltb_spec e cutoff); [lia | reflexivity].
Qed.

Lemma prune_in_window (start now : Z) (entries : list Z) :
  now <= start + 60000 -> Forall (fun e => start <= e) entries ->
  _prune now entries 60000 = entries.
Proof.
  intros Hnow Hall. apply shift_while_keeps.
  eapply Forall_impl; [exact Hall|]. simpl. intros e He. lia.
Qed.

Lemma entries_ensure (a agent : string) (w : gmap string (list Z)) :
  entries_of agent (ensure a w) = entries_of agent w.
Proof.
  unfold entries_of, ensure. destruct (w !! a) eqn:Ha; [reflexivity|].
  destruct (decide (a = agent)) as [->|Hne].
  - now rewrite lookup_insert_eq, Ha.
  - now rewrite lookup_insert_ne.
Qed.

Lemma entries_insert (a agent : string) (l : list Z) (w : gmap string (list Z)) :
  entries_of agent (<[a := l]> w) = if String.eqb a agent then l else entries_of agent w.
Proof.
  unfold entries_of. destruct (String.eqb_spec a agent) as [->|Hne].
  - now rewrite lookup_insert_eq.
  - now rewrite lookup_insert_ne.
Qed.

(** Inside one window no call removes a timestamp: the array of an agent
    is what it was at the start, followed by what was recorded since. *)
Lemma run_entries (start : Z) (agent : string) (calls : list call) :
  forall w,
    within_window start (map time_of calls) ->
    Forall (fun e => start <= e) (entries_of agent w) ->
    entries_of agent (run calls w) = (entries_of agent w ++ recorded agent calls)%list.
Proof.
  unfold within_window.
  induction calls as [|c calls IH]; intros w Hwin Hold; simpl.
  - now rewrite app_nil_r.
  - apply Forall_cons in Hwin as [Hc Hwin].
    destruct c as [t a | t a limit | t a]; simpl in *.
    + (* record *)
      assert (Hstep : entries_of agent (record t a w)
                      = if String.eqb a agent then push (entries_of agent w) t
                        else entries_of agent w).
      { unfold record. rewrite entries_insert.
        destruct (String.eqb_spec a agent) as [->|]; [|apply entries_ensure].
        f_equal. apply entries_ensure. }
      rewrite IH; [|exact Hwin|].
      * rewrite Hstep. destruct (String.eqb a agent); [|reflexivity].
        unfold push. now rewrite <- app_assoc.
      * rewrite Hstep. destruct (String.eqb a agent); [|exact Hold].
        unfold push. apply Forall_app. split; [exact Hold|].
        constructor; [lia | constructor].
    + (* check *)
      assert (Hstep : entries_of agent (snd (check t a limit w)) = entries_of agent w).
      { unfold check. destruct ((limit =? 0) || (limit <=? 0)); [reflexivity|].
        simpl. rewrite entries_insert.
        destruct (String.eqb_spec a agent) as [->|]; [|apply entries_ensure].
        fold (entries_of agent (ensure agent w)). rewrite entries_ensure.
        apply (prune_in_window start); [lia | exact Hold]. }
      rewrite IH; [|exact Hwin|]; rewrite Hstep; [reflexivity | exact Hold].
    + (* getUsage *)
      assert (Hstep : entries_of agent (snd (getUsage t a w)) = entries_of agent w).
      { unfold getUsage. destruct (w !! a) as [entries0|] eqn:Ha; [|reflexivity].
        simpl. rewrite entries_insert.
        destruct (String.eqb_spec a agent) as [->|]; [|reflexivity].
        assert (Heq : entries_of agent w = entries0).
        { unfold entries_of. now rewrite Ha. }
        rewrite Heq. apply (prune_in_window start); [lia|]. now rewrite <- Heq. }
      rewrite IH; [|exact Hwin|]; rewrite Hstep; [reflexivity | exact Hold].
Qed.

(** C6: for any sequence of calls on a fresh limiter whose clock readings
    all lie in one window of 60 seconds, [getUsage] for an agent is the
    number of [record] calls made for it, [check] with a positive limit
    holds exactly when that usage is below the limit, and [check] with
    limit 0 holds whatever was recorded. *)
Theorem usage_counts_records (start now : Z) (agent : string) (calls : list call) :
  within_window start (now :: map time_of calls) ->
  let w := run calls RateLimiter.empty in
  let usage := Z.of_nat (length (recorded agent calls)) in
  fst (getUsage now agent w) = usage
  /\ (forall limit, 0 < limit ->
        (fst (check now agent limit w) = true <-> usage < limit))
  /\ fst (check now agent 0 w) = true.
Proof.
  intros Hwin w usage. unfold within_window in Hwin.
  apply Forall_cons in Hwin as [Hnow Hwin].
  assert (Hentries : entries_of agent w = recorded agent calls).
  { unfold w. rewrite (run_entries start); [reflexivity | exact Hwin |].
    unfold entries_of, RateLimiter.empty. rewrite lookup_empty. constructor. }
  assert (Hfresh : Forall (fun e => start <= e) (entries_of agent w)).
  { unfold w. rewrite (run_entries start); [| exact Hwin |].
    - unfold entries_of at 1, RateLimiter.empty. rewrite lookup_empty. simpl.
      clear -Hwin. induction calls as [|c calls IH]; simpl; [constructor|].
      simpl in Hwin. apply Forall_cons in Hwin as [Hc Hwin].
      destruct c as [t a | |]; simpl in *; auto.
      destruct (String.eqb a agent); auto. constructor; [lia | auto].
    - unfold entries_of, RateLimiter.empty. rewrite lookup_empty. constructor. }
  repeat split.
  - unfold getUsage. unfold entries_of in Hentries, Hfresh.
    destruct (w !! agent) as [entries0|]; simpl in *.
    + rewrite (prune_in_window start); [| lia | exact Hfresh].
      unfold usage. now rewrite Hentries.
    + unfold usage. now rewrite <- Hentries.
  - unfold check. destruct (Z.eqb_spec limit 0); [lia|].
    destruct (Z.leb_spec limit 0); [lia|]. simpl.
    fold (entries_of agent (ensure agent w)). rewrite entries_ensure.
    rewrite (prune_in_window start); [| lia | exact Hfresh].
    rewrite Hentries. fold usage. intros Hlt. now apply Z.ltb_lt.
  - unfold check. destruct (Z.eqb_spec limit 0); [lia|].
    destruct (Z.leb_spec limit 0); [lia|]. simpl.
    fold (entries_of agent (ensure agent w)). rewrite entries_ensure.
    rewrite (prune_in_window start); [| lia | exact Hfresh].
    rewrite Hentries. fold usage. intros Hlt. now apply Z.ltb_lt.
Qed.

Lemma usage_counts_records_witness :
  within_window 0 (9 :: map time_of test_suite_calls)
  /\ (fst (getUsage 9 "test-agent" (run test_suite_calls RateLimiter.empty))
        = Z.of_nat (length (recorded "test-agent" test_suite_calls))
      /\ (forall limit, 0 < limit ->
            (fst (check 9 "test-agent" limit (run test_suite_calls RateLimiter.empty)) = true
             <-> Z.of_nat (length (recorded "test-agent" test_suite_calls)) < limit))
      /\ fst (check 9 "test-agent" 0 (run test_suite_calls RateLimiter.empty)) = true).
Proof.
  assert (Hwin : within_window 0 (9 :: map time_of test_suite_calls)).
  { unfold within_window. simpl. repeat (apply List.Forall_cons; [lia|]).
    apply List.Forall_nil. }
  split; [exact Hwin|].
  exact (usage_counts_records 0 9 "test-agent" test_suite_calls Hwin).
Defined.

(** The assertions of the test suite (tests/gateway.test.js, 173-189). *)
Example rate_limiter_test_suite :
  let after3 := run (take 5 test_suite_calls) RateLimiter.empty in
  let after5 := run test_suite_calls RateLimiter.empty in
  fst (check 0 "test-agent" 5 RateLimiter.empty) = true
  /\ fst (getUsage 1 "test-agent" (run (take 1 test_suite_calls) RateLimiter.empty)) = 0
  /\ fst (getUsage 5 "test-agent" after3) = 3
  /\ fst (check 6 "test-agent" 5 after3) = true
  /\ fst (getUsage 9 "test-agent" after5) = 5
  /\ fst (check 9 "test-agent" 5 after5) = false
  /\ fst (check 9 "test-agent" 0 after5) = true
  /\ fst (check 9 "other-agent" 10 after5) = true.
Proof. vm_compute. repeat split. Qed.

End RateLimiterFacts.

(** ** Dispatcher *)
Section DispatcherFacts.
Context `{RG : Registry}.
Implicit Types (primary name : string) (chain : list string) (args : InvokeArgs).

Lemma attempted_cons primary name chain :
  attempted primary (name :: chain) =
    if negb (String.eqb name primary) && bool_decide (is_Some (getProvider name))
    then name :: attempted primary chain
    else attempted primary chain.
Proof. reflexivity. Qed.

(** When every call of the loop throws, the loop ends in the composite
    error over the entries pushed before and during it. *)
Lemma try_fallbacks_all_fail primary args chain :
  forall acc w errors w',
    all_fail args (attempted primary chain) w errors w' ->
    try_fallbacks primary chain args acc w =
      (Throw (Error ("All providers failed: " ++ String.concat "; " (acc ++ errors)%list)), w').
Proof.
  induction chain as [|name rest IH]; intros acc w errors w' Hfail.
  - inversion Hfail; subst. simpl. now rewrite app_nil_r.
  - rewrite attempted_cons in Hfail. simpl.
    destruct (String.eqb name primary); simpl in Hfail; [now apply IH|].
    destruct (getProvider name) as [fb|] eqn:Hfb.
    + rewrite bool_decide_eq_true_2 in Hfail by eauto.
      inversion Hfail as [|? ? fb' err ? w1 errors' ? Hfb' Hinv Hrest]; subst.
      rewrite Hfb in Hfb'. injection Hfb' as <-. rewrite Hinv.
      rewrite (IH _ _ _ _ Hrest). unfold push. now rewrite <- app_assoc.
    + rewrite bool_decide_eq_false_2 in Hfail by (intros [? ?]; discriminate).
      now apply IH.
Qed.

Lemma all_fail_length args names w errors w' :
  all_fail args names w errors w' -> length errors = length names.
Proof. induction 1; simpl; congruence. Qed.

(** C3, as the code has it: when the primary resolves and its call throws,
    the chain is not empty and every fallback called throws too,
    [invokeWithFallback] throws "All providers failed: " followed by one
    entry "name: message" per fallback called, in chain order, joined by
    "; ".  The fallbacks called are the chain entries that differ from the
    primary's name and that the registry knows; the primary's own error is
    not among the entries. *)
Theorem composite_error_lists_fallbacks primary chain args
    (p : Adapter) (err : JsError) (w w1 w2 : World) (errors : list string) :
  getProvider primary = Some p ->
  invoke p args w = (Throw err, w1) ->
  chain <> [] ->
  all_fail args (attempted primary chain) w1 errors w2 ->
  invokeWithFallback primary (Some chain) args w =
    (Throw (Error ("All providers failed: " ++ String.concat "; " errors)), w2)
  /\ length errors = length (attempted primary chain)
  /\ Forall (fun name => String.eqb name primary = false) (attempted primary chain).
Proof.
  intros Hp Hinv Hne Hfail. repeat split.
  - unfold invokeWithFallback, fallback_phase. rewrite Hp, Hinv.
    destruct chain as [|name rest]; [congruence|]. simpl has_fallbacks. cbn [negb default].
    now rewrite (try_fallbacks_all_fail _ _ _ _ _ _ _ Hfail).
  - eapply all_fail_length; eauto.
  - unfold attempted. apply List.Forall_forall. intros name Hin.
    apply filter_In in Hin as [_ Hin]. apply andb_true_iff in Hin as [Hin _].
    now apply negb_true_iff.
Qed.

(** C4: with an absent or empty fallback chain, a primary that resolves and
    whose call throws makes [invokeWithFallback] throw that very error, and
    a primary that does not resolve makes it throw "No provider available";
    the latter is not of the composite form. *)
Theorem no_fallback_no_composite primary (fallbackChain : option (list string)) args
    (w : World) :
  fallbackChain = None \/ fallbackChain = Some [] ->
  (forall p err w',
     getProvider primary = Some p -> invoke p args w = (Throw err, w') ->
     invokeWithFallback primary fallbackChain args w = (Throw err, w'))
  /\ (getProvider primary = None ->
      invokeWithFallback primary fallbackChain args w
        = (Throw (Error "No provider available"), w))
  /\ startsWith "All providers failed" "No provider available" = false.
Proof.
  intros Hchain.
  assert (Hnone : has_fallbacks fallbackChain = false) by (destruct Hchain; subst; reflexivity).
  unfold invokeWithFallback, fallback_phase. rewrite Hnone. repeat split.
  - intros p err w' Hp Hinv. now rewrite Hp, Hinv.
  - intros Hp. now rewrite Hp.
Qed.

End DispatcherFacts.

Lemma composite_error_lists_fallbacks_witness :
  @invokeWithFallback refusing "ollama" (Some ["openai"; "ollama"; "mistral"; "gemini"])
     example_args tt =
    (Throw (Error ("All providers failed: "
                   ++ String.concat "; " ["openai: OpenAI error 401"; "gemini: Gemini error 403"])), tt)
  /\ length ["openai: OpenAI error 401"; "gemini: Gemini error 403"]
     = length (@attempted refusing "ollama" ["openai"; "ollama"; "mistral"; "gemini"])
  /\ Forall (fun name => String.eqb name "ollama" = false)
       (@attempted refusing "ollama" ["openai"; "ollama"; "mistral"; "gemini"]).
Proof.
  apply (@composite_error_lists_fallbacks refusing "ollama"
           ["openai"; "ollama"; "mistral"; "gemini"] example_args
           Providers.ollama (Error "fetch failed") tt tt tt).
  - reflexivity.
  - reflexivity.
  - discriminate.
  - apply (@all_fail_cons refusing example_args "openai" ["gemini"] Providers.openai
             (Error "OpenAI error 401") tt tt ["gemini: Gemini error 403"] tt);
      [reflexivity | reflexivity |].
    apply (@all_fail_cons refusing example_args "gemini" [] Providers.gemini
             (Error "Gemini error 403") tt tt [] tt);
      [reflexivity | reflexivity |].
    apply all_fail_nil.
Defined.

Lemma no_fallback_no_composite_witness :
  (forall p err w',
     @getProvider refusing "ollama" = Some p ->
     @invoke refusing p example_args tt = (Throw err, w') ->
     @invokeWithFallback refusing "ollama" None example_args tt = (Throw err, w'))
  /\ (@getProvider refusing "ollama" = None ->
      @invokeWithFallback refusing "ollama" None example_args tt
        = (Throw (Error "No provider available"), tt))
  /\ startsWith "All providers failed" "No provider available" = false.
Proof.
  apply (@no_fallback_no_composite refusing "ollama" None example_args tt).
  left. reflexivity.
Defined.

(** C3, as stated, fails: ollama is the primary and is called first; it and
    the only fallback both refuse, and the composite error names the
    fallback alone. *)
Lemma composite_error_omits_primary :
  @invoke refusing Providers.ollama example_args tt = (Throw (Error "fetch failed"), tt)
  /\ @invokeWithFallback refusing "ollama" (Some ["openai"]) example_args tt
     = (Throw (Error "All providers failed: openai: OpenAI error 401"), tt)
  /\ includes "ollama" "All providers failed: openai: OpenAI error 401" = false
  /\ includes "fetch failed" "All providers failed: openai: OpenAI error 401" = false.
Proof. repeat split. Qed.

(** ** Structured output of the verify model *)

Lemma from_first_open_app (pre rest : string) :
  occurs "{" pre = false ->
  from_first_open (pre ++ String "{" rest) = Some (String "{" rest).
Proof.
  induction pre as [|c pre IH]; simpl; [reflexivity|].
  intros Hocc. apply orb_false_iff in Hocc as [Hc Hpre].
  rewrite Hc. now apply IH.
Qed.

Lemma from_first_open_split (s t : string) :
  from_first_open s = Some t ->
  exists pre rest, s = pre ++ t /\ t = String "{" rest /\ occurs "{" pre = false.
Proof.
  induction s as [|c s IH]; simpl; [discriminate|].
  destruct (Ascii.eqb_spec c "{") as [->|Hc].
  - intros [= <-]. exists "", s. auto.
  - intros Ht. destruct (IH Ht) as (pre & rest & -> & -> & Hpre).
    exists (String c pre), rest. repeat split. simpl.
    rewrite Hpre. apply Ascii.eqb_neq in Hc. now rewrite Hc.
Qed.

Lemma upto_last_close_none (s : string) :
  occurs "}" s = false -> upto_last_close s = None.
Proof.
  induction s as [|c s IH]; simpl; [reflexivity|].
  intros Hocc. apply orb_false_iff in Hocc as [Hc Hs].
  now rewrite (IH Hs), Hc.
Qed.

Lemma upto_last_close_app (body post : string) :
  occurs "}" post = false ->
  upto_last_close (body ++ String "}" post) = Some (body ++ "}").
Proof.
  intros Hpost. induction body as [|c body IH]; simpl.
  - now rewrite (upto_last_close_none _ Hpost).
  - now rewrite IH.
Qed.

Lemma upto_last_close_split (s t : string) :
  upto_last_close s = Some t ->
  exists body post, s = t ++ post /\ t = body ++ "}" /\ occurs "}" post = false.
Proof.
  revert t. induction s as [|c s IH]; simpl; intros t; [discriminate|].
  destruct (upto_last_close s) as [u|] eqn:Hu.
  - intros [= <-]. destruct (IH u eq_refl) as (body & post & -> & -> & Hpost).
    exists (String c body), post. auto.
  - destruct (Ascii.eqb_spec c "}") as [->|Hc]; [|discriminate].
    intros [= <-]. exists "", s. repeat split.
    clear IH. induction s as [|d s IHs]; simpl in *; [reflexivity|].
    destruct (upto_last_close s); [discriminate|].
    destruct (Ascii.eqb d "}"); [discriminate|]. simpl. now apply IHs.
Qed.

Lemma string_app_assoc (a b c : string) : (a ++ b) ++ c = a ++ b ++ c.
Proof.
  induction a as [|x a IH]; [reflexivity|].
  change (String x ((a ++ b) ++ c) = String x (a ++ b ++ c)). now rewrite IH.
Qed.

(** The match of the pattern: from the first opening brace of the text to
    its last closing brace. *)
Lemma match_braces_spec (raw text : string) :
  match_braces raw = Some text <->
  exists pre mid post,
    raw = pre ++ text ++ post /\ text = "{" ++ mid ++ "}"
    /\ occurs "{" pre = false /\ occurs "}" post = false.
Proof.
  unfold match_braces. split.
  - destruct (from_first_open raw) as [t|] eqn:Ht; [|discriminate].
    intros Hu. destruct (from_first_open_split _ _ Ht) as (pre & rest & -> & -> & Hpre).
    destruct (upto_last_close_split _ _ Hu) as (body & post & Heq & -> & Hpost).
    destruct body as [|c body]; simpl in Heq.
    + discriminate.
    + injection Heq as <- Hrest. exists pre, body, post. rewrite Hrest. auto.
  - intros (pre & mid & post & -> & -> & Hpre & Hpost).
    change (pre ++ ("{" ++ mid ++ "}") ++ post)
      with (pre ++ String "{" ((mid ++ "}") ++ post)).
    rewrite (from_first_open_app _ _ Hpre), string_app_assoc.
    apply (upto_last_close_app (String "{" mid) post Hpost).
Qed.

Lemma Qle_bool_false (a b : Q) : Qle_bool a b = false -> Qle_bool b a = true.
Proof.
  intros Hab. apply Qle_bool_iff. apply Qlt_le_weak. apply Qnot_le_lt.
  intros Hle. apply Qle_bool_iff in Hle. congruence.
Qed.

(** [Math.min(1, Math.max(0, n))] lies between 0 and 1. *)
Lemma clamp_bounds (n : number) :
  num_leb num_zero (Math_min num_one (Math_max num_zero n)) = true
  /\ num_leb (Math_min num_one (Math_max num_zero n)) num_one = true.
Proof.
  destruct n as [|q|]; try (split; reflexivity).
  unfold Math_min, Math_max, num_zero, num_one. simpl.
  destruct (Qle_bool 0 q) eqn:H0; simpl.
  - destruct (Qle_bool 1 q) eqn:H1; simpl; [split; reflexivity|].
    split; [exact H0 | now apply Qle_bool_false].
  - split; reflexivity.
Qed.

Lemma verdict_of_parsed_sound (raw : string) (parsed : json) :
  let v := verdict_of_parsed raw parsed in
  str_in (verdict v) recognized_verdicts = true
  /\ num_leb num_zero (confidence v) = true
  /\ num_leb (confidence v) num_one = true.
Proof.
  unfold verdict_of_parsed. cbn [verdict confidence]. repeat split.
  - destruct (jprop "verdict" parsed) as [[| | |s| |]|]; try reflexivity.
    destruct (str_in s recognized_verdicts) eqn:Hs; [exact Hs | reflexivity].
  - destruct (jprop "confidence" parsed) as [[| |n| | |]|]; try reflexivity.
    apply clamp_bounds.
  - destruct (jprop "confidence" parsed) as [[| |n| | |]|]; try reflexivity.
    apply clamp_bounds.
Qed.

Lemma parse_verdict_with_parsed (extract : string -> option string)
    (parse : string -> option json) (raw text : string) (parsed : json) :
  extract raw = Some text -> parse text = Some parsed ->
  parse_verdict_with extract parse raw = verdict_of_parsed raw parsed.
Proof. unfold parse_verdict_with. intros -> ->. destruct parsed; reflexivity. Qed.

(** How the model output is read: the text extracted, the defaults, and
    the fields taken from a parsed object. *)
Lemma parse_verdict_spec `{RT : Runtime} (raw : string) :
  (forall text,
     match_braces raw = Some text <->
     exists pre mid post,
       raw = pre ++ text ++ post /\ text = "{" ++ mid ++ "}"
       /\ occurs "{" pre = false /\ occurs "}" post = false)
  /\ (match_braces raw = None -> parse_verdict raw = default_verdict raw)
  /\ (forall text, match_braces raw = Some text -> JSON_parse text = None ->
        parse_verdict raw = default_verdict raw)
  /\ (forall text parsed,
        match_braces raw = Some text -> JSON_parse text = Some parsed ->
        let v := parse_verdict raw in
        num_leb num_zero (confidence v) = true
        /\ num_leb (confidence v) num_one = true
        /\ str_in (verdict v) recognized_verdicts = true
        /\ (forall given, jprop "verdict" parsed = Some (JStr given) ->
              verdict v = if str_in given recognized_verdicts then given
                          else "unverified")
        /\ (forall n, jprop "confidence" parsed = Some (JNum n) ->
              confidence v = Math_min num_one (Math_max num_zero n))).
Proof.
  unfold parse_verdict. split; [|split; [|split]].
  - intros text. apply match_braces_spec.
  - unfold parse_verdict_with. intros ->. reflexivity.
  - unfold parse_verdict_with. intros text -> ->. reflexivity.
  - intros text parsed Htext Hparsed.
    rewrite (parse_verdict_with_parsed _ _ _ _ _ Htext Hparsed). cbv zeta.
    destruct (verdict_of_parsed_sound raw parsed) as (Hverdict & Hlow & Hhigh).
    repeat split; try assumption.
    + intros given Hgiven. unfold verdict_of_parsed. cbn [verdict]. now rewrite Hgiven.
    + intros n Hn. unfold verdict_of_parsed. cbn [confidence]. now rewrite Hn.
Qed.

Lemma parse_verdict_sound `{RT : Runtime} (raw : string) :
  str_in (verdict (parse_verdict raw)) recognized_verdicts = true
  /\ num_leb num_zero (confidence (parse_verdict raw)) = true
  /\ num_leb (confidence (parse_verdict raw)) num_one = true.
Proof.
  unfold parse_verdict, parse_verdict_with.
  destruct (match_braces raw) as [text|]; [|repeat split].
  destruct (JSON_parse text) as [parsed|]; [|repeat split].
  destruct parsed; try apply verdict_of_parsed_sound. repeat split.
Qed.

(** ** The request handler *)
Section HandlerFacts.
Context `{RT : Runtime} `{RG : Registry}.

(** *** Frame rules *)

Lemma preserves_ret {X A : Type} (f : State -> X) (a : A) : preserves f (ret a).
Proof. intros s. reflexivity. Qed.

Lemma preserves_throw {X A : Type} (f : State -> X) (e : JsError) :
  preserves f (throw e : M A).
Proof. intros s. reflexivity. Qed.

Lemma preserves_await {X A : Type} (f : State -> X) (o : outcome A) :
  preserves f (await o).
Proof. intros s. reflexivity. Qed.

Lemma preserves_gets {X Y : Type} (f : State -> X) (g : Process.t -> Y) :
  preserves f (gets g).
Proof. intros s. reflexivity. Qed.

Lemma preserves_get_locals {X : Type} (f : State -> X) : preserves f get_locals.
Proof. intros s. reflexivity. Qed.

Lemma preserves_bind {X A B : Type} (f : State -> X) (m : M A) (k : A -> M B) :
  preserves f m -> (forall a, preserves f (k a)) -> preserves f (bind m k).
Proof.
  intros Hm Hk s. unfold bind. specialize (Hm s).
  destruct (m s) as [[a|e] s']; simpl in *; [|exact Hm].
  now rewrite Hk.
Qed.

Lemma preserves_try_catch {X A : Type} (f : State -> X) (body : M A)
    (handler : JsError -> M A) :
  preserves f body -> (forall e, preserves f (handler e)) ->
  preserves f (try_catch body handler).
Proof.
  intros Hm Hk s. unfold try_catch. specialize (Hm s).
  destruct (body s) as [[a|e] s']; simpl in *; [exact Hm|].
  now rewrite Hk.
Qed.

Lemma preserves_try_finally {X A : Type} (f : State -> X) (body : M A)
    (cleanup : M unit) :
  preserves f body -> preserves f cleanup -> preserves f (try_finally body cleanup).
Proof.
  intros Hm Hk s. unfold try_finally. specialize (Hm s).
  destruct (body s) as [r s']. specialize (Hk s').
  destruct (cleanup s') as [[u|e] s'']; simpl in *; congruence.
Qed.

Lemma preserves_mapM {X A B : Type} (f : State -> X) (g : A -> M B) (l : list A) :
  (forall a, preserves f (g a)) -> preserves f (mapM g l).
Proof.
  intros Hg. induction l as [|a l IH]; simpl.
  - apply preserves_ret.
  - apply preserves_bind; [apply Hg|]. intros b.
    apply preserves_bind; [exact IH|]. intros bs. apply preserves_ret.
Qed.

End HandlerFacts.

(** One step of a frame proof: a rule for the head of the computation, a
    case split, a primitive that is checked by unfolding, or the body of a
    handler function. *)
Ltac head_of t :=
  lazymatch t with
  | ?f _ => head_of f
  | _ => t
  end.

Ltac frame_step :=
  lazymatch goal with
  | |- preserves _ (bind _ _) => apply preserves_bind; [|intros ?]
  | |- preserves _ (try_catch _ _) => apply preserves_try_catch; [|intros ?]
  | |- preserves _ (try_finally _ _) => apply preserves_try_finally
  | |- preserves _ (mapM _ _) => apply preserves_mapM; intros ?
  | |- preserves _ (ret _) => apply preserves_ret
  | |- preserves _ (throw _) => apply preserves_throw
  | |- preserves _ (undeclared _) => apply preserves_throw
  | |- preserves _ (await _) => apply preserves_await
  | |- preserves _ (gets _) => apply preserves_gets
  | |- preserves _ get_locals => apply preserves_get_locals
  | |- preserves _ (if ?b then _ else _) => destruct b
  | |- preserves _ (match ?x with _ => _ end) => destruct x
  | |- preserves _ (let _ := _ in _) => cbv zeta
  | |- preserves _ ?m =>
      first [ solve [intros ?; reflexivity]
            | let h := head_of m in progress unfold h ]
  end.

Ltac frame := repeat frame_step.


Lemma assoc_set_same (key : string) (v : json) (fields : list (string * json)) :
  assoc key (assoc_set key v fields) = Some v.
Proof.
  induction fields as [|[k w] rest IH]; simpl.
  - now rewrite String.eqb_refl.
  - destruct (String.eqb k key) eqn:Hk; simpl; now rewrite Hk.
Qed.

Lemma field_is_assoc (key value : string) (payload : list (string * json)) :
  field_is key value payload = true -> assoc key payload = Some (JStr value).
Proof.
  unfold field_is. destruct (assoc key payload) as [[| | |s| |]|]; try discriminate.
  intros Hs. apply String.eqb_eq in Hs. now subst.
Qed.

(** An error envelope that reaches [send] without a string [output]
    leaves with the empty string as [output]. *)
Lemma with_error_output_ok (code : Z) (payload : list (string * json)) :
  (field_is "status" "error" payload = true ->
   is_string (assoc "output" payload) = false) ->
  error_output_empty (code, with_error_output payload) = true.
Proof.
  intros Hpayload. unfold error_output_empty, with_error_output. simpl.
  destruct (field_is "status" "error" payload) eqn:Hstatus; simpl.
  - rewrite (Hpayload eq_refl). simpl.
    unfold field_is at 2. rewrite assoc_set_same. simpl. apply implb_true_r.
  - now rewrite Hstatus.
Qed.

Section Responses.
Context `{RT : Runtime} `{RG : Registry}.
Implicit Type ok : Z * list (string * json) -> bool.

(** *** Responses *)

Lemma responds_send ok code payload :
  ok (code, with_error_output payload) = true -> responds ok (send code payload).
Proof.
  intros Hok s. unfold send, bind, update_locals, write_response. simpl.
  eexists. split; [reflexivity | exact Hok].
Qed.

Lemma responds_throw {A : Type} ok (e : JsError) : responds ok (throw e : M A).
Proof. intros s. reflexivity. Qed.

Lemma responds_bind {A B : Type} ok (m : M A) (k : A -> M B) :
  preserves sent_of m -> (forall a, responds ok (k a)) -> responds ok (bind m k).
Proof.
  intros Hm Hk s. unfold bind. specialize (Hm s). unfold sent_of in Hm.
  destruct (m s) as [[a|e] s']; simpl in *; [|exact Hm].
  specialize (Hk a s'). destruct (k a s') as [[b|e] s'']; now rewrite <- Hm.
Qed.

Lemma responds_try_catch {A : Type} ok (body : M A) (handler : JsError -> M A) :
  responds ok body -> (forall e, responds ok (handler e)) ->
  responds ok (try_catch body handler).
Proof.
  intros Hm Hk s. unfold try_catch. specialize (Hm s).
  destruct (body s) as [[a|e] s']; [exact Hm|].
  specialize (Hk e s'). destruct (handler e s') as [[b|e'] s'']; now rewrite <- Hm.
Qed.

End Responses.

(** The side condition of [responds_send], on a payload the handler
    builds. *)
Ltac payload_ok :=
  first [ reflexivity
        | apply with_error_output_ok;
          let H := fresh in intros H; first [reflexivity | discriminate H] ].

Ltac responds_step :=
  lazymatch goal with
  | |- responds _ (bind _ _) => apply responds_bind; [frame|intros ?]
  | |- responds _ (try_catch _ _) => apply responds_try_catch; [|intros ?]
  | |- responds _ (send _ _) => apply responds_send; payload_ok
  | |- responds _ (throw _) => apply responds_throw
  | |- responds _ (if ?b then _ else _) => destruct b
  | |- responds _ (match ?x with _ => _ end) => destruct x
  | |- responds _ (let _ := _ in _) => cbv zeta
  | |- responds _ ?m => let h := head_of m in progress unfold h
  end.

Ltac responds_tac := repeat responds_step.

(** The cases of the payload that the [catch] block builds. *)
Ltac catch_cases :=
  repeat match goal with
    | |- context [match Locals.providerName ?l with _ => _ end] =>
        destruct (Locals.providerName l)
    | |- context [if value_truthy ?v then _ else _] => destruct (value_truthy v)
    | |- context [match serialized ?v with _ => _ end] => destruct (serialized v)
    end.

Section OneResponse.
Context `{RT : Runtime} `{RG : Registry}.

Lemma routes_respond cfg env req requestId startTime :
  responds error_output_empty (routes cfg env req requestId startTime).
Proof. responds_tac. Qed.

(** The [catch] block returns, having written one response. *)
Lemma catch_block_responds env requestId startTime error s :
  exists s' r,
    catch_block env requestId startTime error s = (Ret tt, s')
    /\ sent s' = push (sent s) r /\ error_output_empty r = true.
Proof.
  unfold catch_block, bind, Date_now, get_locals, update_locals, send, write_response.
  simpl. eexists; eexists. split; [reflexivity|]. split; [reflexivity|].
  destruct (Locals.providerName (locals s)) as [providerName|]; [|reflexivity].
  destruct (value_truthy providerName); [|reflexivity].
  destruct (serialized providerName); reflexivity.
Qed.

Lemma finally_keeps_sent env req requestId :
  preserves sent_of (finally_block env req requestId).
Proof. frame. Qed.

(** The responses of a request are those of the [try] and [catch] blocks. *)
Lemma responses_of_handle cfg env req p :
  responses (handle cfg env req p) =
    sent (snd (try_catch (routes cfg env req (request_uuid env) (clock env O))
                         (catch_block env (request_uuid env) (clock env O))
                {| process := p; locals := Locals.initial; sent := []; ticks := 1%nat |})).
Proof.
  unfold handle, handler, bind, Date_now, try_finally. simpl.
  match goal with |- context [try_catch ?b ?h ?s] => destruct (try_catch b h s) as [r s1] end.
  pose proof (finally_keeps_sent env req (request_uuid env) s1) as Hfin.
  unfold sent_of in Hfin.
  destruct (finally_block env req (request_uuid env) s1) as [[u|e] s2]; exact Hfin.
Qed.

(** C8: for every request the handler writes exactly one response, and a
    response whose status is "error" has the empty string as output. *)
Theorem one_response_per_request (cfg : Config) (env : Env) (req : Request)
    (p : Process.t) :
  exists code payload,
    responses (handle cfg env req p) = [(code, payload)]
    /\ (field_is "status" "error" payload = true ->
        assoc "output" payload = Some (JStr "")).
Proof.
  rewrite responses_of_handle. unfold try_catch.
  match goal with |- context [routes ?c ?e ?r ?i ?t ?s] =>
    pose proof (routes_respond c e r i t s) as Hroutes;
    destruct (routes c e r i t s) as [[u|err] s1]
  end.
  - destruct Hroutes as ([code payload] & Hsent & Hok). exists code, payload.
    split; [exact Hsent|]. intros Hstatus. apply field_is_assoc.
    unfold error_output_empty in Hok. simpl in Hok. now rewrite Hstatus in Hok.
  - destruct (catch_block_responds env (request_uuid env) (clock env O) err s1)
      as (s2 & [code payload] & -> & Hsent & Hok).
    exists code, payload. simpl. rewrite Hsent, Hroutes.
    split; [reflexivity|]. intros Hstatus. apply field_is_assoc.
    unfold error_output_empty in Hok. simpl in Hok. now rewrite Hstatus in Hok.
Qed.

End OneResponse.

Section MetricsAndJournal.
Context `{RT : Runtime} `{RG : Registry}.

(** *** The [finally] block *)

Lemma attempt_keeps_metrics cfg env req requestId startTime :
  preserves metrics_of
    (try_catch (routes cfg env req requestId startTime)
               (catch_block env requestId startTime)).
Proof. frame. Qed.

Lemma journal_and_log_keeps_metrics env req requestId l :
  preserves metrics_of (journal_and_log env req requestId l).
Proof. frame. Qed.

Lemma journal_and_log_keeps_locals env req requestId l :
  preserves locals_of (journal_and_log env req requestId l).
Proof. frame. Qed.

(** [metrics.record] is the first statement of the [finally] block: its
    effect stays whatever the rest of the block does. *)
Lemma finally_records_metrics env req requestId s :
  let s' := snd (finally_block env req requestId s) in
  metrics_of s' =
    Metrics.record (Locals.agentName (locals s)) (Locals.providerName (locals s))
      (Locals.status (locals s)) (metrics_of s)
  /\ locals s' = locals s.
Proof.
  unfold finally_block, bind, get_locals, update_process. simpl.
  match goal with |- context [journal_and_log ?e ?r ?i ?l ?s1] =>
    pose proof (journal_and_log_keeps_metrics e r i l s1) as Hm;
    pose proof (journal_and_log_keeps_locals e r i l s1) as Hl;
    destruct (journal_and_log e r i l s1) as [[u|err] s2]
  end; simpl in *; split; assumption.
Qed.

Lemma handle_unfold cfg env req p :
  let r := finally_block env req (request_uuid env) (before_finally cfg env req p) in
  served_locals (handle cfg env req p) = locals (snd r)
  /\ after (handle cfg env req p) = process (snd r)
  /\ (forall e, fst r = Throw e -> completion (handle cfg env req p) = Throw e).
Proof.
  unfold before_finally, handle, handler, bind, Date_now, try_finally. simpl.
  match goal with |- context [try_catch ?b ?h ?s] => destruct (try_catch b h s) as [r s1] end.
  simpl. destruct (finally_block env req (request_uuid env) s1) as [[u|e] s2]; simpl.
  - repeat split. discriminate.
  - repeat split. intros e' [= <-]. reflexivity.
Qed.

Lemma handle_metrics cfg env req p :
  let s := handle cfg env req p in
  Process.metrics (after s) =
    Metrics.record (Locals.agentName (served_locals s))
      (Locals.providerName (served_locals s)) (Locals.status (served_locals s))
      (Process.metrics p).
Proof.
  destruct (handle_unfold cfg env req p) as (Hlocals & Hafter & _).
  cbv zeta. rewrite Hlocals, Hafter.
  destruct (finally_records_metrics env req (request_uuid env)
              (before_finally cfg env req p)) as (Hm & Hl).
  unfold metrics_of in Hm. rewrite Hm, Hl. f_equal.
  unfold before_finally.
  exact (attempt_keeps_metrics cfg env req _ _ _).
Qed.

(** Only the main agent endpoint assigns [agentName]. *)
Lemma other_routes_keep_agentName cfg env req requestId startTime :
  agent_route req = false ->
  preserves agentName_of
    (try_catch (routes cfg env req requestId startTime)
               (catch_block env requestId startTime)).
Proof.
  intros Hroute. unfold agent_route in Hroute.
  assert (Hnot : negb (String.eqb (method req) "POST")
                 || negb (String.eqb (url req) "/v1/agent") = true).
  { rewrite <- negb_andb. now rewrite Hroute. }
  unfold routes. cbv zeta. rewrite Hnot. frame.
Qed.

Lemma unidentified_agent cfg env req p :
  agent_route req = false ->
  Locals.agentName (served_locals (handle cfg env req p)) = None.
Proof.
  intros Hroute. destruct (handle_unfold cfg env req p) as (-> & _ & _).
  destruct (finally_records_metrics env req (request_uuid env)
              (before_finally cfg env req p)) as (_ & ->).
  unfold before_finally.
  exact (other_routes_keep_agentName cfg env req _ _ Hroute _).
Qed.

(** Under a key that names no member of [Object.prototype] a table of
    counters holds numbers only. *)
Lemma bump_count_plain (key : string) (counts : gmap string Z)
    (texts : gmap string string) :
  inherited key = false -> Metrics.bump_count key counts texts = Metrics.bump key counts.
Proof.
  intros Hkey. unfold Metrics.bump_count, Metrics.read. rewrite Hkey.
  now destruct (counts !! key).
Qed.

Lemma bump_text_plain (key : string) (counts : gmap string Z)
    (texts : gmap string string) :
  inherited key = false -> Metrics.bump_text key counts texts = texts.
Proof.
  intros Hkey. unfold Metrics.bump_text, Metrics.read. rewrite Hkey.
  now destruct (counts !! key).
Qed.


(** Once an agent is identified the [finally] block stops at the read of
    [startMs]: nothing is journaled and nothing is logged. *)
Lemma finally_stops_at_startMs env req requestId s :
  str_truthy (Locals.agentName (locals s)) = true ->
  exists s',
    finally_block env req requestId s
      = (Throw (ReferenceError "startMs is not defined"), s')
    /\ files_of s' = files_of s.
Proof.
  intros Hagent.
  unfold finally_block, journal_and_log, bind, get_locals, update_process, Date_now,
    undeclared, throw.
  simpl. rewrite Hagent. simpl. eexists. split; reflexivity.
Qed.

Lemma agent_route_keeps_files cfg env req requestId startTime :
  agent_route req = true ->
  preserves files_of
    (try_catch (routes cfg env req requestId startTime)
               (catch_block env requestId startTime)).
Proof.
  intros Hroute. unfold agent_route in Hroute.
  apply andb_true_iff in Hroute as [Hm Hu].
  apply String.eqb_eq in Hm. apply String.eqb_eq in Hu.
  unfold routes. rewrite Hm, Hu. cbv zeta. simpl. frame.
Qed.

(** Every request that identifies an agent ends with the handler's promise
    rejected, and leaves the journal and the access log as they were. *)
Lemma identified_agent_rejects cfg env req p :
  let s := handle cfg env req p in
  str_truthy (Locals.agentName (served_locals s)) = true ->
  completion s = Throw (ReferenceError "startMs is not defined")
  /\ Process.files (after s) = Process.files p.
Proof.
  cbv zeta. intros Hagent.
  destruct (handle_unfold cfg env req p) as (Hlocals & Hafter & Hthrow).
  destruct (finally_records_metrics env req (request_uuid env)
              (before_finally cfg env req p)) as (_ & Hl).
  rewrite Hlocals, Hl in Hagent.
  destruct (finally_stops_at_startMs env req (request_uuid env) _ Hagent)
    as (s' & Hfin & Hfiles).
  rewrite Hfin in Hthrow, Hafter. simpl in *.
  split; [now apply Hthrow|]. rewrite Hafter.
  unfold files_of in Hfiles. rewrite Hfiles.
  destruct (agent_route req) eqn:Hroute.
  - unfold before_finally. exact (agent_route_keeps_files cfg env req _ _ Hroute _).
  - unfold before_finally in Hagent.
    pose proof (other_routes_keep_agentName cfg env req (request_uuid env)
                  (clock env O) Hroute
                  {| process := p; locals := Locals.initial; sent := [];
                     ticks := 1%nat |}) as Hnone.
    unfold agentName_of in Hnone. rewrite Hnone in Hagent. discriminate.
Qed.

End MetricsAndJournal.

Section Commutation.
Context `{RT : Runtime} `{RG : Registry}.
Implicit Type u : State -> State.

(** *** Computations that do not use part of the state *)

Lemma commutes_ret {A : Type} u (a : A) : commutes u (ret a).
Proof. intros s. reflexivity. Qed.

Lemma commutes_throw {A : Type} u (e : JsError) : commutes u (throw e : M A).
Proof. intros s. reflexivity. Qed.

Lemma commutes_await {A : Type} u (o : outcome A) : commutes u (await o).
Proof. intros s. reflexivity. Qed.

Lemma commutes_bind {A B : Type} u (m : M A) (k : A -> M B) :
  commutes u m -> (forall a, commutes u (k a)) -> commutes u (bind m k).
Proof.
  intros Hm Hk s. unfold bind. rewrite Hm.
  destruct (m s) as [[a|e] s']; simpl; [apply Hk | reflexivity].
Qed.

Lemma commutes_try_catch {A : Type} u (body : M A) (handler : JsError -> M A) :
  commutes u body -> (forall e, commutes u (handler e)) ->
  commutes u (try_catch body handler).
Proof.
  intros Hm Hk s. unfold try_catch. rewrite Hm.
  destruct (body s) as [[a|e] s']; simpl; [reflexivity | apply Hk].
Qed.

Lemma commutes_try_finally {A : Type} u (body : M A) (cleanup : M unit) :
  commutes u body -> commutes u cleanup -> commutes u (try_finally body cleanup).
Proof.
  intros Hm Hk s. unfold try_finally. rewrite Hm.
  destruct (body s) as [r s']; simpl. rewrite Hk.
  destruct (cleanup s') as [[x|e] s'']; reflexivity.
Qed.

End Commutation.

Ltac commutes_step :=
  lazymatch goal with
  | |- commutes _ (bind _ _) => apply commutes_bind; [|intros ?]
  | |- commutes _ (try_catch _ _) => apply commutes_try_catch; [|intros ?]
  | |- commutes _ (try_finally _ _) => apply commutes_try_finally
  | |- commutes _ (ret _) => apply commutes_ret
  | |- commutes _ (throw _) => apply commutes_throw
  | |- commutes _ (undeclared _) => apply commutes_throw
  | |- commutes _ (await _) => apply commutes_await
  | |- commutes _ (if ?b then _ else _) => destruct b
  | |- commutes _ (match ?x with _ => _ end) => destruct x
  | |- commutes _ (let _ := _ in _) => cbv zeta
  | |- commutes _ ?m =>
      first [ solve [intros ?; reflexivity]
            | let h := head_of m in progress unfold h ]
  end.

Ltac commutes_tac := repeat commutes_step.

Section Verify.
Context `{RT : Runtime} `{RG : Registry}.

(** *** POST /v1/verify *)

Lemma routes_verify cfg env address body error requestId startTime :
  routes cfg env (verify_request address body error) requestId startTime
  = route_verify env (verify_request address body error).
Proof. reflexivity. Qed.

(** Of the request, the verify route reads the body only. *)
Lemma route_verify_body env address address' body error :
  route_verify env (verify_request address body error)
  = route_verify env (verify_request address' body error).
Proof. reflexivity. Qed.

Lemma route_verify_responds env req : responds not_forbidden (route_verify env req).
Proof. responds_tac. Qed.

Lemma try_catch_returns (body : M unit) (handler : JsError -> M unit) :
  (forall e s, exists s', handler e s = (Ret tt, s')) ->
  forall s, exists s', try_catch body handler s = (Ret tt, s').
Proof.
  intros Hh s. unfold try_catch. destruct (body s) as [[[]|e] s1]; [eauto|apply Hh].
Qed.

(** The verify route catches whatever is thrown: it always returns. *)
Lemma route_verify_returns env req s : exists s', route_verify env req s = (Ret tt, s').
Proof.
  unfold route_verify.
  match goal with |- context [bind (Date_now env) ?k s] =>
    change (bind (Date_now env) k s)
      with (k (clock env (ticks s))
              {| process := process s; locals := locals s; sent := sent s;
                 ticks := S (ticks s) |})
  end.
  cbv beta. apply try_catch_returns. intros e s1. eexists. reflexivity.
Qed.

Lemma verify_ignores_limiter w cfg env address body error :
  commutes (with_limiter w) (handler cfg env (verify_request address body error)).
Proof.
  unfold handler. apply commutes_bind; [intros s; reflexivity|]. intros startTime.
  cbv zeta. rewrite routes_verify. commutes_tac.
Qed.

Lemma verify_keeps_limiter cfg env address body error :
  preserves limiter_of (handler cfg env (verify_request address body error)).
Proof.
  unfold handler. apply preserves_bind; [intros s; reflexivity|]. intros startTime.
  cbv zeta. rewrite routes_verify. frame.
Qed.

Lemma verdict_response_ok (v : Verdict) (agent stamp : string) (checked : option json) :
  str_in (verdict v) recognized_verdicts = true ->
  num_leb num_zero (confidence v) = true ->
  num_leb (confidence v) num_one = true ->
  verdict_ok
    (200,
     with_error_output
       ([ ("status", JStr "ok"); ("verdict", JStr (verdict v));
          ("confidence", JNum (confidence v)); ("reasoning", JStr (reasoning v));
          ("agent_used", JStr agent) ]
        ++ optional_field "sources_checked" checked
        ++ [("flags", JArr (flags v)); ("timestamp", JStr stamp)])%list) = true.
Proof.
  intros Hverdict Hlow Hhigh.
  match goal with |- context [with_error_output ?l] => set (payload := l) end.
  assert (Hstatus : field_is "status" "error" payload = false) by reflexivity.
  assert (Hv : assoc "verdict" payload = Some (JStr (verdict v))) by reflexivity.
  assert (Hc : assoc "confidence" payload = Some (JNum (confidence v))) by reflexivity.
  unfold verdict_ok, with_error_output. rewrite Hstatus. cbn [andb fst snd].
  rewrite Hv, Hc, Hverdict, Hlow, Hhigh. reflexivity.
Qed.

(** Whatever the model answers, a 200 response of the verify route carries
    a recognized verdict and a confidence between 0 and 1. *)
Lemma route_verify_verdict env req : responds verdict_ok (route_verify env req).
Proof.
  responds_tac.
  all: apply responds_send; apply verdict_response_ok; apply parse_verdict_sound.
Qed.

(** The one response of a verify request satisfies what every response of
    the route satisfies. *)
Lemma verify_responses_satisfy ok cfg env address body error p :
  (forall req, responds ok (route_verify env req)) ->
  forallb ok (responses (handle cfg env (verify_request address body error) p)) = true.
Proof.
  intros Hok. rewrite responses_of_handle, routes_verify. unfold try_catch.
  match goal with |- context [route_verify ?e ?r ?s0] =>
    pose proof (Hok r s0) as Hsent;
    destruct (route_verify_returns e r s0) as (s1 & Hret)
  end.
  rewrite Hret in *. simpl in *. destruct Hsent as (r & -> & Hr).
  simpl. now rewrite Hr.
Qed.

End Verify.


Section VerifyPolicy.
Context `{RT : Runtime} `{RG : Registry}.

Lemma pickProvider_relaxed requested a intent :
  pickProvider requested (relax_agent a) intent = pickProvider requested a intent.
Proof. reflexivity. Qed.

(** The verify route reads neither [allowed_intents] nor a rate limit. *)
Lemma verify_claim_relaxed env verifyStart claim sources threshold s :
  verify_claim (relaxed env) verifyStart claim sources threshold s
  = verify_claim env verifyStart claim sources threshold s.
Proof.
  unfold verify_claim. cbv zeta.
  set (agentName := if isSecurityClaim claim then "cipher" else "prism").
  set (intent := if isSecurityClaim claim then "audit" else "analyze").
  unfold loadPolicy, bind, await, relaxed. simpl.
  destruct (policy_file env) as [[policy|]|e]; simpl; try reflexivity.
  destruct (agents policy) as [table|]; simpl; try reflexivity.
  rewrite lookup_fmap.
  destruct (table !! agentName) as [a|]; simpl; [|reflexivity].
  rewrite pickProvider_relaxed.
  destruct (pickProvider (Some JNull) a intent); reflexivity.
Qed.

Lemma route_verify_relaxed env req s :
  route_verify (relaxed env) req s = route_verify env req s.
Proof.
  unfold route_verify, bind, try_catch, Date_now, await.
  change (clock (relaxed env)) with (clock env).
  destruct (readBody req 65536) as [verBody|e]; [|reflexivity].
  destruct (JSON_parse verBody) as [verPayload|]; [|reflexivity].
  destruct verPayload; try reflexivity;
    match goal with |- context [claim_missing ?c] => destruct (claim_missing c) end;
    try reflexivity; now rewrite verify_claim_relaxed.
Qed.

(** C9: the handling of POST /v1/verify depends neither on the client's
    address nor on the configuration ([allowRemote] included): two verify
    requests with the same body receive the same response; no response of
    this route has status 403; the response is the same whatever the rate
    limiter holds, the limiter is left untouched, and the response is the
    same when every [allowed_intents] list and every rate limit is taken
    out of the policy. *)
Theorem verify_ignores_origin_and_limits (cfg cfg' : Config) (env : Env)
    (address address' : option string) (body : list string) (error : option JsError)
    (p : Process.t) (w : gmap string (list Z)) :
  let s := handle cfg env (verify_request address body error) p in
  responses (handle cfg' env (verify_request address' body error) p) = responses s
  /\ forallb not_forbidden (responses s) = true
  /\ responses (handle cfg env (verify_request address body error) (set_rateLimiter w p))
     = responses s
  /\ Process.rateLimiter (after s) = Process.rateLimiter p
  /\ responses (handle cfg (relaxed env) (verify_request address body error) p)
     = responses s.
Proof.
  cbv zeta. repeat split.
  - rewrite !responses_of_handle, !routes_verify. reflexivity.
  - apply verify_responses_satisfy. intros req. apply route_verify_responds.
  - unfold handle.
    match goal with |- context [handler ?c ?e ?r ?s0] =>
      change s0 with (with_limiter w
        {| process := p; locals := Locals.initial; sent := []; ticks := O |})
    end.
    now rewrite verify_ignores_limiter.
  - exact (verify_keeps_limiter cfg env address body error _).
  - rewrite !responses_of_handle, !routes_verify. unfold try_catch.
    change (request_uuid (relaxed env)) with (request_uuid env).
    change (clock (relaxed env)) with (clock env).
    now rewrite route_verify_relaxed.
Qed.

End VerifyPolicy.

Section AccessLog.
Context `{RT : Runtime} `{RG : Registry}.

Lemma attempt_keeps_access_log cfg env req requestId startTime :
  preserves log_of
    (try_catch (routes cfg env req requestId startTime)
               (catch_block env requestId startTime)).
Proof. frame. Qed.

(** The [try] and [catch] blocks together never throw. *)
Lemma attempt_returns cfg env req requestId startTime s :
  exists s',
    try_catch (routes cfg env req requestId startTime)
              (catch_block env requestId startTime) s = (Ret tt, s').
Proof.
  apply try_catch_returns. intros e s1.
  destruct (catch_block_responds env requestId startTime e s1) as (s' & r & Hret & _).
  eauto.
Qed.

(** A request that identifies no agent is logged: the handler returns,
    and the access log has one line more unless the write fails, in which
    case the failure is swallowed. *)
Lemma unidentified_request_is_logged cfg env req p :
  let s := handle cfg env req p in
  str_truthy (Locals.agentName (served_locals s)) = false ->
  completion s = Ret tt
  /\ exists line,
       access_log (Process.files (after s)) =
         match log_append_error env with
         | None => push (access_log (Process.files p)) line
         | Some _ => access_log (Process.files p)
         end.
Proof.
  cbv zeta. intros Hagent.
  destruct (handle_unfold cfg env req p) as (Hlocals & _ & _).
  destruct (finally_records_metrics env req (request_uuid env)
              (before_finally cfg env req p)) as (_ & Hl).
  rewrite Hlocals, Hl in Hagent. clear Hlocals Hl.
  unfold handle, handler, bind, Date_now, try_finally. simpl.
  unfold before_finally in Hagent.
  pose proof (attempt_keeps_access_log cfg env req (request_uuid env) (clock env O)
                {| process := p; locals := Locals.initial; sent := [];
                   ticks := 1%nat |}) as Hlog.
  destruct (attempt_returns cfg env req (request_uuid env) (clock env O)
              {| process := p; locals := Locals.initial; sent := [];
                 ticks := 1%nat |}) as (s1 & Hret).
  rewrite Hret in *. simpl in Hagent, Hlog. unfold log_of, files_of in Hlog. simpl in Hlog.
  unfold finally_block, journal_and_log, bind, get_locals, update_process, Date_now,
    try_catch, appendLog, throw, ret.
  simpl. rewrite Hagent. simpl.
  destruct (log_append_error env) as [e|]; simpl.
  - split; [reflexivity|]. exists "". exact Hlog.
  - split; [reflexivity|]. eexists. rewrite <- Hlog. reflexivity.
Qed.

End AccessLog.

(** ** The two slips of the handler, on concrete requests *)

(** An explicit limit of 0 is falsy, so the [||] chain goes on to the
    global limit exactly as if the agent had stated none. *)
Lemma explicit_zero_inherits_global (agentPolicy : AgentPolicy) (policy : Policy)
    (g : GlobalPolicy) (n : Z) :
  rate_limit_per_minute agentPolicy = Some 0 ->
  global policy = Some g -> global_rate_limit_per_minute g = Some n ->
  agentLimit agentPolicy policy = n.
Proof.
  intros Hown Hglobal Hn. unfold agentLimit. rewrite Hown, Hglobal, Hn. simpl.
  destruct (Z.eqb_spec n 0); simpl; congruence.
Qed.

(** C1, on the code: POST /v1/agent with the body
    [{"agent":"planner","intent":"analyze","input":"hi"}] is answered with
    200, and metrics are recorded; then the [finally] block reads
    [startMs], which no scope declares: the handler's promise is rejected
    with a ReferenceError, no [agent_call] record reaches the journal and
    no line reaches the access log. *)
Theorem agent_call_is_never_journaled :
  let s := @handle example_runtime (answering "hello") example_config
             (example_env (example_policy 60 None) 1000)
             (local_request "POST" "/v1/agent" planner_body)
             (fresh_process (answering "hello") tt) in
  map fst (responses s) = [200]
  /\ Locals.agentName (served_locals s) = Some "planner"
  /\ Metrics.totalRequests (Process.metrics (after s)) = 1
  /\ completion s = Throw (ReferenceError "startMs is not defined")
  /\ journal_file (Process.files (after s)) = None
  /\ access_log (Process.files (after s)) = [].
Proof. vm_compute. repeat split. Qed.

(** C2, on the code: [planner] sets [rate_limit_per_minute] to 0 and the
    global limit is 1.  The limit applied to [planner] is 1, and the second
    of two requests in the same minute is rejected with 429. *)
Theorem explicit_zero_limit_is_enforced :
  rate_limit_per_minute (planner_policy (Some 0)) = Some 0
  /\ agentLimit (planner_policy (Some 0)) (example_policy 1 (Some 0)) = 1
  /\ map (fun s => map fst (responses s))
       (@serve example_runtime (answering "hello") example_config planner_twice
          (fresh_process (answering "hello") tt))
     = [[200]; [429]].
Proof. vm_compute. repeat split. Qed.

(** ** The theorems on the inputs of the examples *)


Lemma one_response_per_request_witness :
  exists code payload,
    responses (@handle example_runtime (answering "hello") example_config
                 (example_env (example_policy 60 None) 1000)
                 (local_request "DELETE" "/v1/agent" "")
                 (fresh_process (answering "hello") tt))
      = [(code, payload)]
    /\ code = 404 /\ assoc "output" payload = Some (JStr "").
Proof.
  destruct (@one_response_per_request example_runtime (answering "hello") example_config
              (example_env (example_policy 60 None) 1000)
              (local_request "DELETE" "/v1/agent" "")
              (fresh_process (answering "hello") tt))
    as (code & payload & Hsent & Houtput).
  exists code, payload. split; [exact Hsent|].
  assert (Hshape : code = 404 /\ field_is "status" "error" payload = true).
  { vm_compute in Hsent. injection Hsent as <- <-. split; reflexivity. }
  split; [apply Hshape | apply Houtput, Hshape].
Defined.


(** ** Worked examples of the lemmas above *)

Lemma identified_agent_rejects_example :
  let s := @handle example_runtime (answering "hello") example_config
             (example_env (example_policy 60 None) 1000)
             (local_request "POST" "/v1/agent" planner_body)
             (fresh_process (answering "hello") tt) in
  completion s = Throw (ReferenceError "startMs is not defined")
  /\ Process.files (after s) = Process.files (fresh_process (answering "hello") tt).
Proof.
  apply (@identified_agent_rejects example_runtime (answering "hello")).
  vm_compute. reflexivity.
Defined.

Lemma unidentified_request_is_logged_example :
  let p := fresh_process (answering "hello") tt in
  let env := example_env (example_policy 60 None) 1000 in
  let s := @handle example_runtime (answering "hello") example_config env
             (local_request "GET" "/healthz" "") p in
  completion s = Ret tt
  /\ exists line,
       access_log (Process.files (after s)) =
         match log_append_error env with
         | None => push (access_log (Process.files p)) line
         | Some _ => access_log (Process.files p)
         end.
Proof.
  apply (@unidentified_request_is_logged example_runtime (answering "hello")).
  vm_compute. reflexivity.
Defined.

Lemma explicit_zero_inherits_global_example :
  agentLimit (planner_policy (Some 0)) (example_policy 1 (Some 0)) = 1.
Proof.
  apply (explicit_zero_inherits_global (planner_policy (Some 0))
           (example_policy 1 (Some 0))
           {| global_rate_limit_per_minute := Some 1 |} 1); reflexivity.
Defined.

(** The assertions of the test suite on the metrics
    (tests/gateway.test.js, 240-255). *)
Example metrics_test_suite :
  let m := @Metrics.record example_runtime (Some "octavia") (Some (Data (JStr "claude")))
             "error"
             (@Metrics.record example_runtime (Some "planner") (Some (Data (JStr "claude")))
                "ok"
                (@Metrics.record example_runtime (Some "planner")
                   (Some (Data (JStr "ollama"))) "ok" (Metrics.initial 0))) in
  Metrics.totalRequests m = 3 /\ Metrics.totalOk m = 2 /\ Metrics.totalErrors m = 1
  /\ Metrics.byAgent m !! "planner" = Some 2 /\ Metrics.byAgent m !! "octavia" = Some 1
  /\ Metrics.byProvider m !! "ollama" = Some 1
  /\ Metrics.byProvider m !! "claude" = Some 2.
Proof. vm_compute. repeat split. Qed.

(** The assertions of the test suite on [validateRequest]
    (tests/gateway.test.js, 46-86). *)
Example validateRequest_test_suite :
  validateRequest planner_payload = None
  /\ validateRequest JNull = Some "Invalid JSON payload"
  /\ validateRequest (JObj []) = Some "Missing agent"
  /\ validateRequest (JObj [("agent", JStr "planner")]) = Some "Missing intent"
  /\ validateRequest (JObj [("agent", JStr "planner"); ("intent", JStr "analyze")])
     = Some "Missing input"
  /\ validateRequest (JObj [("agent", JStr "planner"); ("intent", JStr "analyze");
                            ("input", JStr "hi"); ("context", JStr "bad")])
     = Some "Context must be an object"
  /\ validateRequest (JObj [("agent", JStr "planner"); ("intent", JStr "analyze");
                            ("input", JStr "hi");
                            ("context", JObj [("foo", JNum (num_of_Z 1))])])
     = None.
Proof. repeat split. Qed.

(** ** The request body and its validation *)

Lemma string_app_empty (s : string) : s ++ "" = s.
Proof.
  induction s as [|c s IH]; [reflexivity|].
  change (String c (s ++ "") = String c s). now rewrite IH.
Qed.

Lemma string_app_length (a b : string) :
  String.length (a ++ b) = (String.length a + String.length b)%nat.
Proof.
  induction a as [|c a IH]; [reflexivity|].
  change (S (String.length (a ++ b)) = S (String.length a + String.length b)).
  now rewrite IH.
Qed.

Lemma body_bytes_nonneg (chunks : list string) : 0 <= body_bytes chunks.
Proof. induction chunks as [|c rest IH]; simpl; lia. Qed.

Lemma received_length (chunks : list string) :
  Z.of_nat (String.length (received chunks)) = body_bytes chunks.
Proof.
  induction chunks as [|c rest IH]; [reflexivity|].
  change (Z.of_nat (String.length (c ++ received rest))
          = Z.of_nat (String.length c) + body_bytes rest).
  rewrite string_app_length. lia.
Qed.

Section RequestBody.
Context `{RT : Runtime}.

(** Chunks that decode to their own bytes give the bytes received. *)
Lemma body_text_received (chunks : list string) :
  Forall (fun chunk => Buffer_toString chunk = chunk) chunks ->
  body_text chunks = received chunks.
Proof.
  induction 1 as [|chunk rest Hchunk _ IH]; [reflexivity|].
  cbn [body_text received fold_right]. fold (body_text rest). fold (received rest).
  now rewrite Hchunk, IH.
Qed.

Lemma read_chunks_spec (error : option JsError) (maxBytes : Z) (pending : list string) :
  forall body bytes,
    bytes <= maxBytes ->
    read_chunks pending error body bytes maxBytes =
      if bytes + body_bytes pending >? maxBytes
      then Throw (Error "Request body too large")
      else match error with
           | Some e => Throw e
           | None => Ret (body ++ body_text pending)
           end.
Proof.
  induction pending as [|chunk rest IH]; intros body bytes Hle.
  - simpl. destruct (Z.gtb_spec (bytes + 0) maxBytes); [lia|].
    now rewrite string_app_empty.
  - pose proof (body_bytes_nonneg rest) as Hrest.
    cbn [read_chunks body_bytes body_text fold_right].
    fold (body_bytes rest). fold (body_text rest).
    destruct (Z.gtb_spec (bytes + Z.of_nat (String.length chunk)) maxBytes) as [Hover|Hfit].
    + destruct (Z.gtb_spec (bytes + (Z.of_nat (String.length chunk) + body_bytes rest)) maxBytes);
        [reflexivity | lia].
    + rewrite (IH _ _ Hfit). rewrite Z.add_assoc. now rewrite string_app_assoc.
Qed.

(** [readBody] counts the bytes of the chunks.  When they are at most
    [maxBytes] and the stream ends, it resolves with what the chunks decode
    to, each on its own, one after the other; when they are more, it
    rejects with "Request body too large", whatever the stream does
    afterwards.  When every chunk decodes to its own bytes (no chunk cuts
    a character in two or holds an ill-formed sequence), the body is the
    bytes received, at most [maxBytes] of them. *)
Theorem readBody_within_limit (req : Request) (maxBytes : Z) :
  0 <= maxBytes ->
  readBody req maxBytes =
    (if body_bytes (chunks req) >? maxBytes
     then Throw (Error "Request body too large")
     else match stream_error req with
          | Some e => Throw e
          | None => Ret (body_text (chunks req))
          end)
  /\ (Forall (fun chunk => Buffer_toString chunk = chunk) (chunks req) ->
      forall body, readBody req maxBytes = Ret body ->
        body = received (chunks req) /\ Z.of_nat (String.length body) <= maxBytes).
Proof.
  intros Hmax.
  assert (Hspec : readBody req maxBytes =
    (if body_bytes (chunks req) >? maxBytes
     then Throw (Error "Request body too large")
     else match stream_error req with
          | Some e => Throw e
          | None => Ret (body_text (chunks req))
          end)).
  { unfold readBody. rewrite (read_chunks_spec _ _ _ _ _ Hmax). reflexivity. }
  split; [exact Hspec|]. intros Hdecoded body. rewrite Hspec.
  destruct (Z.gtb_spec (body_bytes (chunks req)) maxBytes) as [|Hfit]; [discriminate|].
  destruct (stream_error req); [discriminate|].
  intros [= <-]. rewrite (body_text_received _ Hdecoded).
  split; [reflexivity|]. now rewrite received_length.
Qed.

End RequestBody.

Lemma readBody_within_limit_example :
  @readBody example_runtime (local_request "POST" "/v1/agent" planner_body) 1048576
  = Ret planner_body
  /\ @readBody example_runtime (local_request "POST" "/v1/agent" planner_body) 10
     = Throw (Error "Request body too large").
Proof.
  split.
  - destruct (@readBody_within_limit example_runtime
                (local_request "POST" "/v1/agent" planner_body) 1048576)
      as (Hspec & _); [lia|]. rewrite Hspec. reflexivity.
  - destruct (@readBody_within_limit example_runtime
                (local_request "POST" "/v1/agent" planner_body) 10)
      as (Hspec & _); [lia|]. rewrite Hspec. reflexivity.
Defined.

(** ** validateRequest *)

(** [validateRequest] accepts exactly the objects whose [agent] and
    [intent] are non-empty strings, whose [input] is a string and whose
    [context] is absent, falsy, an object or an array. *)
Theorem validateRequest_accepts (payload : json) :
  validateRequest payload = None <->
  exists fields agent intent input,
    payload = JObj fields
    /\ assoc "agent" fields = Some (JStr agent) /\ agent <> ""
    /\ assoc "intent" fields = Some (JStr intent) /\ intent <> ""
    /\ assoc "input" fields = Some (JStr input)
    /\ match assoc "context" fields with
       | Some (JArr _) | Some (JObj _) | None => True
       | Some c => truthy c = false
       end.
Proof.
  split.
  - destruct payload as [| | | |items|fields]; try discriminate.
    unfold validateRequest. cbn [jprop].
    destruct (assoc "agent" fields) as [[| | |a| |]|] eqn:Ha; try discriminate;
      cbn [truthy_opt truthy is_string andb negb];
      try (rewrite andb_false_r; discriminate).
    destruct (String.eqb_spec a "") as [->|Hane]; [discriminate|]. cbn [negb andb].
    destruct (assoc "intent" fields) as [[| | |i| |]|] eqn:Hi; try discriminate;
      cbn [truthy_opt truthy is_string andb negb];
      try (rewrite andb_false_r; discriminate).
    destruct (String.eqb_spec i "") as [->|Hine]; [discriminate|]. cbn [negb andb].
    destruct (assoc "input" fields) as [[| | |inp| |]|] eqn:Hinp; try discriminate.
    cbn [is_string negb]. intros Hctx.
    exists fields, a, i, inp. repeat (split; [auto; fail|]).
    destruct (assoc "context" fields) as [[|b|n|s|l|o]|]; auto;
      destruct (truthy _); congruence.
  - intros (fields & a & i & inp & -> & Ha & Hane & Hi & Hine & Hinp & Hctx).
    unfold validateRequest. cbn [jprop]. rewrite Ha, Hi, Hinp.
    cbn [truthy_opt truthy is_string andb negb].
    apply String.eqb_neq in Hane, Hine. rewrite Hane, Hine. cbn [negb andb].
    destruct (assoc "context" fields) as [[|b|n|s|l|o]|]; auto; now rewrite Hctx.
Qed.

(** ** The system prompt *)

(* THMS *)

Lemma substring_prefix (x post : string) :
  substring 0 (String.length x) (x ++ post) = x.
Proof.
  induction x as [|c x IH]; [now destruct post|].
  change (String c (substring 0 (String.length x) (x ++ post)) = String c x).
  now rewrite IH.
Qed.

Lemma substring_app (pre x post : string) :
  substring (String.length pre) (String.length x) (pre ++ x ++ post) = x.
Proof. induction pre as [|c pre IH]; [exact (substring_prefix x post) | exact IH]. Qed.

Lemma includes_app (pre x post : string) : includes x (pre ++ x ++ post) = true.
Proof.
  unfold includes.
  destruct (String.index 0 x (pre ++ x ++ post)) as [n|] eqn:Hindex; [reflexivity|].
  destruct x as [|c x].
  - destruct (pre ++ "" ++ post); discriminate.
  - exfalso.
    apply (index_correct3 0 (String.length pre) _ _ Hindex); [discriminate | lia|].
    apply substring_app.
Qed.

Lemma concat_holds (sep part : string) (parts : list string) :
  In part parts -> exists pre post, String.concat sep parts = pre ++ part ++ post.
Proof.
  induction parts as [|x rest IH]; [contradiction|]. intros [->|Hin].
  - destruct rest as [|y rest].
    + exists "", "". simpl. now rewrite string_app_empty.
    + exists "", (sep ++ String.concat sep (y :: rest)). reflexivity.
  - destruct (IH Hin) as (pre & post & Heq). destruct rest as [|y rest]; [contradiction|].
    exists (x ++ sep ++ pre), post.
    change (String.concat sep (x :: y :: rest)) with (x ++ sep ++ String.concat sep (y :: rest)).
    now rewrite Heq, !string_app_assoc.
Qed.

Lemma In_push {A : Type} (x y : A) (l : list A) : In x l \/ x = y -> In x (push l y).
Proof.
  unfold push. rewrite in_app_iff. intros [Hin | ->]; [now left | right; now left].
Qed.

Section SystemPrompt.
Context `{RT : Runtime}.

(** The system prompt holds every fragment that applies: the default
    prompt unless it is blank, the prompt of the agent and the prompt of
    the intent when the document has one, and the context when it has
    keys; without a prompt document it is empty. *)
Theorem buildSystemPrompt_holds_fragments (prompts : Prompts) (agent intent : string)
    (context : option json) :
  let result := buildSystemPrompt (Some prompts) agent intent context in
  (forall d, prompts_default prompts = Some d -> trim d <> "" ->
     includes (trim d) result = true)
  /\ (forall a, lookup_prompt (prompts_agents prompts) agent = Some a ->
        includes (trim a) result = true)
  /\ (forall i, lookup_prompt (prompts_intents prompts) intent = Some i ->
        includes (trim i) result = true)
  /\ (forall c, context = Some c -> truthy c = true -> has_keys c = true ->
        includes ("Context JSON:" ++ newline ++ JSON_stringify c) result = true)
  /\ buildSystemPrompt None agent intent context = "".
Proof.
  cbv zeta. unfold buildSystemPrompt.
  set (parts1 := match prompts_default prompts with
                 | Some d => if String.eqb (trim d) "" then [] else push [] (trim d)
                 | None => []
                 end).
  set (parts2 := match lookup_prompt (prompts_agents prompts) agent with
                 | Some a => push parts1 (trim a)
                 | None => parts1
                 end).
  set (parts3 := match lookup_prompt (prompts_intents prompts) intent with
                 | Some i => push parts2 (trim i)
                 | None => parts2
                 end).
  set (parts4 := match context with
                 | Some c =>
                     if truthy c && has_keys c
                     then push parts3 ("Context JSON:" ++ newline ++ JSON_stringify c)
                     else parts3
                 | None => parts3
                 end).
  assert (H12 : forall x, In x parts1 -> In x parts2).
  { intros x Hx. unfold parts2.
    destruct (lookup_prompt (prompts_agents prompts) agent); [apply In_push|]; auto. }
  assert (H23 : forall x, In x parts2 -> In x parts3).
  { intros x Hx. unfold parts3.
    destruct (lookup_prompt (prompts_intents prompts) intent); [apply In_push|]; auto. }
  assert (H34 : forall x, In x parts3 -> In x parts4).
  { intros x Hx. unfold parts4. destruct context as [c|]; auto.
    destruct (truthy c && has_keys c); [apply In_push|]; auto. }
  assert (Hin : forall x, In x parts4 ->
            includes x (String.concat (newline ++ newline) parts4) = true).
  { intros x Hx. destruct (concat_holds (newline ++ newline) x parts4 Hx)
      as (pre & post & ->). apply includes_app. }
  repeat split.
  - intros d Hd Hblank. apply Hin, H34, H23, H12. unfold parts1. rewrite Hd.
    apply String.eqb_neq in Hblank. rewrite Hblank. apply In_push. now right.
  - intros a Ha. apply Hin, H34, H23. unfold parts2. rewrite Ha. apply In_push. now right.
  - intros i Hi. apply Hin, H34. unfold parts3. rewrite Hi. apply In_push. now right.
  - intros c -> Htruthy Hkeys. apply Hin. unfold parts4. rewrite Htruthy, Hkeys.
    apply In_push. now right.
Qed.

End SystemPrompt.

(** ** Dispatcher: where a result comes from *)

Section FallbackFacts.
Context `{RG : Registry}.
Implicit Types (primary name : string) (chain : list string) (args : InvokeArgs).

Lemma attempted_app primary chain chain' :
  attempted primary (chain ++ chain')%list
  = (attempted primary chain ++ attempted primary chain')%list.
Proof. unfold attempted. apply List.filter_app. Qed.

Lemma try_fallbacks_result primary args chain :
  forall acc w r w',
    try_fallbacks primary chain args acc w = (Ret r, w') ->
    fallback r = true /\ In (provider r) chain /\ String.eqb (provider r) primary = false
    /\ exists fb w0, getProvider (provider r) = Some fb
                     /\ invoke fb args w0 = (Ret (output r), w').
Proof.
  induction chain as [|name rest IH]; intros acc w r w'; simpl; [discriminate|].
  destruct (String.eqb name primary) eqn:Hname.
  - intros Hr. destruct (IH _ _ _ _ Hr) as (Hf & Hin & Hne & Hfb). auto.
  - destruct (getProvider name) as [fb|] eqn:Hfb.
    + destruct (invoke fb args w) as [[out|err] w1] eqn:Hinv.
      * intros [= <- <-]. simpl. repeat split; auto. exists fb, w. auto.
      * intros Hr. destruct (IH _ _ _ _ Hr) as (Hf & Hin & Hne & Hfb'). auto.
    + intros Hr. destruct (IH _ _ _ _ Hr) as (Hf & Hin & Hne & Hfb'). auto.
Qed.

(** The loop stops at the first fallback whose call returns. *)
Lemma try_fallbacks_first_success primary args name fb out pre post :
  forall acc w errors w1 w2,
    all_fail args (attempted primary pre) w errors w1 ->
    String.eqb name primary = false ->
    getProvider name = Some fb ->
    invoke fb args w1 = (Ret out, w2) ->
    try_fallbacks primary (pre ++ name :: post)%list args acc w
    = (Ret {| output := out; provider := name; fallback := true |}, w2).
Proof.
  induction pre as [|first pre IH]; intros acc w errors w1 w2 Hfail Hname Hfb Hinv.
  - inversion Hfail; subst. simpl. now rewrite Hname, Hfb, Hinv.
  - rewrite attempted_cons in Hfail. simpl.
    destruct (String.eqb first primary); simpl in Hfail; [now apply (IH _ _ errors w1)|].
    destruct (getProvider first) as [fb1|] eqn:Hfb1.
    + rewrite bool_decide_eq_true_2 in Hfail by eauto.
      inversion Hfail as [|? ? fb' err ? w' errors' ? Hfb' Hinv' Hrest]; subst.
      rewrite Hfb1 in Hfb'. injection Hfb' as <-. rewrite Hinv'.
      now apply (IH _ _ errors' w1).
    + rewrite bool_decide_eq_false_2 in Hfail by (intros [? ?]; discriminate).
      now apply (IH _ _ errors w1).
Qed.

(** Where a result of the dispatcher comes from: either the primary's call
    returned it and it is not marked as a fallback, or it is marked as one,
    names an entry of the chain other than the primary, and is what that
    entry's adapter returned.  The upstream state is the one that call
    left: no provider is called after the one that answers. *)
Theorem dispatch_result_provenance primary (fallbackChain : option (list string)) args
    (w w' : World) (r : DispatchResult) :
  invokeWithFallback primary fallbackChain args w = (Ret r, w') ->
  (fallback r = false /\ provider r = primary
   /\ exists p, getProvider primary = Some p /\ invoke p args w = (Ret (output r), w'))
  \/ (fallback r = true /\ In (provider r) (default [] fallbackChain)
      /\ provider r <> primary
      /\ exists fb w0, getProvider (provider r) = Some fb
                       /\ invoke fb args w0 = (Ret (output r), w')).
Proof.
  assert (Hphase : forall w1, fallback_phase primary fallbackChain args w1 = (Ret r, w') ->
            fallback r = true /\ In (provider r) (default [] fallbackChain)
            /\ provider r <> primary
            /\ exists fb w0, getProvider (provider r) = Some fb
                             /\ invoke fb args w0 = (Ret (output r), w')).
  { intros w1. unfold fallback_phase.
    destruct (has_fallbacks fallbackChain); [|discriminate].
    intros Hr. destruct (try_fallbacks_result _ _ _ _ _ _ _ Hr) as (Hf & Hin & Hne & Hfb).
    apply String.eqb_neq in Hne. auto. }
  unfold invokeWithFallback.
  destruct (getProvider primary) as [p|] eqn:Hp.
  - destruct (invoke p args w) as [[out|err] w1] eqn:Hinv.
    + intros [= <- <-]. left. simpl. repeat split; auto. exists p. auto.
    + destruct (negb (has_fallbacks fallbackChain)); [discriminate|].
      intros Hr. right. now apply (Hphase w1).
  - intros Hr. right. now apply (Hphase w).
Qed.

(** When the primary gives no result, the dispatcher answers with the
    first fallback whose call returns: the entries before it that it
    called have thrown, and the entries after it are not called. *)
Theorem first_working_fallback_answers primary args name (fb : Adapter) (out : string)
    (pre post : list string) (w w0 w1 w2 : World) (errors : list string) :
  primary_fails primary args w w0 ->
  all_fail args (attempted primary pre) w0 errors w1 ->
  name <> primary ->
  getProvider name = Some fb ->
  invoke fb args w1 = (Ret out, w2) ->
  invokeWithFallback primary (Some (pre ++ name :: post)%list) args w
  = (Ret {| output := out; provider := name; fallback := true |}, w2).
Proof.
  intros Hprimary Hfail Hname Hfb Hinv.
  apply String.eqb_neq in Hname.
  assert (Hhas : has_fallbacks (Some (pre ++ name :: post)%list) = true).
  { destruct pre; reflexivity. }
  assert (Hphase : fallback_phase primary (Some (pre ++ name :: post)%list) args w0
            = (Ret {| output := out; provider := name; fallback := true |}, w2)).
  { unfold fallback_phase. rewrite Hhas.
    now apply (try_fallbacks_first_success _ _ _ fb _ _ _ _ _ errors w1). }
  unfold invokeWithFallback, primary_fails in *.
  destruct (getProvider primary) as [p|].
  - destruct Hprimary as (err & ->). now rewrite Hhas.
  - now subst.
Qed.

(** A chain that is not empty but holds nothing to call (only the
    primary's own name and names the registry does not know) turns every
    failure of the primary into the composite error with an empty list:
    the primary's own error is not reported. *)
Theorem skipped_chain_hides_primary_error primary chain args (w w' : World) :
  primary_fails primary args w w' ->
  chain <> [] ->
  attempted primary chain = [] ->
  invokeWithFallback primary (Some chain) args w
  = (Throw (Error "All providers failed: "), w').
Proof.
  intros Hprimary Hne Hnone.
  assert (Hhas : has_fallbacks (Some chain) = true).
  { destruct chain; [congruence | reflexivity]. }
  assert (Hphase : fallback_phase primary (Some chain) args w'
            = (Throw (Error "All providers failed: "), w')).
  { unfold fallback_phase. rewrite Hhas.
    change (default [] (Some chain)) with chain.
    rewrite (try_fallbacks_all_fail primary args chain [] w' [] w'); [reflexivity|].
    rewrite Hnone. constructor. }
  unfold invokeWithFallback, primary_fails in *.
  destruct (getProvider primary) as [p|].
  - destruct Hprimary as (err & ->). now rewrite Hhas.
  - now subst.
Qed.

End FallbackFacts.

Lemma dispatch_result_provenance_example :
  (false = false /\ "ollama" = "ollama"
   /\ exists p, @getProvider (answering "hello") "ollama" = Some p
                /\ @invoke (answering "hello") p example_args tt = (Ret "hello", tt))
  \/ (false = true /\ In "ollama" ["openai"] /\ "ollama" <> "ollama"
      /\ exists fb w0, @getProvider (answering "hello") "ollama" = Some fb
                       /\ @invoke (answering "hello") fb example_args w0 = (Ret "hello", tt)).
Proof.
  apply (@dispatch_result_provenance (answering "hello") "ollama" (Some ["openai"])
           example_args tt tt
           {| output := "hello"; provider := "ollama"; fallback := false |}).
  reflexivity.
Defined.

(** ** Rate limiter: the sliding window *)

Module SlidingWindow.
Import RateLimiter RateLimiterFacts.

Lemma shift_while_split (cutoff : Z) (entries : list Z) :
  exists gone,
    entries = (gone ++ shift_while cutoff entries)%list
    /\ Forall (fun e => e < cutoff) gone.
Proof.
  induction entries as [|e rest (gone & Heq & Hgone)]; simpl.
  - exists []. split; [reflexivity | constructor].
  - destruct (Z.ltb_spec e cutoff) as [He|He].
    + exists (e :: gone). split; [simpl; congruence|]. constructor; assumption.
    + exists []. split; [reflexivity | constructor].
Qed.

Lemma shift_while_app (cutoff : Z) (gone entries : list Z) :
  Forall (fun e => e < cutoff) gone ->
  shift_while cutoff (gone ++ entries)%list = shift_while cutoff entries.
Proof.
  induction 1 as [|e gone He _ IH]; [reflexivity|]. simpl.
  destruct (Z.ltb_spec e cutoff); [exact IH | lia].
Qed.

Lemma shift_while_sorted (cutoff : Z) (entries : list Z) :
  nondecreasing entries ->
  shift_while cutoff entries = List.filter (fun t => cutoff <=? t) entries.
Proof.
  induction entries as [|e rest IH]; [reflexivity|]. intros [Hle Hrest]. simpl.
  destruct (Z.ltb_spec e cutoff) as [He|He].
  - destruct (Z.leb_spec cutoff e); [lia|]. now apply IH.
  - destruct (Z.leb_spec cutoff e); [|lia]. f_equal.
    clear IH Hrest. induction Hle as [|u rest Hu _ IH]; [reflexivity|]. simpl.
    destruct (Z.leb_spec cutoff u); [|lia]. now rewrite <- IH.
Qed.

Lemma nondecreasing_app (l l' : list Z) :
  nondecreasing (l ++ l')%list ->
  nondecreasing l /\ nondecreasing l' /\ Forall (fun t => Forall (fun u => t <= u) l') l.
Proof.
  induction l as [|t l IH]; simpl.
  - intros Hl'. repeat split; [exact Hl' | constructor].
  - intros [Hle Hrest]. apply List.Forall_app in Hle as [Hl Hl'].
    destruct (IH Hrest) as (Hs & Hs' & Hall). repeat split; auto.
Qed.

Lemma recorded_app (agent : string) (calls calls' : list call) :
  recorded agent (calls ++ calls')%list
  = (recorded agent calls ++ recorded agent calls')%list.
Proof.
  induction calls as [|c calls IH]; [reflexivity|]. simpl.
  destruct c as [t a| |]; auto. destruct (String.eqb a agent); simpl; congruence.
Qed.

Lemma recorded_times (agent : string) (calls : list call) (P : Z -> Prop) :
  Forall P (map time_of calls) -> Forall P (recorded agent calls).
Proof.
  induction calls as [|c calls IH]; simpl; intros Hall; [constructor|].
  apply List.Forall_cons_iff in Hall as [Hc Hall].
  destruct c as [t a| |]; auto. destruct (String.eqb a agent); auto.
Qed.

Lemma recorded_nondecreasing (agent : string) (calls : list call) :
  nondecreasing (map time_of calls) -> nondecreasing (recorded agent calls).
Proof.
  induction calls as [|c calls IH]; simpl; [auto|]. intros [Hle Hrest].
  destruct c as [t a| |]; auto. destruct (String.eqb a agent); auto.
  split; [|auto]. now apply recorded_times.
Qed.

Lemma run_app (calls calls' : list call) (w : windows) :
  run (calls ++ calls')%list w = run calls' (run calls w).
Proof. apply fold_left_app. Qed.

(** What one call does to the array of an agent: [record] appends its
    reading, [check] and [getUsage] drop a prefix of entries older than
    their cutoff. *)
Lemma step_entries (agent : string) (w : windows) (c : call) :
  exists gone,
    (entries_of agent w ++ recorded agent [c])%list
    = (gone ++ entries_of agent (step w c))%list
    /\ Forall (fun e => e < time_of c - 60000) gone.
Proof.
  destruct c as [t a | t a limit | t a]; simpl.
  - exists []. split; [|constructor]. simpl. unfold record. rewrite entries_insert.
    destruct (String.eqb_spec a agent) as [->|].
    + fold (entries_of agent (ensure agent w)). now rewrite entries_ensure.
    + rewrite entries_ensure. apply app_nil_r.
  - rewrite app_nil_r. unfold check.
    destruct ((limit =? 0) || (limit <=? 0)).
    + exists []. split; [reflexivity | constructor].
    + simpl. rewrite entries_insert.
      destruct (String.eqb_spec a agent) as [->|].
      * fold (entries_of agent (ensure agent w)). rewrite entries_ensure.
        apply shift_while_split.
      * rewrite entries_ensure. exists []. split; [reflexivity | constructor].
  - rewrite app_nil_r. unfold getUsage.
    destruct (w !! a) as [entries0|] eqn:Ha.
    + simpl. rewrite entries_insert.
      destruct (String.eqb_spec a agent) as [->|].
      * assert (Heq : entries_of agent w = entries0).
        { unfold entries_of. now rewrite Ha. }
        rewrite Heq. apply shift_while_split.
      * exists []. split; [reflexivity | constructor].
    + exists []. split; [reflexivity | constructor].
Qed.

(** The array of an agent holds the readings recorded for it, less a
    prefix of readings that were older than the cutoff of some call. *)
Lemma run_keeps_recent (agent : string) (calls : list call) :
  exists gone,
    recorded agent calls = (gone ++ entries_of agent (run calls RateLimiter.empty))%list
    /\ Forall (fun e => exists t, In t (map time_of calls) /\ e < t - 60000) gone.
Proof.
  induction calls as [|c calls (gone & Heq & Hgone)] using rev_ind.
  - exists []. split; [|constructor]. simpl.
    unfold entries_of, RateLimiter.empty. now rewrite lookup_empty.
  - rewrite recorded_app, run_app, Heq. simpl.
    destruct (step_entries agent (run calls RateLimiter.empty) c) as (gone' & Heq' & Hgone').
    exists (gone ++ gone')%list. split.
    + rewrite <- !app_assoc. f_equal. exact Heq'.
    + apply List.Forall_app. split.
      * eapply List.Forall_impl; [|exact Hgone]. intros e (t & Hin & He).
        exists t. split; [|exact He]. rewrite map_app. apply in_or_app. now left.
      * eapply List.Forall_impl; [|exact Hgone']. intros e He.
        exists (time_of c). split; [|exact He].
        rewrite map_app. apply in_or_app. right. now left.
Qed.

Lemma pruned_entries (now : Z) (agent : string) (calls : list call) :
  nondecreasing (map time_of calls ++ [now])%list ->
  shift_while (now - 60000) (entries_of agent (run calls RateLimiter.empty))
  = in_last_minute now (recorded agent calls).
Proof.
  intros Hsorted. apply nondecreasing_app in Hsorted as (Htimes & _ & Hnow).
  destruct (run_keeps_recent agent calls) as (gone & Heq & Hgone).
  unfold in_last_minute.
  rewrite <- (shift_while_sorted _ _ (recorded_nondecreasing agent calls Htimes)).
  rewrite Heq. symmetry. apply shift_while_app.
  eapply List.Forall_impl; [|exact Hgone]. intros e (t & Hin & He).
  rewrite List.Forall_forall in Hnow. specialize (Hnow t Hin).
  apply List.Forall_cons_iff in Hnow as [Hle _]. lia.
Qed.

(** For any sequence of calls on a fresh limiter whose clock never goes
    back, the usage of an agent at [now] is the number of [record] calls
    made for it in the 60 seconds that end at [now]: older ones have
    expired, whichever calls pruned them.  [check] with a positive limit
    holds exactly when that number is below the limit. *)
Theorem usage_is_sliding_window (now : Z) (agent : string) (calls : list call) :
  nondecreasing (map time_of calls ++ [now])%list ->
  let w := run calls RateLimiter.empty in
  let usage := Z.of_nat (length (in_last_minute now (recorded agent calls))) in
  fst (getUsage now agent w) = usage
  /\ (forall limit, 0 < limit ->
        (fst (check now agent limit w) = true <-> usage < limit)).
Proof.
  intros Hsorted w usage.
  pose proof (pruned_entries now agent calls Hsorted) as Hpruned. fold w in Hpruned.
  split.
  - unfold getUsage. unfold entries_of in Hpruned.
    destruct (w !! agent) as [entries0|]; simpl in *.
    + unfold _prune. now rewrite Hpruned.
    + unfold usage. now rewrite <- Hpruned.
  - intros limit Hlimit. unfold check.
    destruct (Z.eqb_spec limit 0); [lia|].
    destruct (Z.leb_spec limit 0); [lia|]. simpl.
    fold (entries_of agent (ensure agent w)). rewrite entries_ensure.
    unfold _prune. rewrite Hpruned. fold usage. apply Z.ltb_lt.
Qed.

Lemma usage_is_sliding_window_example :
  fst (getUsage 60005 "test-agent" (run test_suite_calls RateLimiter.empty)) = 2
  /\ (forall limit, 0 < limit ->
        (fst (check 60005 "test-agent" limit (run test_suite_calls RateLimiter.empty)) = true
         <-> 2 < limit)).
Proof.
  apply (usage_is_sliding_window 60005 "test-agent" test_suite_calls).
  simpl. repeat split; repeat constructor; lia.
Defined.

End SlidingWindow.

(** ** Metrics: totals *)

Lemma sum_permutation (l l' : list (string * Z)) :
  l ≡ₚ l' -> fold_right Z.add 0 (map snd l) = fold_right Z.add 0 (map snd l').
Proof. induction 1; simpl; lia. Qed.

Lemma counter_total_insert (key : string) (v : Z) (counters : gmap string Z) :
  counter_total (<[key := v]> counters)
  = counter_total counters - default 0 (counters !! key) + v.
Proof.
  unfold counter_total. destruct (counters !! key) as [old|] eqn:Hkey; simpl.
  - rewrite <- insert_delete_eq.
    rewrite (sum_permutation _ _ (map_to_list_insert (delete key counters) key v
                                    (lookup_delete_eq counters key))).
    rewrite <- (sum_permutation _ _ (map_to_list_delete counters key old Hkey)).
    simpl. lia.
  - rewrite (sum_permutation _ _ (map_to_list_insert counters key v Hkey)). simpl. lia.
Qed.

Lemma counter_total_bump (key : string) (counters : gmap string Z) :
  counter_total (Metrics.bump key counters) = counter_total counters + 1.
Proof. unfold Metrics.bump. rewrite counter_total_insert. lia. Qed.

(** A statement [counters[key] = (counters[key] || 0) + 1] adds one to
    the numbers of the table, or leaves them as they are; it adds one
    when the key names no member of [Object.prototype]. *)
Lemma counter_total_bump_count (key : string) (counts : gmap string Z)
    (texts : gmap string string) :
  counter_total counts <= counter_total (Metrics.bump_count key counts texts)
                       <= counter_total counts + 1
  /\ (inherited key = false ->
      counter_total (Metrics.bump_count key counts texts) = counter_total counts + 1).
Proof.
  split.
  - unfold Metrics.bump_count, Metrics.read.
    destruct (counts !! key) as [n|] eqn:Hkey; [rewrite counter_total_bump; lia|].
    destruct (inherited key); [|rewrite counter_total_bump; lia].
    destruct (texts !! key) as [s|]; [|lia].
    destruct (String.eqb s ""); [|lia].
    rewrite counter_total_insert, Hkey. simpl. lia.
  - intros Hplain. rewrite bump_count_plain by exact Hplain. apply counter_total_bump.
Qed.

Section MetricsTotals.
Context `{RT : Runtime} `{RG : Registry}.

Lemma record_totals (agent : option string) (provider : option value) (status : string)
    (m : Metrics.t) :
  let m' := Metrics.record agent provider status m in
  Metrics.totalRequests m' = Metrics.totalRequests m + 1
  /\ Metrics.totalOk m' + Metrics.totalErrors m'
     = Metrics.totalOk m + Metrics.totalErrors m + 1
  /\ counter_total (Metrics.byAgent m) <= counter_total (Metrics.byAgent m')
     <= counter_total (Metrics.byAgent m) + 1
  /\ (inherited (Metrics.agent_key agent) = false ->
      counter_total (Metrics.byAgent m') = counter_total (Metrics.byAgent m) + 1)
  /\ counter_total (Metrics.byProvider m) <= counter_total (Metrics.byProvider m')
     <= counter_total (Metrics.byProvider m) + 1.
Proof.
  cbv zeta. unfold Metrics.record. cbv zeta.
  cbn [Metrics.totalRequests Metrics.totalOk Metrics.totalErrors Metrics.byAgent
       Metrics.byProvider].
  split; [reflexivity|]. split; [destruct (String.eqb status "ok"); lia|].
  split; [apply counter_total_bump_count|]. split; [apply counter_total_bump_count|].
  destruct provider as [p|]; [|lia]. destruct (value_truthy p); [|lia].
  apply counter_total_bump_count.
Qed.

Lemma state_after_cons (s : Served) (served : list Served) (p : Process.t) :
  state_after (s :: served) p = state_after served (after s).
Proof.
  unfold state_after. rewrite last_cons. now destruct (last served).
Qed.

(** Whatever requests a process serves, its counters stay consistent:
    [totalRequests] grows by the number of requests, every request is
    counted once as ok or as error, and the numbers of [byAgent] and of
    [byProvider] grow by at most the number of requests in total.  The
    numbers of [byAgent] grow by exactly that when no request names an
    agent after a member of [Object.prototype]: such a request is counted
    in [totalRequests] and under no number of [byAgent]. *)
Theorem metrics_totals_agree (cfg : Config) (reqs : list (Env * Request)) (p : Process.t) :
  let served := serve cfg reqs p in
  let m0 := Process.metrics p in
  let m := Process.metrics (state_after served p) in
  let n := Z.of_nat (length reqs) in
  Metrics.totalRequests m = Metrics.totalRequests m0 + n
  /\ Metrics.totalOk m + Metrics.totalErrors m
     = Metrics.totalOk m0 + Metrics.totalErrors m0 + n
  /\ counter_total (Metrics.byAgent m0) <= counter_total (Metrics.byAgent m)
     <= counter_total (Metrics.byAgent m0) + n
  /\ (Forall (fun s => inherited (Metrics.agent_key (Locals.agentName (served_locals s)))
                       = false) served ->
      counter_total (Metrics.byAgent m) = counter_total (Metrics.byAgent m0) + n)
  /\ counter_total (Metrics.byProvider m0) <= counter_total (Metrics.byProvider m)
     <= counter_total (Metrics.byProvider m0) + n.
Proof.
  cbv zeta. revert p. induction reqs as [|[env req] rest IH]; intros p.
  - simpl. unfold state_after. simpl. repeat split; lia.
  - cbn [serve]. cbv zeta. rewrite state_after_cons.
    specialize (IH (after (handle cfg env req p))).
    destruct IH as (Hn & Hok & Hagent & Hplain & Hprovider).
    pose proof (handle_metrics cfg env req p) as Hm. cbv zeta in Hm.
    rewrite Hm in Hn, Hok, Hagent, Hplain, Hprovider.
    match type of Hn with context [Metrics.record ?a ?b ?c ?m] =>
      destruct (record_totals a b c m) as (Hn1 & Hok1 & Hagent1 & Hplain1 & Hprovider1)
    end.
    cbn [length]. repeat split; try lia.
    intros Hall. apply Forall_cons in Hall as [Hfirst Hrest].
    specialize (Hplain Hrest). specialize (Hplain1 Hfirst). lia.
Qed.

End MetricsTotals.

(** ** Disciplines: rules *)

Section Disciplines.
Context `{RT : Runtime} `{RG : Registry} (D : Discipline) `{!Lawful D}.

Lemma drift_refl s : drift D s s.
Proof. now apply drift_frame. Qed.

Lemma calm_preserves {A : Type} (m : M A) : preserves (footprint D) m -> calm D m.
Proof. intros Hm s. apply drift_frame, Hm. Qed.

Lemma calm_bind {A B : Type} (m : M A) (k : A -> M B) :
  calm D m -> (forall a, calm D (k a)) -> calm D (bind m k).
Proof.
  intros Hm Hk s. unfold bind. specialize (Hm s).
  destruct (m s) as [[a|e] s']; simpl in *; [|exact Hm].
  eapply drift_trans; [exact Hm | apply Hk].
Qed.

Lemma calm_try_catch {A : Type} (body : M A) (handler : JsError -> M A) :
  calm D body -> (forall e, calm D (handler e)) -> calm D (try_catch body handler).
Proof.
  intros Hm Hk s. unfold try_catch. specialize (Hm s).
  destruct (body s) as [[a|e] s']; simpl in *; [exact Hm|].
  eapply drift_trans; [exact Hm | apply Hk].
Qed.

Lemma calm_mapM {A B : Type} (g : A -> M B) (l : list A) :
  (forall a, calm D (g a)) -> calm D (mapM g l).
Proof.
  intros Hg. induction l as [|a l IH]; simpl.
  - intros s. apply drift_refl.
  - apply calm_bind; [apply Hg|]. intros b.
    apply calm_bind; [exact IH|]. intros bs s. apply drift_refl.
Qed.

Lemma settles_send code payload :
  (forall s, answer D s (snd (send code payload s)) (code, with_error_output payload)) ->
  settles D (send code payload).
Proof.
  intros Hok s. specialize (Hok s). revert Hok.
  unfold send, bind, update_locals, write_response. simpl. intros Hok.
  eexists. split; [reflexivity | exact Hok].
Qed.

Lemma settles_throw {A : Type} (e : JsError) : settles D (throw e : M A).
Proof. intros s. split; [reflexivity | apply drift_refl]. Qed.

Lemma settles_bind {A B : Type} (m : M A) (k : A -> M B) :
  preserves sent_of m -> calm D m -> (forall a, settles D (k a)) ->
  settles D (bind m k).
Proof.
  intros Hsent Hm Hk s. unfold bind. specialize (Hsent s). specialize (Hm s).
  unfold sent_of in Hsent.
  destruct (m s) as [[a|e] s']; simpl in *; [|split; assumption].
  specialize (Hk a s'). destruct (k a s') as [[b|e] s''].
  - destruct Hk as (r & Hr & Hok). exists r. rewrite <- Hsent.
    split; [exact Hr|]. eapply answer_after; eassumption.
  - destruct Hk as (Hr & Hdrift). rewrite <- Hsent.
    split; [exact Hr|]. eapply drift_trans; eassumption.
Qed.

(** The continuation of an awaited promise runs when it was fulfilled. *)
Lemma settles_await {A B : Type} (o : outcome A) (k : A -> M B) :
  (forall a, o = Ret a -> settles D (k a)) -> settles D (bind (await o) k).
Proof.
  intros Hk s. unfold bind, await. destruct o as [a|e].
  - exact (Hk a eq_refl s).
  - split; [reflexivity | apply drift_refl].
Qed.

Lemma settles_loadPolicy {B : Type} (env : Env)
    (k : Policy * gmap string AgentPolicy -> M B) :
  (forall policy table,
     policy_file env = Ret (Some policy) -> agents policy = Some table ->
     settles D (k (policy, table))) ->
  settles D (bind (loadPolicy env) k).
Proof.
  intros Hk s. unfold bind, loadPolicy, bind, await, throw, ret.
  destruct (policy_file env) as [[policy|]|e]; simpl;
    try (split; [reflexivity | apply drift_refl]).
  destruct (agents policy) as [table|] eqn:Htable; simpl;
    try (split; [reflexivity | apply drift_refl]).
  exact (Hk policy table eq_refl Htable s).
Qed.

Lemma settles_try_catch {A : Type} (body : M A) (handler : JsError -> M A) :
  settles D body -> (forall e, settles D (handler e)) ->
  settles D (try_catch body handler).
Proof.
  intros Hm Hk s. unfold try_catch. specialize (Hm s).
  destruct (body s) as [[a|e] s']; [exact Hm|].
  destruct Hm as (Hsent & Hdrift).
  specialize (Hk e s'). destruct (handler e s') as [[b|e'] s''].
  - destruct Hk as (r & Hr & Hok). exists r. rewrite <- Hsent.
    split; [exact Hr|]. eapply answer_after; eassumption.
  - destruct Hk as (Hr & Hdrift'). rewrite <- Hsent.
    split; [exact Hr|]. eapply drift_trans; eassumption.
Qed.

End Disciplines.

Create HintDb calm discriminated.

(** The instance of [Lawful] a rule asks for. *)
Ltac lawful := try lazymatch goal with |- Lawful _ => exact _ end.

Ltac calm_step :=
  lazymatch goal with
  | |- calm _ ?m =>
      first
        [ solve [apply calm_preserves; lawful; frame]
        | solve [auto with calm]
        | lazymatch m with
          | bind _ _ => apply calm_bind; lawful; [|intros ?]
          | try_catch _ _ => apply calm_try_catch; lawful; [|intros ?]
          | mapM _ _ => apply calm_mapM; lawful; intros ?
          | if ?b then _ else _ => destruct b
          | match ?x with _ => _ end => destruct x
          | let _ := _ in _ => cbv zeta
          | _ => let h := head_of m in progress unfold h
          end ]
  end.

Ltac calm_tac := repeat calm_step.

(** One step in the proof that a computation settles; the side condition
    of a [send] is left to the caller, and so is a step that does not stay
    within the drift. *)
Ltac settle_step :=
  lazymatch goal with
  | |- settles _ (bind (await _) _) => apply settles_await; lawful; intros ? ?
  | |- settles _ (bind (loadPolicy _) _) =>
      apply settles_loadPolicy; lawful; intros ? ? ? ?
  | |- settles _ (bind _ _) =>
      apply settles_bind; lawful; [solve [frame] | solve [calm_tac] | intros ?]
  | |- settles _ (try_catch _ _) => apply settles_try_catch; lawful; [|intros ?]
  | |- settles _ (send _ _) => fail
  | |- settles _ (throw _) => apply settles_throw; lawful
  | |- settles _ (if ?b then _ else _) => destruct b eqn:?
  | |- settles _ (match ?x with _ => _ end) => destruct x eqn:?
  | |- settles _ (let _ := _ in _) => cbv zeta
  | |- settles _ ?m => let h := head_of m in progress unfold h
  end.

Ltac settle := repeat settle_step.

(** ** Envelopes *)

Section Envelopes.
Context `{RT : Runtime} `{RG : Registry}.

Lemma before_finally_start cfg env req p :
  before_finally cfg env req p
  = snd (try_catch (routes cfg env req (request_uuid env) (clock env O))
                   (catch_block env (request_uuid env) (clock env O))
           (request_start p)).
Proof. reflexivity. Qed.

(** What the one response of a request satisfies, given what the [try]
    and [catch] blocks guarantee. *)
Lemma handle_responds (ok : Z * list (string * json) -> bool) cfg env req p :
  responds ok (try_catch (routes cfg env req (request_uuid env) (clock env O))
                         (catch_block env (request_uuid env) (clock env O))) ->
  exists r, responses (handle cfg env req p) = [r] /\ ok r = true.
Proof.
  intros Hok. rewrite responses_of_handle. specialize (Hok (request_start p)).
  destruct (attempt_returns cfg env req (request_uuid env) (clock env O) (request_start p))
    as (s1 & Hret).
  unfold request_start in *. rewrite Hret in *. exact Hok.
Qed.

Lemma handle_settles (D : Discipline) cfg env req p :
  settles D (try_catch (routes cfg env req (request_uuid env) (clock env O))
                       (catch_block env (request_uuid env) (clock env O))) ->
  exists r,
    responses (handle cfg env req p) = [r]
    /\ answer D (request_start p) (before_finally cfg env req p) r.
Proof.
  intros Hok. rewrite responses_of_handle, before_finally_start.
  specialize (Hok (request_start p)).
  destruct (attempt_returns cfg env req (request_uuid env) (clock env O) (request_start p))
    as (s1 & Hret).
  unfold request_start in *. rewrite Hret in *. exact Hok.
Qed.

Lemma served_locals_before cfg env req p :
  served_locals (handle cfg env req p) = locals (before_finally cfg env req p).
Proof.
  destruct (handle_unfold cfg env req p) as (-> & _ & _).
  now destruct (finally_records_metrics env req (request_uuid env)
                  (before_finally cfg env req p)) as (_ & ->).
Qed.

Lemma catch_block_matches env requestId startTime error :
  responds code_matches_status (catch_block env requestId startTime error).
Proof.
  responds_tac.
  catch_cases;
    apply responds_send; reflexivity.
Qed.

Lemma routes_match cfg env req requestId startTime :
  responds code_matches_status (routes cfg env req requestId startTime).
Proof. responds_tac. Qed.

(** The status code of every response agrees with its envelope: 200 goes
    with the status "ok", every other code with the status "error". *)
Theorem status_code_matches_envelope (cfg : Config) (env : Env) (req : Request)
    (p : Process.t) :
  exists code payload,
    responses (handle cfg env req p) = [(code, payload)]
    /\ (code = 200 <-> field_is "status" "ok" payload = true)
    /\ (code = 200 \/ field_is "status" "error" payload = true).
Proof.
  destruct (handle_responds code_matches_status cfg env req p) as ([code payload] & Hsent & Hok).
  { apply responds_try_catch; [apply routes_match | intros e; apply catch_block_matches]. }
  exists code, payload. split; [exact Hsent|].
  unfold code_matches_status in Hok. simpl in Hok.
  destruct (Z.eqb_spec code 200) as [->|Hne].
  - split; [tauto | now left].
  - split; [|now right]. split; [contradiction|].
    intros Hokay. unfold field_is in *.
    destruct (assoc "status" payload) as [[| | |st| |]|]; try discriminate.
    apply String.eqb_eq in Hok, Hokay. congruence.
Qed.

End Envelopes.

(** ** The status that is counted *)

#[local] Instance reports_status_lawful `{Registry} : Lawful reports_status.
Proof. split; simpl; auto. Qed.

Section StatusReports.
Context `{RT : Runtime} `{RG : Registry}.

Lemma routes_report_status cfg env req requestId startTime :
  settles reports_status (routes cfg env req requestId startTime).
Proof.
  settle.
  all: apply settles_send; intros ?; reflexivity.
Qed.

Lemma catch_block_reports_status env requestId startTime error :
  settles reports_status (catch_block env requestId startTime error).
Proof.
  settle.
  catch_cases;
    apply settles_send; intros ?; reflexivity.
Qed.

(** The status the [finally] block counts is the status of the response
    that was sent: [totalOk] grows by one exactly for a response whose
    status is "ok", and [totalErrors] for every other response. *)
Theorem metrics_follow_response (cfg : Config) (env : Env) (req : Request)
    (p : Process.t) :
  let s := handle cfg env req p in
  exists code payload,
    responses s = [(code, payload)]
    /\ field_is "status" (Locals.status (served_locals s)) payload = true
    /\ Metrics.totalOk (Process.metrics (after s))
       = Metrics.totalOk (Process.metrics p)
         + (if field_is "status" "ok" payload then 1 else 0)
    /\ Metrics.totalErrors (Process.metrics (after s))
       = Metrics.totalErrors (Process.metrics p)
         + (if field_is "status" "ok" payload then 0 else 1).
Proof.
  cbv zeta.
  destruct (handle_settles reports_status cfg env req p) as ([code payload] & Hsent & Hok).
  { apply settles_try_catch; lawful; [apply routes_report_status|].
    intros e. apply catch_block_reports_status. }
  exists code, payload. split; [exact Hsent|].
  simpl in Hok. rewrite <- served_locals_before in Hok.
  split; [exact Hok|].
  pose proof (handle_metrics cfg env req p) as Hm. cbv zeta in Hm. rewrite Hm.
  cbn [Metrics.record Metrics.totalOk Metrics.totalErrors].
  assert (Hstatus : String.eqb (Locals.status (served_locals (handle cfg env req p))) "ok"
                    = field_is "status" "ok" payload).
  { unfold field_is in *.
    destruct (assoc "status" payload) as [[| | |st| |]|]; try discriminate.
    apply String.eqb_eq in Hok. now rewrite Hok. }
  rewrite Hstatus. destruct (field_is "status" "ok" payload); lia.
Qed.

End StatusReports.

(** ** Quota *)

Lemma no_growth_refl (w : gmap string (list Z)) : no_growth w w.
Proof. intros agent. lia. Qed.

Lemma no_growth_trans (w1 w2 w3 : gmap string (list Z)) :
  no_growth w1 w2 -> no_growth w2 w3 -> no_growth w1 w3.
Proof. intros H12 H23 agent. specialize (H12 agent). specialize (H23 agent). lia. Qed.

Lemma shift_while_length (cutoff : Z) (entries : list Z) :
  (length (RateLimiter.shift_while cutoff entries) <= length entries)%nat.
Proof.
  induction entries as [|e rest IH]; simpl; [lia|].
  destruct (e <? cutoff); simpl; lia.
Qed.

Lemma no_growth_check (now : Z) (agent : string) (limit : Z) (w : gmap string (list Z)) :
  no_growth w (snd (RateLimiter.check now agent limit w)).
Proof.
  intros a. unfold RateLimiter.check.
  destruct ((limit =? 0) || (limit <=? 0)); simpl; [lia|].
  rewrite RateLimiterFacts.entries_insert.
  destruct (String.eqb_spec agent a) as [->|].
  - fold (RateLimiter.entries_of a (RateLimiter.ensure a w)).
    rewrite RateLimiterFacts.entries_ensure. apply shift_while_length.
  - rewrite RateLimiterFacts.entries_ensure. lia.
Qed.

Lemma no_growth_getUsage (now : Z) (agent : string) (w : gmap string (list Z)) :
  no_growth w (snd (RateLimiter.getUsage now agent w)).
Proof.
  intros a. unfold RateLimiter.getUsage.
  destruct (w !! agent) as [entries0|] eqn:Hagent; simpl; [|lia].
  rewrite RateLimiterFacts.entries_insert.
  destruct (String.eqb_spec agent a) as [->|]; [|lia].
  unfold RateLimiter.entries_of. rewrite Hagent. apply shift_while_length.
Qed.

#[local] Instance spends_quota_lawful `{Registry} : Lawful spends_quota.
Proof.
  split; simpl.
  - intros s s' ->. apply no_growth_refl.
  - intros s1 s2 s3. apply no_growth_trans.
  - intros s1 s2 s3 r H12 H23 Hcode. eapply no_growth_trans; eauto.
Qed.

#[local] Instance gatekeeper_lawful `{Registry} (admitted : Prop) :
  Lawful (gatekeeper admitted).
Proof.
  split; simpl.
  - intros s s' ->. now right.
  - intros s1 s2 s3 [?|H12] [?|H23]; auto. right. congruence.
  - intros s1 s2 s3 r [?|H12] [Hcode [?|H23]]; auto. split; [exact Hcode|].
    right. congruence.
Qed.

Section Quota.
Context `{RT : Runtime} `{RG : Registry}.

Lemma calm_limiter_check env name limit :
  calm spends_quota (limiter_check env name limit).
Proof.
  intros s. unfold limiter_check.
  destruct ((limit =? 0) || (limit <=? 0)); simpl; [apply no_growth_refl|].
  apply no_growth_check.
Qed.

Lemma calm_limiter_getUsage env name :
  calm spends_quota (limiter_getUsage env name).
Proof.
  intros s. unfold limiter_getUsage, bind, gets. simpl.
  destruct (Process.rateLimiter (process s) !! name) eqn:Hname; simpl.
  - apply no_growth_getUsage.
  - apply no_growth_refl.
Qed.

End Quota.

#[local] Hint Resolve calm_limiter_check calm_limiter_getUsage : calm.

Section QuotaFacts.
Context `{RT : Runtime} `{RG : Registry}.

(** After a successful dispatch the handler records one timestamp and
    answers 200; nothing in between can throw. *)
Lemma settles_record agent env (k : M unit) :
  (forall s, exists s' payload,
     k s = (Ret tt, s') /\ sent s' = push (sent s) (200, payload)) ->
  settles spends_quota (limiter_record env agent ;; k).
Proof.
  intros Hk s. unfold bind, limiter_record, bind, Date_now, gets, update_process. simpl.
  match goal with |- context [k ?s1] => destruct (Hk s1) as (s' & payload & -> & Hsent) end.
  exists (200, payload). split; [exact Hsent|]. simpl. intros Hcode. contradiction.
Qed.

Lemma route_agent_spends_quota cfg env req requestId startTime :
  settles spends_quota (route_agent cfg env req requestId startTime).
Proof.
  settle.
  all: try (apply settles_send; intros ? _; apply no_growth_refl).
  apply settles_record. intros s. eexists; eexists. split; reflexivity.
Qed.

Lemma routes_agent cfg env req requestId startTime :
  agent_route req = true ->
  routes cfg env req requestId startTime = route_agent cfg env req requestId startTime.
Proof.
  unfold agent_route. intros Hroute. apply andb_true_iff in Hroute as [Hm Hu].
  apply String.eqb_eq in Hm. apply String.eqb_eq in Hu.
  unfold routes. now rewrite Hm, Hu.
Qed.

Lemma routes_other (req : Request) :
  agent_route req = false ->
  negb (String.eqb (method req) "POST") || negb (String.eqb (url req) "/v1/agent") = true.
Proof. unfold agent_route. intros Hroute. rewrite <- negb_andb. now rewrite Hroute. Qed.

Lemma finally_keeps_limiter env req requestId :
  preserves limiter_of (finally_block env req requestId).
Proof. frame. Qed.

Lemma after_limiter cfg env req p :
  Process.rateLimiter (after (handle cfg env req p))
  = limiter_of (before_finally cfg env req p).
Proof.
  destruct (handle_unfold cfg env req p) as (_ & -> & _).
  exact (finally_keeps_limiter env req (request_uuid env) _).
Qed.

Lemma catch_block_spends_quota env requestId startTime error :
  settles spends_quota (catch_block env requestId startTime error).
Proof.
  settle.
  catch_cases;
    apply settles_send; intros ? _; apply no_growth_refl.
Qed.

Lemma other_routes_keep_quota cfg env req requestId startTime :
  agent_route req = false ->
  calm spends_quota
    (try_catch (routes cfg env req requestId startTime)
               (catch_block env requestId startTime)).
Proof.
  intros Hroute. unfold routes. cbv zeta. rewrite (routes_other req Hroute).
  calm_tac.
Qed.

Lemma attempt_responds_something cfg env req requestId startTime :
  responds (fun _ => true)
    (try_catch (routes cfg env req requestId startTime)
               (catch_block env requestId startTime)).
Proof.
  apply responds_try_catch; [responds_tac|]. intros e. responds_tac.
Qed.

(** A request that is not a POST /v1/agent answered with 200 leaves no
    window of the rate limiter larger than it was. *)
Lemma quota_kept_without_success cfg env req p :
  exists code payload,
    responses (handle cfg env req p) = [(code, payload)]
    /\ (agent_route req = false \/ code <> 200 ->
        no_growth (Process.rateLimiter p)
          (Process.rateLimiter (after (handle cfg env req p)))).
Proof.
  rewrite after_limiter.
  destruct (agent_route req) eqn:Hroute.
  - destruct (handle_settles spends_quota cfg env req p)
      as ([code payload] & Hsent & Hok).
    { rewrite (routes_agent _ _ _ _ _ Hroute).
      apply settles_try_catch; lawful; [apply route_agent_spends_quota|].
      intros e. apply catch_block_spends_quota. }
    exists code, payload. split; [exact Hsent|]. simpl in Hok.
    intros [?|Hcode]; [discriminate | exact (Hok Hcode)].
  - destruct (handle_responds (fun _ => true) cfg env req p) as ([code payload] & Hsent & _).
    { apply attempt_responds_something. }
    exists code, payload. split; [exact Hsent|]. intros _.
    exact (other_routes_keep_quota cfg env req _ _ Hroute (request_start p)).
Qed.

End QuotaFacts.

(** ** The gates of POST /v1/agent *)

Section Gatekeeping.
Context `{RT : Runtime} `{RG : Registry}.

(** Once the request is known to be admitted, the discipline asks for
    nothing more than one response. *)
Lemma settles_admitted (Q : Prop) {A : Type} (m : M A) :
  Q -> responds (fun _ => true) m -> settles (gatekeeper Q) m.
Proof.
  intros HQ Hm s. specialize (Hm s). destruct (m s) as [[a|e] s'].
  - destruct Hm as (r & Hsent & _). exists r. simpl. auto.
  - simpl. auto.
Qed.

Lemma intent_allowed (agentPolicy : AgentPolicy) (intent : string) :
  negb match allowed_intents agentPolicy with
       | Some intents => str_in intent intents
       | None => false
       end = false ->
  exists intents,
    allowed_intents agentPolicy = Some intents /\ str_in intent intents = true.
Proof.
  destruct (allowed_intents agentPolicy) as [intents|]; [|discriminate].
  intros Hin. apply negb_false_iff in Hin. eauto.
Qed.

Lemma input_within_budget (agentPolicy : AgentPolicy) (bytes : Z) :
  num_truthy (max_input_bytes agentPolicy)
  && (bytes >? default 0 (max_input_bytes agentPolicy)) = false ->
  forall budget,
    max_input_bytes agentPolicy = Some budget -> budget <> 0 -> bytes <= budget.
Proof.
  intros Hfits budget Hbudget Hne. rewrite Hbudget in Hfits. simpl in Hfits.
  apply Z.eqb_neq in Hne. rewrite Hne in Hfits. simpl in Hfits.
  destruct (Z.gtb_spec bytes budget); [discriminate | lia].
Qed.

Lemma provider_allowed (agentPolicy : AgentPolicy) (providerName : value) :
  match allowed_providers agentPolicy with
  | Some names =>
      negb match providerName with
           | Data (JStr name) => str_in name names
           | _ => false
           end
  | None => false
  end = false ->
  forall names,
    allowed_providers agentPolicy = Some names ->
    exists name, providerName = Data (JStr name) /\ str_in name names = true.
Proof.
  intros Hallowed names Hnames. rewrite Hnames in Hallowed.
  apply negb_false_iff in Hallowed.
  destruct providerName as [[| | |name| |]|member]; try discriminate. eauto.
Qed.

(** An agent whose policy allows an intent is one that [agents] holds: the
    member of [Object.prototype] that another name finds allows none. *)
Lemma agent_policy_own (table : gmap string AgentPolicy) (agentName : string)
    (agentPolicy : AgentPolicy) (intents : list string) :
  agent_policy table agentName = Some agentPolicy ->
  allowed_intents agentPolicy = Some intents ->
  table !! agentName = Some agentPolicy.
Proof.
  unfold agent_policy. destruct (table !! agentName) as [own|]; [congruence|].
  destruct (inherited agentName); [|discriminate].
  intros [= <-]. discriminate.
Qed.

Lemma route_agent_gatekeeper cfg env req requestId startTime :
  settles (gatekeeper (admitted cfg env req))
    (route_agent cfg env req requestId startTime).
Proof.
  settle.
  all: try (apply settles_send; intros ?; split; [discriminate | right; reflexivity]).
  apply settles_admitted; [|responds_tac].
  match goal with
  | Hbody : readBody _ _ = Ret ?body, Hparse : JSON_parse ?body = Some ?payload,
    Hagent : agent_policy _ (str_field "agent" ?payload) = Some ?agentPolicy,
    Hintent : negb _ = false,
    Hpicked : pickProvider _ ?agentPolicy _ = Some ?providerName |- _ =>
      destruct (intent_allowed _ _ Hintent) as (intents & Hintents & Hin);
      pose proof (agent_policy_own _ _ _ _ Hagent Hintents) as Hown;
      exists payload, policy, agentPolicy, providerName;
      split; [split; [assumption | exists body, table]|]
  end.
  - repeat (split; [assumption|]).
    split; [eauto | now apply input_within_budget].
  - split; [assumption | now apply provider_allowed].
Qed.

Lemma catch_block_gatekeeper (Q : Prop) env requestId startTime error :
  settles (gatekeeper Q) (catch_block env requestId startTime error).
Proof.
  settle.
  catch_cases;
    apply settles_send; intros ?; (split; [discriminate | right; reflexivity]).
Qed.

Lemma finally_keeps_upstream env req requestId :
  preserves upstream_of (finally_block env req requestId).
Proof. frame. Qed.

Lemma after_upstream cfg env req p :
  Process.upstream (after (handle cfg env req p))
  = upstream_of (before_finally cfg env req p).
Proof.
  destruct (handle_unfold cfg env req p) as (_ & -> & _).
  exact (finally_keeps_upstream env req (request_uuid env) _).
Qed.

Lemma other_routes_keep_upstream cfg env req requestId startTime :
  agent_route req = false -> verify_route req = false ->
  preserves upstream_of
    (try_catch (routes cfg env req requestId startTime)
               (catch_block env requestId startTime)).
Proof.
  intros Hroute Hverify. unfold verify_route in Hverify.
  unfold routes. cbv zeta. rewrite (routes_other req Hroute), Hverify. frame.
Qed.

(** No provider is reached unless every gate lets the request through.  A
    request to POST /v1/agent is answered with 200, or changes anything
    upstream, only if it is admitted: the client is allowed to connect, the
    body parses to a valid payload, and the policy knows the agent, allows
    the intent and the provider picked, with the input inside the byte
    budget.  A request to any route other than POST /v1/agent and POST
    /v1/verify leaves the upstream services alone. *)
Theorem providers_are_reached_through_the_gates (cfg : Config) (env : Env)
    (req : Request) (p : Process.t) :
  let s := handle cfg env req p in
  exists code payload,
    responses s = [(code, payload)]
    /\ (agent_route req = true ->
        (code = 200 -> admitted cfg env req)
        /\ (Process.upstream (after s) <> Process.upstream p -> admitted cfg env req))
    /\ (agent_route req = false -> verify_route req = false ->
        Process.upstream (after s) = Process.upstream p).
Proof.
  cbv zeta. rewrite after_upstream.
  destruct (agent_route req) eqn:Hroute.
  - destruct (handle_settles (gatekeeper (admitted cfg env req)) cfg env req p)
      as ([code payload] & Hsent & Hcode & Hupstream).
    { rewrite (routes_agent _ _ _ _ _ Hroute).
      apply settles_try_catch; lawful; [apply route_agent_gatekeeper|].
      intros e. apply catch_block_gatekeeper. }
    exists code, payload. split; [exact Hsent|]. split; [|discriminate].
    intros _. split; [exact Hcode|]. intros Hchanged.
    destruct Hupstream as [?|Hsame]; [assumption | contradiction].
  - destruct (handle_responds (fun _ => true) cfg env req p) as ([code payload] & Hsent & _).
    { apply attempt_responds_something. }
    exists code, payload. split; [exact Hsent|]. split; [discriminate|].
    intros _ Hverify.
    exact (other_routes_keep_upstream cfg env req _ _ Hroute Hverify (request_start p)).
Qed.

End Gatekeeping.

(** ** Request ids and the loopback gate *)

Lemma assoc_set_other (key k : string) (v : json) (fields : list (string * json)) :
  k <> key -> assoc key (assoc_set k v fields) = assoc key fields.
Proof.
  intros Hne. induction fields as [|[k' w] rest IH]; simpl.
  - apply String.eqb_neq in Hne. now rewrite Hne.
  - destruct (String.eqb_spec k' k) as [->|Hk]; simpl.
    + apply String.eqb_neq in Hne. now rewrite Hne.
    + now rewrite IH.
Qed.

Lemma with_error_output_other (key : string) (payload : list (string * json)) :
  key <> "output" -> assoc key (with_error_output payload) = assoc key payload.
Proof.
  intros Hne. unfold with_error_output.
  destruct (field_is "status" "error" payload && negb (is_string (assoc "output" payload)));
    [|reflexivity].
  apply assoc_set_other. congruence.
Qed.

Section RequestIds.
Context `{RT : Runtime} `{RG : Registry}.

Lemma traced_send requestId code payload :
  assoc "request_id" payload = Some (JStr requestId) ->
  responds (traced requestId) (send code payload).
Proof.
  intros Hid. apply responds_send. unfold traced, field_is. simpl.
  rewrite with_error_output_other by discriminate. rewrite Hid. apply String.eqb_refl.
Qed.

Lemma catch_block_traced env requestId startTime error :
  responds (traced requestId) (catch_block env requestId startTime error).
Proof.
  responds_tac.
  catch_cases;
    apply traced_send; reflexivity.
Qed.

(** Every response to a request that is neither a GET nor a POST
    /v1/verify carries the id of the request: the answers of POST
    /v1/agent, whatever they are, and the 404 of an unknown route. *)
Theorem request_id_is_returned (cfg : Config) (env : Env) (req : Request)
    (p : Process.t) :
  String.eqb (method req) "GET" = false ->
  verify_route req = false ->
  exists code payload,
    responses (handle cfg env req p) = [(code, payload)]
    /\ assoc "request_id" payload = Some (JStr (request_uuid env)).
Proof.
  intros Hget Hverify. unfold verify_route in Hverify.
  destruct (handle_responds (traced (request_uuid env)) cfg env req p)
    as ([code payload] & Hsent & Hok).
  { apply responds_try_catch; [|intros e; apply catch_block_traced].
    unfold routes. cbv zeta. rewrite Hget, Hverify. cbn [andb].
    responds_tac.
    all: apply traced_send; reflexivity. }
  exists code, payload. split; [exact Hsent|].
  now apply field_is_assoc.
Qed.

End RequestIds.

Lemma request_id_is_returned_example :
  exists code payload,
    responses (@handle example_runtime (answering "hello") example_config
                 (example_env (example_policy 60 None) 1000)
                 (local_request "POST" "/v1/agent" planner_body)
                 (fresh_process (answering "hello") tt))
      = [(code, payload)]
    /\ assoc "request_id" payload = Some (JStr "00000000-0000-4000-8000-000000000000").
Proof.
  apply (@request_id_is_returned example_runtime (answering "hello")); reflexivity.
Defined.

Section LoopbackGate.
Context `{RT : Runtime} `{RG : Registry}.

Lemma routes_denied cfg env req requestId startTime :
  remote_denied cfg req = true -> loopback_only req = true ->
  routes cfg env req requestId startTime
    = send 403 (error_payload "Remote access denied")
  \/ routes cfg env req requestId startTime
    = send 403 (error_payload_id "Remote access denied" requestId).
Proof.
  intros Hdenied. unfold loopback_only, agent_route, routes.
  unfold route_metrics, route_agents, route_memory, route_providers, route_agent.
  rewrite Hdenied. cbv zeta.
  generalize (method req) (url req). intros m u.
  destruct (String.eqb_spec m "GET") as [->|Hget]; cbn [andb orb].
  - destruct (String.eqb_spec u "/healthz") as [->|]; [discriminate|].
    destruct (String.eqb_spec u "/health") as [->|]; [discriminate|]. cbn [orb].
    destruct (String.eqb_spec u "/metrics") as [->|]; [now left|].
    destruct (String.eqb_spec u "/v1/agents") as [->|]; [now left|].
    destruct (String.eqb_spec u "/v1/worlds") as [->|]; [discriminate|]. cbn [orb].
    destruct (startsWith "/v1/memory" u); [now left|].
    destruct (String.eqb_spec u "/v1/providers") as [->|]; [now left | discriminate].
  - destruct (String.eqb_spec m "POST") as [->|]; [|discriminate]. cbn [andb].
    destruct (String.eqb_spec u "/v1/verify") as [->|]; [discriminate|].
    destruct (String.eqb_spec u "/v1/agent") as [->|]; [now right | discriminate].
Qed.

(** With [allowRemote] off, a client that does not connect over loopback
    gets 403 "Remote access denied" from every route but /healthz,
    /v1/worlds and /v1/verify, and the request leaves the rate limiter, the
    memory, the journal and the upstream services as they were. *)
Theorem remote_clients_are_denied (cfg : Config) (env : Env) (req : Request)
    (p : Process.t) :
  remote_denied cfg req = true ->
  loopback_only req = true ->
  let s := handle cfg env req p in
  exists payload,
    responses s = [(403, payload)]
    /\ assoc "error" payload = Some (JStr "Remote access denied")
    /\ Process.rateLimiter (after s) = Process.rateLimiter p
    /\ Process.memory (after s) = Process.memory p
    /\ journal_file (Process.files (after s)) = journal_file (Process.files p)
    /\ Process.upstream (after s) = Process.upstream p.
Proof.
  intros Hdenied Hroute. cbv zeta.
  unfold handle, handler, bind, Date_now, try_finally, try_catch. cbn [fst snd ticks].
  destruct (routes_denied cfg env req (request_uuid env) (clock env O) Hdenied Hroute)
    as [-> | ->].
  all: unfold send, finally_block, journal_and_log, bind, get_locals, update_locals,
         update_process, write_response, Date_now, try_catch, appendLog, throw, ret.
  all: simpl; destruct (log_append_error env); simpl; eexists; repeat split.
Qed.

End LoopbackGate.

Lemma remote_clients_are_denied_example :
  exists payload,
    responses (@handle example_runtime (answering "hello") example_config
                 (example_env (example_policy 60 None) 1000)
                 {| method := "GET"; url := "/metrics"; remoteAddress := Some "10.0.0.7";
                    chunks := []; stream_error := None |}
                 (fresh_process (answering "hello") tt))
      = [(403, payload)]
    /\ assoc "error" payload = Some (JStr "Remote access denied").
Proof.
  destruct (@remote_clients_are_denied example_runtime (answering "hello") example_config
              (example_env (example_policy 60 None) 1000)
              {| method := "GET"; url := "/metrics"; remoteAddress := Some "10.0.0.7";
                 chunks := []; stream_error := None |}
              (fresh_process (answering "hello") tt) eq_refl eq_refl)
    as (payload & Hsent & Herror & _).
  exists payload. split; assumption.
Defined.

(** ** POST /v1/verify: the agent used *)

Lemma ascii_lower_idempotent (c : ascii) : ascii_lower (ascii_lower c) = ascii_lower c.
Proof. destruct c as [[] [] [] [] [] [] [] []]; reflexivity. Qed.

Lemma lower_idempotent (s : string) : lower (lower s) = lower s.
Proof.
  induction s as [|c s IH]; [reflexivity|]. simpl. now rewrite ascii_lower_idempotent, IH.
Qed.

Lemma lower_app (a b : string) : lower (a ++ b) = lower a ++ lower b.
Proof.
  induction a as [|c a IH]; [reflexivity|].
  change (String (ascii_lower c) (lower (a ++ b))
          = String (ascii_lower c) (lower a ++ lower b)).
  now rewrite IH.
Qed.

#[local] Instance answers_lawful `{Registry} (P : Z * list (string * json) -> Prop) :
  Lawful (answers P).
Proof. split; simpl; auto. Qed.

Section VerifyRouting.
Context `{RT : Runtime} `{RG : Registry}.

Lemma route_verify_names_agent env req :
  settles
    (answers (used_agent (if isSecurityClaim (claim_of req) then "cipher" else "prism")))
    (route_verify env req).
Proof.
  settle.
  all: try (apply settles_send; intros ?; intros Hcode; discriminate Hcode).
  all: match goal with
       | Hbody : readBody _ _ = Ret ?body, Hparse : JSON_parse ?body = Some ?payload |- _ =>
           assert (Hclaim : claim_of req = str_field "claim" payload)
             by (unfold claim_of; now rewrite Hbody, Hparse)
       end.
  all: rewrite Hclaim; apply settles_send; intros ? _;
    unfold with_error_output; cbn [field_is assoc String.eqb Ascii.eqb Bool.eqb andb snd];
    reflexivity.
Qed.

(** Claims about credentials and security go to the agent [cipher], all
    others to [prism]: a 200 response of POST /v1/verify names, as
    [agent_used], [cipher] exactly when the claim holds one of the words
    of the pattern, whatever the case of its letters. *)
Theorem verify_picks_the_agent_by_claim (cfg : Config) (env : Env) (address : option string)
    (body : list string) (error : option JsError) (p : Process.t) :
  let req := verify_request address body error in
  (exists code payload,
     responses (handle cfg env req p) = [(code, payload)]
     /\ (code = 200 ->
         assoc "agent_used" payload
         = Some (JStr (if isSecurityClaim (claim_of req) then "cipher" else "prism"))))
  /\ (forall word pre post,
        In word security_words -> isSecurityClaim (pre ++ word ++ post) = true)
  /\ (forall claim, isSecurityClaim (lower claim) = isSecurityClaim claim).
Proof.
  cbv zeta. split; [|split].
  - destruct (handle_settles
                (answers (used_agent
                   (if isSecurityClaim (claim_of (verify_request address body error))
                    then "cipher" else "prism")))
                cfg env (verify_request address body error) p)
      as ([code payload] & Hsent & Hagent).
    { rewrite routes_verify.
      apply settles_try_catch; lawful; [apply route_verify_names_agent|].
      intros e. settle.
      catch_cases;
        apply settles_send; intros ? Hcode; discriminate Hcode. }
    exists code, payload. split; [exact Hsent | exact Hagent].
  - intros word pre post Hword. unfold isSecurityClaim.
    rewrite !lower_app. apply existsb_exists. exists word. split; [exact Hword|].
    assert (Hlower : lower word = word).
    { simpl in Hword.
      repeat (destruct Hword as [<-|Hword]; [reflexivity|]). contradiction. }
    rewrite Hlower. apply includes_app.
  - intros claim. unfold isSecurityClaim. now rewrite lower_idempotent.
Qed.

End VerifyRouting.

(** ** What the verify endpoint relays *)

Section Relays.
Context `{RT : Runtime} `{RG : Registry}.
Variable P : DispatchResult -> list (string * json) -> Prop.

Lemma relays_send code payload : code <> 200 -> relays P (send code payload).
Proof.
  intros Hcode s. unfold send, bind, update_locals, write_response. simpl.
  eexists. split; [reflexivity|]. simpl. intros Hok. contradiction.
Qed.

Lemma relays_throw {A : Type} (e : JsError) : relays P (throw e : M A).
Proof. intros s. reflexivity. Qed.

(** A step that writes no response and leaves the providers alone. *)
Lemma relays_bind {A B : Type} (m : M A) (k : A -> M B) :
  preserves sent_of m -> preserves upstream_of m -> (forall a, relays P (k a)) ->
  relays P (bind m k).
Proof.
  intros Hsent Hupstream Hk s. unfold bind.
  specialize (Hsent s). specialize (Hupstream s). unfold sent_of in Hsent.
  destruct (m s) as [[a|e] s']; simpl in *; [|exact Hsent].
  specialize (Hk a s'). rewrite Hsent, Hupstream in Hk. exact Hk.
Qed.

Lemma relays_await {A B : Type} (o : outcome A) (k : A -> M B) :
  (forall a, o = Ret a -> relays P (k a)) -> relays P (bind (await o) k).
Proof.
  intros Hk s. unfold bind, await. destruct o as [a|e].
  - exact (Hk a eq_refl s).
  - reflexivity.
Qed.

(** The [catch] block of the route answers with a code other than 200. *)
Lemma relays_try_catch {A : Type} (body : M A) (handler : JsError -> M A) :
  relays P body -> (forall e, responds not_ok (handler e)) ->
  relays P (try_catch body handler).
Proof.
  intros Hm Hk s. unfold try_catch. specialize (Hm s).
  destruct (body s) as [[a|e] s']; [exact Hm|].
  specialize (Hk e s'). destruct (handler e s') as [[b|e'] s'']; rewrite <- Hm.
  - destruct Hk as (r & Hr & Hcode). exists r. split; [exact Hr|].
    intros Hok. unfold not_ok in Hcode. rewrite Hok in Hcode. discriminate Hcode.
  - exact Hk.
Qed.

(** The call of the dispatcher: what follows it leaves the providers
    alone, and answers a 200 with a payload of which [P] holds. *)
Lemma relays_dispatch {B : Type} providerName chain invokeArgs
    (k : DispatchResult -> M B) :
  (forall result, preserves upstream_of (k result)) ->
  (forall result, settles (answers (fun r => fst r = 200 -> P result (snd r))) (k result)) ->
  relays P (bind (dispatch providerName chain invokeArgs) k).
Proof.
  intros Hupstream Hk s. unfold bind, dispatch.
  destruct providerName as [[| | |name| |]|member]; try reflexivity.
  destruct (invokeWithFallback name chain invokeArgs (Process.upstream (process s)))
    as [[result|e] w] eqn:Hcall; cbn [fst snd]; [|reflexivity].
  match goal with
  | |- match k result ?s1 with _ => _ end =>
      specialize (Hk result s1); specialize (Hupstream result s1);
      destruct (k result s1) as [[b|e] s2]
  end; cbn [sent snd] in *.
  - destruct Hk as (r & Hr & Hanswer). exists r. split; [exact Hr|].
    intros Hok. exists name, chain, invokeArgs, result. split; [|exact (Hanswer Hok)].
    unfold upstream_of in *. rewrite Hcall, Hupstream. reflexivity.
  - exact (proj1 Hk).
Qed.

End Relays.

(** One step in the proof that a computation relays a result; the call of
    the dispatcher is left to the caller. *)
Ltac relay_step :=
  lazymatch goal with
  | |- relays _ (bind (dispatch _ _ _) _) => fail
  | |- relays _ (bind (await _) _) => apply relays_await; intros ? ?
  | |- relays _ (bind _ _) => apply relays_bind; [solve [frame] | solve [frame] | intros ?]
  | |- relays _ (try_catch _ _) => apply relays_try_catch; [|intros ?; solve [responds_tac]]
  | |- relays _ (send _ _) => apply relays_send; discriminate
  | |- relays _ (throw _) => apply relays_throw
  | |- relays _ (if ?b then _ else _) => destruct b eqn:?
  | |- relays _ (match ?x with _ => _ end) => destruct x eqn:?
  | |- relays _ (let _ := _ in _) => cbv zeta
  | |- relays _ ?m => let h := head_of m in progress unfold h
  end.

Ltac relay := repeat relay_step.

Section VerifyRelays.
Context `{RT : Runtime} `{RG : Registry}.

(** What the verify route sends with a 200 is read off the output of the
    dispatcher's result. *)
Lemma route_verify_relays env req : relays carries_verdict (route_verify env req).
Proof.
  relay.
  all: apply relays_dispatch; intros result; [frame|].
  all: settle.
  all: apply settles_send; intros ? _;
    unfold carries_verdict, with_error_output;
    match goal with
    | |- context [optional_field _ ?checked] => destruct checked
    end;
    cbn [snd field_is assoc optional_field app String.eqb Ascii.eqb Bool.eqb andb];
    repeat split; reflexivity.
Qed.

Lemma handle_relays (P : DispatchResult -> list (string * json) -> Prop) cfg env req p :
  relays P (try_catch (routes cfg env req (request_uuid env) (clock env O))
                      (catch_block env (request_uuid env) (clock env O))) ->
  exists r,
    responses (handle cfg env req p) = [r]
    /\ (fst r = 200 ->
        exists name chain invokeArgs result,
          invokeWithFallback name chain invokeArgs (Process.upstream p)
          = (Ret result, Process.upstream (after (handle cfg env req p)))
          /\ P result (snd r)).
Proof.
  intros Hok. rewrite responses_of_handle, after_upstream, before_finally_start.
  specialize (Hok (request_start p)).
  destruct (attempt_returns cfg env req (request_uuid env) (clock env O) (request_start p))
    as (s1 & Hret).
  unfold request_start in *. rewrite Hret in *. exact Hok.
Qed.

Lemma catch_block_not_ok env requestId startTime error :
  responds not_ok (catch_block env requestId startTime error).
Proof. responds_tac. Qed.




End VerifyRelays.


(** ** The memory journal *)

Lemma spread_other (key : string) (entry : list (string * json)) :
  forall base, assoc key entry = None -> assoc key (spread base entry) = assoc key base.
Proof.
  unfold spread. induction entry as [|[k v] rest IH]; intros base; simpl; [reflexivity|].
  destruct (String.eqb_spec k key) as [->|Hne]; [discriminate|].
  intros Hrest. rewrite (IH _ Hrest). now apply assoc_set_other.
Qed.

Section Journal.
Context `{RT : Runtime} `{RG : Registry}.

(** What [memory.record] does once the memory is initialized: it never
    throws, the hash it returns becomes [lastHash], and the record reaches
    the journal unless the write fails. *)
Lemma memory_record_initialized env entry s :
  _initialized (memory_of s) = true ->
  let now := clock env (ticks s) in
  let record := journal_record now (lastHash (memory_of s)) entry in
  exists hash s',
    memory_record env entry s = (Ret hash, s')
    /\ assoc "hash" record = Some (JStr hash)
    /\ lastHash (memory_of s') = hash
    /\ _initialized (memory_of s') = true
    /\ journal_of s' =
         (if journal_append_ok env
          then Some (push (default [] (journal_of s)) (JSON_stringify (JObj record)))
          else journal_of s).
Proof.
  intros Hinit. cbv zeta. unfold memory_of, journal_of in *.
  unfold memory_record, memory_init, bind, gets, Date_now, update_process, ret.
  simpl. rewrite Hinit. simpl.
  destruct (journal_append_ok env); simpl; eexists; eexists;
    (split; [reflexivity|]); unfold journal_record; cbv zeta;
    rewrite assoc_set_same; repeat split; assumption.
Qed.

Lemma memory_record_initializes env entry s :
  memory_mkdir_ok env = true ->
  exists hash s',
    memory_record env entry s = (Ret hash, s')
    /\ lastHash (memory_of s') = hash
    /\ _initialized (memory_of s') = true.
Proof.
  intros Hmkdir. unfold memory_of.
  unfold memory_record, memory_init, bind, gets, Date_now, update_process, ret.
  simpl. rewrite Hmkdir.
  destruct (_initialized (Process.memory (process s))) eqn:Hinit; simpl;
    destruct (journal_append_ok env); simpl; eexists; eexists;
    (split; [reflexivity|]); split; auto.
Qed.

(** The journal is a hash chain: of two records made one after the other,
    the second names the hash of the first as its [prev], and the hash it
    returns is the one it carries, computed over [prev] and the record.
    [memory.record] never throws, and [lastHash] moves on even when the
    write to the journal fails, in which case the line is lost. *)
Theorem journal_links_records (env1 env2 : Env) (entry1 entry2 : list (string * json))
    (s : State) :
  memory_mkdir_ok env1 = true ->
  assoc "prev" entry2 = None ->
  let first := memory_record env1 entry1 s in
  let second := memory_record env2 entry2 (snd first) in
  exists hash1 hash2 record,
    fst first = Ret hash1
    /\ fst second = Ret hash2
    /\ record = journal_record (clock env2 (ticks (snd first))) hash1 entry2
    /\ assoc "prev" record = Some (JStr hash1)
    /\ assoc "hash" record = Some (JStr hash2)
    /\ lastHash (memory_of (snd second)) = hash2
    /\ journal_of (snd second) =
         (if journal_append_ok env2
          then Some (push (default [] (journal_of (snd first)))
                       (JSON_stringify (JObj record)))
          else journal_of (snd first)).
Proof.
  intros Hmkdir Hprev. cbv zeta.
  destruct (memory_record_initializes env1 entry1 s Hmkdir)
    as (hash1 & s1 & -> & Hlast & Hinit).
  cbn [fst snd].
  destruct (memory_record_initialized env2 entry2 s1 Hinit)
    as (hash2 & s2 & -> & Hhash & Hlast2 & _ & Hjournal).
  cbn [fst snd]. rewrite Hlast in *.
  exists hash1, hash2, (journal_record (clock env2 (ticks s1)) hash1 entry2).
  split; [reflexivity|]. split; [reflexivity|]. split; [reflexivity|].
  split; [|auto].
  unfold journal_record. cbv zeta. rewrite assoc_set_other by discriminate.
  now rewrite spread_other.
Qed.

Lemma parse_all_drop (parse : string -> option json) (k : nat) :
  forall lines parsed,
    parse_all parse lines = Some parsed ->
    parse_all parse (drop k lines) = Some (drop k parsed).
Proof.
  induction k as [|k IH]; intros lines parsed Hparsed; [now rewrite !drop_0|].
  destruct lines as [|l rest]; simpl in *.
  - now injection Hparsed as <-.
  - destruct (parse l) as [v|]; [|discriminate].
    destruct (parse_all parse rest) as [vs|] eqn:Hrest; [|discriminate].
    injection Hparsed as <-. simpl. now apply IH.
Qed.

Lemma parse_all_length (parse : string -> option json) (lines : list string) :
  forall parsed, parse_all parse lines = Some parsed -> length parsed = length lines.
Proof.
  induction lines as [|l rest IH]; simpl; intros parsed.
  - now intros [= <-].
  - destruct (parse l) as [v|]; [|discriminate].
    destruct (parse_all parse rest) as [vs|]; [|discriminate].
    intros [= <-]. simpl. f_equal. now apply IH.
Qed.

Lemma memory_recent_reads env limit s :
  fst (memory_recent env limit s) =
    Ret match journal_of s with
        | Some lines =>
            match parse_all JSON_parse (slice_last limit lines) with
            | Some entries => rev entries
            | None => []
            end
        | None => []
        end.
Proof.
  unfold journal_of, memory_recent, memory_init, bind, gets, update_process, ret.
  simpl.
  destruct (_initialized (Process.memory (process s))); simpl;
    [|destruct (memory_mkdir_ok env); simpl];
    destruct (journal_file (Process.files (process s))) as [lines|]; simpl;
    try reflexivity;
    destruct (parse_all JSON_parse (slice_last limit lines)); reflexivity.
Qed.

Lemma slice_last_length (n : Z) (lines : list string) :
  0 < n -> (length (slice_last (Some n) lines) <= Z.to_nat n)%nat.
Proof.
  intros Hn. unfold slice_last. destruct (Z.ltb_spec 0 n); [|lia].
  rewrite length_drop. lia.
Qed.

(** [memory.recent] never throws, whatever the journal holds.  It returns
    no entry when the journal does not exist or when one of the lines it
    selects does not parse; otherwise the lines selected, parsed, newest
    first.  A positive limit selects the last [limit] lines, so that at
    most [limit] entries are returned; when all lines parse these are the
    last [limit] entries, and the limit 0 is no limit: every entry is
    returned. *)
Theorem recent_returns_newest_first (env : Env) (s : State) :
  (forall limit, exists entries,
     fst (memory_recent env limit s) = Ret entries
     /\ forall n, limit = Some n -> 0 < n -> (length entries <= Z.to_nat n)%nat)
  /\ (journal_of s = None -> forall limit, fst (memory_recent env limit s) = Ret [])
  /\ (forall limit lines,
        journal_of s = Some lines ->
        parse_all JSON_parse (slice_last limit lines) = None ->
        fst (memory_recent env limit s) = Ret [])
  /\ (forall limit lines selected,
        journal_of s = Some lines ->
        parse_all JSON_parse (slice_last limit lines) = Some selected ->
        fst (memory_recent env limit s) = Ret (rev selected))
  /\ (forall lines parsed,
        journal_of s = Some lines ->
        parse_all JSON_parse lines = Some parsed ->
        (forall n, 0 < n ->
           fst (memory_recent env (Some n) s)
           = Ret (rev (drop (length parsed - Z.to_nat n) parsed)))
        /\ fst (memory_recent env (Some 0) s) = Ret (rev parsed)).
Proof.
  refine (conj _ (conj _ (conj _ (conj _ _)))).
  - intros limit. eexists. split; [apply memory_recent_reads|].
    intros n -> Hn. destruct (journal_of s) as [lines|]; [|simpl; lia].
    destruct (parse_all JSON_parse (slice_last (Some n) lines)) as [selected|] eqn:Hparsed;
      [|simpl; lia].
    rewrite length_rev, (parse_all_length _ _ _ Hparsed).
    now apply slice_last_length.
  - intros Hjournal limit. now rewrite memory_recent_reads, Hjournal.
  - intros limit lines Hjournal Hparsed.
    now rewrite memory_recent_reads, Hjournal, Hparsed.
  - intros limit lines selected Hjournal Hparsed.
    now rewrite memory_recent_reads, Hjournal, Hparsed.
  - intros lines parsed Hjournal Hparsed.
    pose proof (parse_all_length _ _ _ Hparsed) as Hlength. split.
    + intros n Hn. rewrite memory_recent_reads, Hjournal.
      unfold slice_last. destruct (Z.ltb_spec 0 n); [|lia].
      rewrite <- Hlength. now rewrite (parse_all_drop _ _ _ _ Hparsed).
    + rewrite memory_recent_reads, Hjournal.
      change (slice_last (Some 0) lines) with (drop 0 lines).
      now rewrite drop_0, Hparsed.
Qed.

End Journal.

(** ** Configuration *)

Lemma or_else_assoc (a b c : option json) :
  or_else (or_else c b) a = or_else c (or_else b a).
Proof. unfold or_else. destruct (truthy_opt c) eqn:Hc; [now rewrite Hc | reflexivity]. Qed.

Lemma isFinite_assoc (a b c : option json) :
  (if isFinite (if isFinite c then c else b) then (if isFinite c then c else b) else a)
  = (if isFinite c then c else if isFinite b then b else a).
Proof. destruct (isFinite c) eqn:Hc; [now rewrite Hc | reflexivity]. Qed.

Lemma is_boolean_assoc (a b c : option json) :
  (if is_boolean (if is_boolean c then c else b) then (if is_boolean c then c else b) else a)
  = (if is_boolean c then c else if is_boolean b then b else a).
Proof. destruct (is_boolean c) eqn:Hc; [now rewrite Hc | reflexivity]. Qed.

(** [mergeConfig] layers configurations: merging is associative, so the
    order in which [start()] nests its two calls does not matter, and an
    object without properties overrides nothing. *)
Theorem mergeConfig_layers (a b c : Settings.t) :
  mergeConfig a (mergeConfig b c) = mergeConfig (mergeConfig a b) c
  /\ mergeConfig a no_settings = a.
Proof.
  split.
  - unfold mergeConfig. cbn [Settings.bind Settings.port Settings.policyPath
      Settings.promptPath Settings.logPath Settings.maxBodyBytes Settings.allowRemote].
    now rewrite !or_else_assoc, !isFinite_assoc, is_boolean_assoc.
  - now destruct a.
Qed.

(** Precedence of the settings in [start()].  [allowRemote] is decided by
    the environment alone: [readEnvConfig] always sets it to a boolean,
    which overrides the configuration file and the defaults, so that it is
    true exactly when BLACKROAD_GATEWAY_ALLOW_REMOTE is the string "true",
    and an [allowRemote] in the configuration file has no effect.  A string
    setting such as [bind] comes from the environment when the variable is
    set and not empty, else from the configuration file when it holds a
    truthy value, else from the defaults; a number such as [port] comes
    from the environment when the variable converts to a finite number,
    and a variable that converts to NaN is passed over. *)
Theorem settings_precedence (defaults : Settings.t) (loaded : option json)
    (Number : string -> option number) (env : gmap string string) (value : string) :
  let config := start_config defaults loaded Number env in
  Settings.allowRemote config
  = Some (JBool (bool_decide (env !! "BLACKROAD_GATEWAY_ALLOW_REMOTE" = Some "true")))
  /\ (env !! "BLACKROAD_GATEWAY_BIND" = Some value -> value <> "" ->
      Settings.bind config = Some (JStr value))
  /\ (env !! "BLACKROAD_GATEWAY_BIND" = None ->
      Settings.bind config
      = or_else (Settings.bind (fileConfig loaded)) (Settings.bind defaults))
  /\ (forall n, env !! "BLACKROAD_GATEWAY_PORT" = Some value -> value <> "" ->
        Number value = Some (Finite n) ->
        Settings.port config = Some (JNum (Finite n)))
  /\ (env !! "BLACKROAD_GATEWAY_PORT" = Some value -> Number value = None ->
      Settings.port config
      = if isFinite (Settings.port (fileConfig loaded))
        then Settings.port (fileConfig loaded) else Settings.port defaults).
Proof.
  cbv zeta. unfold start_config, mergeConfig, readEnvConfig, env_string, env_number.
  cbn [Settings.bind Settings.port Settings.allowRemote]. split; [reflexivity|].
  repeat split.
  - intros -> Hvalue. apply String.eqb_neq in Hvalue. rewrite Hvalue.
    assert (Htruthy : truthy_opt (Some (JStr value)) = true)
      by (cbn [truthy_opt truthy]; now rewrite Hvalue).
    unfold or_else. now rewrite !Htruthy.
  - intros ->. reflexivity.
  - intros n -> Hvalue Hn. apply String.eqb_neq in Hvalue. rewrite Hvalue, Hn. reflexivity.
  - intros -> Hn. rewrite Hn. now destruct (String.eqb value "").
Qed.

(** The assertions of the test suite on [mergeConfig]
    (tests/gateway.test.js, 206-214). *)
Example mergeConfig_test_suite :
  let port9000 :=
    {| Settings.bind := None; Settings.port := Some (JNum (num_of_Z 9000));
       Settings.policyPath := None; Settings.promptPath := None; Settings.logPath := None;
       Settings.maxBodyBytes := None; Settings.allowRemote := None |} in
  let remote :=
    {| Settings.bind := None; Settings.port := None;
       Settings.policyPath := None; Settings.promptPath := None; Settings.logPath := None;
       Settings.maxBodyBytes := None; Settings.allowRemote := Some (JBool true) |} in
  Settings.port (mergeConfig test_base port9000) = Some (JNum (num_of_Z 9000))
  /\ Settings.bind (mergeConfig test_base port9000) = Some (JStr "127.0.0.1")
  /\ Settings.allowRemote (mergeConfig test_base remote) = Some (JBool true)
  /\ Settings.port (mergeConfig test_base no_settings) = Some (JNum (num_of_Z 8787)).
Proof. repeat split. Qed.

(** ** The provider registry *)

(** Every name [listProviders] returns resolves, however it is
    capitalized; [claude] is another name of the Anthropic adapter; and
    [mistral], whose module the registry loads, is no key of the table. *)
Theorem listed_providers_resolve :
  (forall name spelled,
     In name Providers.listProviders -> lower spelled = name ->
     is_Some (Providers.getProvider spelled))
  /\ (forall spelled, lower spelled = "claude" ->
        Providers.getProvider spelled = Some Providers.anthropic)
  /\ (forall spelled, lower spelled = "mistral" -> Providers.getProvider spelled = None).
Proof.
  unfold Providers.getProvider. repeat split.
  - intros name spelled Hin ->. simpl in Hin.
    repeat (destruct Hin as [<-|Hin]; [eexists; reflexivity|]). contradiction.
  - intros spelled ->. reflexivity.
  - intros spelled ->. reflexivity.
Qed.

Module OllamaFacts.
Import Ollama.

Section Endpoints.
Context `{RT : Runtime} `{NW : Network}.

Lemma urlsToTry_local (requestedUrl : string) :
  exists before, urlsToTry requestedUrl = (before ++ [LOCAL_OLLAMA_URL])%list
                 /\ Forall (fun u => u <> LOCAL_OLLAMA_URL) before.
Proof.
  unfold urlsToTry. destruct (String.eqb_spec requestedUrl LOCAL_OLLAMA_URL) as [->|Hne].
  - exists []. split; [reflexivity | constructor].
  - exists [requestedUrl]. split; [reflexivity|]. repeat constructor. exact Hne.
Qed.

(** The loop over the endpoints: the first one that answers gives the
    result, and when none does the error is the one of the last turn. *)
Lemma try_urls_spec (body : string) (urls : list string) :
  forall lastError w,
    try_urls urls body lastError w =
      match urls with
      | [] => (Throw (default (Error "Ollama unreachable on all endpoints") lastError), w)
      | baseUrl :: rest =>
          match attempt baseUrl body w with
          | (Ret text, w') => (Ret text, w')
          | (Throw err, w') =>
              match rest with
              | [] => (Throw err, w')
              | _ => try_urls rest body (Some err) w'
              end
          end
      end.
Proof.
  destruct urls as [|baseUrl rest]; intros lastError w; [reflexivity|]. simpl.
  destruct (attempt baseUrl body w) as [[text|err] w']; [reflexivity|].
  destruct rest; reflexivity.
Qed.

Lemma invoke_unrolled (env : gmap string string) (input system : string) (w : Net) :
  fetch_defined = true ->
  let requestedUrl := env_or env "BLACKROAD_OLLAMA_URL" DEFAULT_BASE_URL in
  let body := request_body env input system in
  invoke env input system w =
    match attempt requestedUrl body w with
    | (Ret text, w') => (Ret text, w')
    | (Throw err, w') =>
        if String.eqb requestedUrl LOCAL_OLLAMA_URL then (Throw err, w')
        else attempt LOCAL_OLLAMA_URL body w'
    end.
Proof.
  intros Hfetch. cbv zeta. unfold invoke, urlsToTry. rewrite Hfetch. cbn [negb].
  destruct (String.eqb (env_or env "BLACKROAD_OLLAMA_URL" DEFAULT_BASE_URL) LOCAL_OLLAMA_URL);
    cbn [negb]; rewrite try_urls_spec;
    match goal with |- context [attempt ?u ?b w] => destruct (attempt u b w) as [[text|err] w'] end;
    try reflexivity.
  rewrite try_urls_spec.
  destruct (attempt LOCAL_OLLAMA_URL (request_body env input system) w') as [[text'|err'] w''];
    reflexivity.
Qed.

(** Without a global [fetch] the adapter throws "Global fetch is not
    available" and asks no endpoint.  With one, it asks the configured
    endpoint and, when that gives no answer and is not the local endpoint
    itself, the local endpoint.  An answer is the configured endpoint's,
    or the local one's after the configured endpoint failed.  An error is
    then always the one of the request to the local endpoint: what went
    wrong at the configured endpoint is not reported, and "Ollama
    unreachable on all endpoints" is never thrown for want of an error. *)
Theorem ollama_reports_the_local_endpoint (env : gmap string string)
    (input system : string) (w w' : Net) :
  let requestedUrl := env_or env "BLACKROAD_OLLAMA_URL" DEFAULT_BASE_URL in
  let body := request_body env input system in
  (fetch_defined = false ->
   invoke env input system w = (Throw (Error "Global fetch is not available"), w))
  /\ (forall err,
        invoke env input system w = (Throw err, w') ->
        (fetch_defined = false /\ err = Error "Global fetch is not available" /\ w' = w)
        \/ (fetch_defined = true
            /\ exists w0, attempt LOCAL_OLLAMA_URL body w0 = (Throw err, w')))
  /\ (forall text,
        invoke env input system w = (Ret text, w') ->
        fetch_defined = true
        /\ (attempt requestedUrl body w = (Ret text, w')
            \/ (requestedUrl <> LOCAL_OLLAMA_URL
                /\ exists err w0,
                     attempt requestedUrl body w = (Throw err, w0)
                     /\ attempt LOCAL_OLLAMA_URL body w0 = (Ret text, w')))).
Proof.
  cbv zeta. destruct fetch_defined eqn:Hfetch.
  - pose proof (invoke_unrolled env input system w Hfetch) as Hinvoke.
    cbv zeta in Hinvoke. rewrite Hinvoke. clear Hinvoke.
    split; [discriminate|].
    destruct (attempt (env_or env "BLACKROAD_OLLAMA_URL" DEFAULT_BASE_URL)
                (request_body env input system) w) as [[answer|failure] w1] eqn:Hfirst.
    + split; [discriminate|]. intros text [= <- <-]. split; [reflexivity | now left].
    + destruct (String.eqb_spec (env_or env "BLACKROAD_OLLAMA_URL" DEFAULT_BASE_URL)
                  LOCAL_OLLAMA_URL) as [Hlocal|Hother].
      * split; [|discriminate]. intros err [= <- <-]. right.
        split; [reflexivity|]. exists w. now rewrite <- Hlocal.
      * split; [intros err Hsecond; right; eauto|].
        intros text Hsecond. split; [reflexivity|]. right.
        split; [exact Hother|]. eauto.
  - unfold invoke. rewrite Hfetch. cbn [negb].
    split; [reflexivity|]. split; [|discriminate].
    intros err [= <- <-]. left. auto.
Qed.

End Endpoints.

End OllamaFacts.

(** ** The rate limit at the door *)

Lemma check_counts_usage (now : Z) (agent : string) (limit : Z) (w : gmap string (list Z)) :
  0 < limit ->
  fst (RateLimiter.check now agent limit w)
  = (fst (RateLimiter.getUsage now agent w) <? limit).
Proof.
  intros Hlimit. unfold RateLimiter.check, RateLimiter.getUsage, RateLimiter.ensure.
  destruct (Z.eqb_spec limit 0); [lia|]. destruct (Z.leb_spec limit 0); [lia|].
  cbn [orb fst]. destruct (w !! agent) as [entries0|] eqn:Hagent.
  - now rewrite Hagent.
  - now rewrite lookup_insert_eq.
Qed.

Section RateGate.
Context `{RT : Runtime} `{RG : Registry}.

Lemma intent_allowed_true (agentPolicy : AgentPolicy) (intent : string) :
  (exists intents,
     allowed_intents agentPolicy = Some intents /\ str_in intent intents = true) ->
  negb match allowed_intents agentPolicy with
       | Some intents => str_in intent intents
       | None => false
       end = false.
Proof. intros (intents & -> & ->). reflexivity. Qed.

Lemma input_within_budget_true (agentPolicy : AgentPolicy) (bytes : Z) :
  (forall budget,
     max_input_bytes agentPolicy = Some budget -> budget <> 0 -> bytes <= budget) ->
  num_truthy (max_input_bytes agentPolicy)
  && (bytes >? default 0 (max_input_bytes agentPolicy)) = false.
Proof.
  intros Hbudget. destruct (max_input_bytes agentPolicy) as [budget|]; [|reflexivity].
  simpl. destruct (Z.eqb_spec budget 0); [reflexivity|]. simpl.
  specialize (Hbudget budget eq_refl n). destruct (Z.gtb_spec bytes budget); [lia | reflexivity].
Qed.

(** A screened request reaches the rate limit with the handler's
    variables assigned and nothing else changed. *)
Lemma route_agent_screened cfg env req requestId startTime payload policy agentPolicy s :
  screened cfg env req payload policy agentPolicy ->
  exists s0,
    route_agent cfg env req requestId startTime s
    = invoke_agent env requestId startTime payload (str_field "agent" payload)
        (str_field "intent" payload) policy agentPolicy s0
    /\ sent s0 = sent s /\ ticks s0 = ticks s /\ process s0 = process s.
Proof.
  intros (Hremote & body & table & Hbody & Hparse & Hvalid & Hpolicy & Htable & Hagent & _).
  unfold route_agent, bind, await, loadPolicy, bind, await, ret, update_locals.
  rewrite Hremote, Hbody, Hparse, Hvalid, Hpolicy. cbn [fst snd]. rewrite Htable.
  cbn [fst snd]. unfold agent_policy. rewrite Hagent.
  eexists. split; [reflexivity|]. repeat split.
Qed.

(** What holds of [m s] when [m] responds. *)
Lemma responds_post {A : Type} (ok : Z * list (string * json) -> bool) (m : M A)
    (s : State) (Q : outcome A * State -> Prop) :
  responds ok m ->
  (forall a s' r, sent s' = push (sent s) r -> ok r = true -> Q (Ret a, s')) ->
  (forall e s', sent s' = sent s -> Q (Throw e, s')) ->
  Q (m s).
Proof.
  intros Hm Hret Hthrow. specialize (Hm s). destruct (m s) as [[a|e] s'].
  - destruct Hm as (r & Hsent & Hok). eauto.
  - auto.
Qed.

(** The rate-limit gate: once the intent and the input size are
    accepted, the answer is 429 exactly when the limit that applies is
    positive and [check] fails on the windows as they are, at the next
    reading of the clock. *)
Lemma invoke_agent_gate env requestId startTime payload agentName intent policy
    agentPolicy s :
  (exists intents,
     allowed_intents agentPolicy = Some intents /\ str_in intent intents = true) ->
  (forall budget,
     max_input_bytes agentPolicy = Some budget -> budget <> 0 ->
     Z.of_nat (String.length (str_field "input" payload)) <= budget) ->
  let limit := agentLimit agentPolicy policy in
  let within :=
    fst (RateLimiter.check (clock env (ticks s)) agentName limit (limiter_of s)) in
  match invoke_agent env requestId startTime payload agentName intent policy agentPolicy s
  with
  | (Ret _, s') =>
      exists r,
        sent s' = push (sent s) r
        /\ (fst r = 429 <-> 0 < limit /\ within = false)
        /\ (fst r = 429 ->
            upstream_of s' = upstream_of s
            /\ assoc "metadata" (snd r)
               = Some (JObj [ ("limit_per_minute", JNum (num_of_Z limit));
                              ("retry_after_seconds", JNum (num_of_Z 60)) ]))
  | (Throw _, s') => sent s' = sent s /\ (0 < limit -> within = true)
  end.
Proof.
  intros Hintent Hbudget. cbv zeta. unfold invoke_agent.
  rewrite (intent_allowed_true _ _ Hintent), (input_within_budget_true _ _ Hbudget).
  cbv zeta. set (limit := agentLimit agentPolicy policy).
  unfold bind at 1. destruct (Z.gtb_spec limit 0) as [Hpos|Hnone].
  - unfold limiter_check. destruct (Z.eqb_spec limit 0); [lia|].
    destruct (Z.leb_spec limit 0); [lia|]. cbn [orb].
    unfold bind at 1 2 3, Date_now, gets, update_process, ret. cbn [fst snd process ticks].
    unfold limiter_of.
    destruct (fst (RateLimiter.check (clock env (ticks s)) agentName limit
                     (Process.rateLimiter (process s)))) eqn:Hwithin; cbn [andb negb].
    + lazymatch goal with
      | |- let (_, _) := ?m ?s1 in _ =>
          pattern (m s1); apply (responds_post not_limited m s1); [responds_tac| |]
      end.
      * intros [] s' r Hsent Hok. exists r. split; [exact Hsent|].
        unfold not_limited in Hok. apply negb_true_iff, Z.eqb_neq in Hok.
        split; [|contradiction]. split; [contradiction | intros [_ ?]; discriminate].
      * intros e s' Hsent. split; [exact Hsent | reflexivity].
    + unfold send, bind, update_locals, write_response. cbn [fst snd sent process].
      eexists. split; [reflexivity|]. cbn [fst snd]. repeat split; auto; lia.
  - cbn [andb]. unfold ret at 1.
    lazymatch goal with
    | |- let (_, _) := ?m ?s1 in _ =>
        pattern (m s1); apply (responds_post not_limited m s1); [responds_tac| |]
    end.
    + intros [] s' r Hsent Hok. exists r. split; [exact Hsent|].
      unfold not_limited in Hok. apply negb_true_iff, Z.eqb_neq in Hok.
      split; [|contradiction]. split; [contradiction | intros [? _]; lia].
    + intros e s' Hsent. split; [exact Hsent | lia].
Qed.

(** The rate limit at the door of POST /v1/agent.  A request that passes
    the gates before it is answered with 429 exactly when the limit that
    applies to its agent is positive and the agent's window, pruned at the
    time of the check, already holds that many timestamps.  The 429 names
    the limit and a retry delay of 60 seconds, and no provider is called. *)
Theorem full_window_gets_429 (cfg : Config) (env : Env) (req : Request) (p : Process.t)
    (payload : json) (policy : Policy) (agentPolicy : AgentPolicy) :
  agent_route req = true ->
  screened cfg env req payload policy agentPolicy ->
  let s := handle cfg env req p in
  let limit := agentLimit agentPolicy policy in
  let usage :=
    fst (RateLimiter.getUsage (clock env 1%nat) (str_field "agent" payload)
           (Process.rateLimiter p)) in
  exists code response,
    responses s = [(code, response)]
    /\ (code = 429 <-> 0 < limit <= usage)
    /\ (code = 429 ->
        Process.upstream (after s) = Process.upstream p
        /\ assoc "metadata" response
           = Some (JObj [ ("limit_per_minute", JNum (num_of_Z limit));
                          ("retry_after_seconds", JNum (num_of_Z 60)) ])).
Proof.
  intros Hroute Hscreened. cbv zeta. rewrite after_upstream, before_finally_start.
  rewrite responses_of_handle, (routes_agent _ _ _ _ _ Hroute).
  fold (request_start p). unfold try_catch.
  destruct (route_agent_screened cfg env req (request_uuid env) (clock env O)
              payload policy agentPolicy (request_start p) Hscreened)
    as (s0 & -> & Hsent0 & Hticks & Hprocess).
  destruct Hscreened as (_ & body & table & _ & _ & _ & _ & _ & _ & Hintent & Hbudget).
  pose proof (invoke_agent_gate env (request_uuid env) (clock env O) payload
                (str_field "agent" payload) (str_field "intent" payload) policy
                agentPolicy s0 Hintent Hbudget) as Hgate.
  cbv zeta in Hgate. unfold limiter_of, upstream_of in *.
  rewrite Hticks, Hprocess in Hgate. simpl in Hgate.
  set (limit := agentLimit agentPolicy policy) in *.
  assert (Hfull : forall within,
            within = fst (RateLimiter.check (clock env 1%nat) (str_field "agent" payload)
                            limit (Process.rateLimiter p)) ->
            (0 < limit /\ within = false
             <-> 0 < limit
                 <= fst (RateLimiter.getUsage (clock env 1%nat)
                           (str_field "agent" payload) (Process.rateLimiter p)))).
  { intros within ->. split.
    - intros [Hpos Hwithin]. rewrite (check_counts_usage _ _ _ _ Hpos) in Hwithin.
      apply Z.ltb_ge in Hwithin. lia.
    - intros [Hpos Husage]. split; [exact Hpos|].
      rewrite (check_counts_usage _ _ _ _ Hpos). now apply Z.ltb_ge. }
  destruct (invoke_agent env (request_uuid env) (clock env O) payload
              (str_field "agent" payload) (str_field "intent" payload) policy
              agentPolicy s0) as [[u|e] s1].
  - destruct Hgate as ([code response] & Hsent & Hcode & Hfacts).
    exists code, response. cbn [snd]. rewrite Hsent, Hsent0. split; [reflexivity|].
    split; [rewrite <- (Hfull _ eq_refl); exact Hcode|].
    intros H429. destruct (Hfacts H429) as (Hupstream & Hmetadata).
    auto.
  - destruct Hgate as (Hsent & Hwithin).
    destruct (catch_block_responds env (request_uuid env) (clock env O) e s1)
      as (s2 & [code response] & Hcatch & Hsent2 & _).
    assert (Hcode : code = 500).
    { revert Hcatch Hsent2.
      unfold catch_block, bind, Date_now, get_locals, update_locals, send, write_response.
      cbn [fst snd sent]. intros [= <-]. cbn [sent]. unfold push.
      intros Heq. apply app_inj_tail in Heq as [_ Heq]. congruence. }
    rewrite Hcatch. exists code, response. cbn [snd]. rewrite Hsent2, Hsent, Hsent0.
    split; [reflexivity|]. subst code. split; [|discriminate].
    split; [discriminate|]. rewrite <- (Hfull _ eq_refl).
    intros [Hpos Hfalse]. rewrite (Hwithin Hpos) in Hfalse. discriminate.
Qed.

End RateGate.

(** ** The answer of POST /v1/agent *)

Section Answers.
Context `{RT : Runtime} `{RG : Registry}.

Lemma provider_allowed_true (agentPolicy : AgentPolicy) (name : string) :
  (forall names, allowed_providers agentPolicy = Some names -> str_in name names = true) ->
  match allowed_providers agentPolicy with
  | Some names => negb (str_in name names)
  | None => false
  end = false.
Proof.
  intros Hallowed. destruct (allowed_providers agentPolicy) as [names|]; [|reflexivity].
  now rewrite (Hallowed names eq_refl).
Qed.

(** The rate gate: [check] is called when the limit is positive, and then
    reads the clock once; it touches neither the responses nor the
    handler's variables nor the providers. *)
Lemma rate_gate_runs env agent limit s :
  let checked := RateLimiter.check (clock env (ticks s)) agent limit (limiter_of s) in
  exists s1,
    (if limit >? 0 then limiter_check env agent limit else ret true) s
    = (Ret (if limit >? 0 then fst checked else true), s1)
    /\ sent s1 = sent s
    /\ locals s1 = locals s
    /\ upstream_of s1 = upstream_of s
    /\ limiter_of s1 = snd checked
    /\ ticks s1 = if limit >? 0 then S (ticks s) else ticks s.
Proof.
  cbv zeta. unfold limiter_of, upstream_of. destruct (Z.gtb_spec limit 0) as [Hpos|Hoff].
  - unfold limiter_check.
    replace ((limit =? 0) || (limit <=? 0)) with false
      by (symmetry; apply orb_false_iff; split; [apply Z.eqb_neq | apply Z.leb_gt]; lia).
    unfold bind, Date_now, gets, update_process, ret.
    cbn [fst snd process locals sent ticks].
    eexists. split; [reflexivity|]. repeat split.
  - exists s. split; [reflexivity|]. repeat split.
    unfold RateLimiter.check.
    replace ((limit =? 0) || (limit <=? 0)) with true; [reflexivity|].
    symmetry. apply orb_true_iff. right. apply Z.leb_le. lia.
Qed.

(** A request that the gates before the provider let through reaches the
    statements that pick and call the provider, with the window of its
    agent pruned if the limit is positive. *)
Lemma invoke_agent_at_gate env requestId startTime payload agentName intent policy
    agentPolicy s :
  (exists intents,
     allowed_intents agentPolicy = Some intents /\ str_in intent intents = true) ->
  (forall budget,
     max_input_bytes agentPolicy = Some budget -> budget <> 0 ->
     Z.of_nat (String.length (str_field "input" payload)) <= budget) ->
  let limit := agentLimit agentPolicy policy in
  let checked := RateLimiter.check (clock env (ticks s)) agentName limit (limiter_of s) in
  (0 < limit -> fst checked = true) ->
  exists s1,
    invoke_agent env requestId startTime payload agentName intent policy agentPolicy s
    = call_provider env requestId startTime payload agentName intent agentPolicy s1
    /\ sent s1 = sent s
    /\ locals s1 = locals s
    /\ upstream_of s1 = upstream_of s
    /\ limiter_of s1 = snd checked
    /\ ticks s1 = if limit >? 0 then S (ticks s) else ticks s.
Proof.
  intros Hintent Hbudget. cbv zeta. intros Hwithin. unfold invoke_agent.
  rewrite (intent_allowed_true _ _ Hintent), (input_within_budget_true _ _ Hbudget).
  cbv zeta. set (limit := agentLimit agentPolicy policy) in *.
  destruct (rate_gate_runs env agentName limit s) as (s1 & Hgate & Hfacts).
  exists s1. split; [|exact Hfacts].
  unfold bind at 1. rewrite Hgate.
  destruct (Z.gtb_spec limit 0) as [Hpos|Hoff]; [|reflexivity].
  now rewrite (Hwithin Hpos).
Qed.

(** The [catch] block answers 500 and leaves the process as it is. *)
Lemma catch_block_answers_500 env requestId startTime error s :
  exists s' payload,
    catch_block env requestId startTime error s = (Ret tt, s')
    /\ sent s' = push (sent s) (500, payload)
    /\ process s' = process s
    /\ Locals.providerName (locals s') = Locals.providerName (locals s).
Proof.
  unfold catch_block.
  cbn [bind Date_now get_locals update_locals send write_response
         fst snd process locals sent ticks].
  eexists. eexists. split; [reflexivity|]. repeat split.
Qed.

(** The statements after the rate limit answer 200 only past the call of
    [rateLimiter.record], which reads the clock next. *)
Lemma call_provider_quota env requestId startTime payload agentName intent agentPolicy s :
  match call_provider env requestId startTime payload agentName intent agentPolicy s with
  | (Ret _, s') =>
      exists r,
        sent s' = push (sent s) r
        /\ (fst r = 200 ->
            limiter_of s' = RateLimiter.record (clock env (ticks s)) agentName (limiter_of s))
  | (Throw _, s') => sent s' = sent s
  end.
Proof.
  unfold call_provider, limiter_of. cbv zeta.
  destruct (pickProvider (jprop "provider" payload) agentPolicy intent) as [providerName|];
    cbn [bind update_locals fst snd process locals sent ticks].
  2: { unfold send. cbn [bind update_locals write_response fst snd process locals sent ticks].
       eexists. split; [reflexivity|]. intros Hcode. discriminate Hcode. }
  match goal with |- context [if ?b then _ else _] => destruct b end.
  { unfold send. cbn [bind update_locals write_response fst snd process locals sent ticks].
    eexists. split; [reflexivity|]. intros Hcode. discriminate Hcode. }
  destruct (prompts_file env) as [prompts|e];
    cbn [bind await fst snd process locals sent ticks]; [|reflexivity].
  destruct providerName as [[| | |name| |]|member];
    cbn [dispatch bind throw fst snd process locals sent ticks]; try reflexivity.
  match goal with |- context [invokeWithFallback ?n ?c ?a ?w] =>
    destruct (invokeWithFallback n c a w) as [[result|err] w']
  end; cbn [fst snd]; [|reflexivity].
  unfold send.
  cbn [bind limiter_record update_locals Date_now gets update_process write_response
         fst snd process locals sent ticks].
  eexists. split; [reflexivity|]. intros _. reflexivity.
Qed.

(** Past the gates, the handler hands the request to the dispatcher and
    answers with what it gets. *)
Lemma call_provider_answers env requestId startTime payload agentPolicy name prompts s :
  pickProvider (jprop "provider" payload) agentPolicy (str_field "intent" payload)
  = Some (Data (JStr name)) ->
  (forall names, allowed_providers agentPolicy = Some names -> str_in name names = true) ->
  prompts_file env = Ret prompts ->
  let dispatched :=
    invokeWithFallback name (Some (default [] (fallback_chain agentPolicy)))
      (agent_args requestId payload prompts) (upstream_of s) in
  exists s',
    call_provider env requestId startTime payload (str_field "agent" payload)
      (str_field "intent" payload) agentPolicy s
    = (match fst dispatched with
       | Ret _ => Ret tt
       | Throw err => Throw err
       end, s')
    /\ upstream_of s' = snd dispatched
    /\ match fst dispatched with
       | Ret result =>
           (exists latency,
              sent s' =
                push (sent s)
                  (200, [ ("status", JStr "ok"); ("provider", JStr (provider result));
                          ("output", JStr (output result));
                          ("request_id", JStr requestId);
                          ("metadata",
                            JObj [ ("latency_ms", JNum (num_of_Z latency));
                                   ("fallback", JBool (fallback result)) ]) ]))
           /\ Locals.providerName (locals s') = Some (Data (JStr (provider result)))
       | Throw _ =>
           sent s' = sent s
           /\ Locals.providerName (locals s') = Some (Data (JStr name))
       end.
Proof.
  intros Hpicked Hallowed Hprompts. cbv zeta. unfold call_provider, upstream_of. cbv zeta.
  rewrite Hpicked, (provider_allowed_true _ _ Hallowed).
  cbn [bind await update_locals fst snd process locals sent ticks].
  rewrite Hprompts.
  cbn [bind dispatch fst snd process locals sent ticks].
  fold (agent_args requestId payload prompts).
  destruct (invokeWithFallback name (Some (default [] (fallback_chain agentPolicy)))
              (agent_args requestId payload prompts) (Process.upstream (process s)))
    as [[result|err] w']; cbn [fst snd].
  - unfold send.
    cbn [bind limiter_record update_locals Date_now gets update_process write_response
           fst snd process locals sent ticks].
    eexists. split; [reflexivity|].
    cbn [sent process locals set_upstream set_rateLimiter Process.upstream
           set_providerName set_status set_responsePayload Locals.providerName].
    split; [reflexivity|]. split; [|reflexivity]. eexists. reflexivity.
  - eexists. split; [reflexivity|].
    cbn [sent process locals set_upstream Process.upstream set_providerName
           Locals.providerName].
    repeat split.
Qed.

(** What the [catch] block answers once a provider has been picked. *)
Lemma catch_block_names_provider env requestId startTime err name s :
  Locals.providerName (locals s) = Some (Data (JStr name)) ->
  name <> "" ->
  exists latency s',
    catch_block env requestId startTime err s = (Ret tt, s')
    /\ sent s' =
         push (sent s)
           (500, [ ("status", JStr "error");
                   ("error", JStr (if String.eqb (message err) "" then "Gateway error"
                                   else message err));
                   ("request_id", JStr requestId);
                   ("metadata", JObj [("latency_ms", JNum (num_of_Z latency))]);
                   ("provider", JStr name);
                   ("output", JStr "") ])
    /\ upstream_of s' = upstream_of s
    /\ Locals.providerName (locals s') = Some (Data (JStr name)).
Proof.
  intros Hprovider Hname.
  unfold catch_block.
  cbn [bind Date_now get_locals fst snd process locals sent ticks].
  rewrite Hprovider. cbn [value_truthy truthy serialized].
  apply String.eqb_neq in Hname. rewrite Hname. cbn [negb].
  cbn [bind update_locals send write_response fst snd process locals sent ticks].
  eexists. eexists. split; [reflexivity|].
  cbn [sent process locals set_responsePayload set_status Locals.providerName].
  repeat split. exact Hprovider.
Qed.

(** The path of a screened request through the [try] block. *)
Lemma screened_path cfg env req p payload policy agentPolicy :
  agent_route req = true ->
  screened cfg env req payload policy agentPolicy ->
  exists s0,
    try_catch (routes cfg env req (request_uuid env) (clock env O))
              (catch_block env (request_uuid env) (clock env O)) (request_start p)
    = try_catch
        (invoke_agent env (request_uuid env) (clock env O) payload
           (str_field "agent" payload) (str_field "intent" payload) policy agentPolicy)
        (catch_block env (request_uuid env) (clock env O)) s0
    /\ sent s0 = [] /\ ticks s0 = 1%nat /\ process s0 = p.
Proof.
  intros Hroute Hscreened. rewrite (routes_agent _ _ _ _ _ Hroute).
  destruct (route_agent_screened cfg env req (request_uuid env) (clock env O)
              payload policy agentPolicy (request_start p) Hscreened)
    as (s0 & Hpath & Hsent0 & Hticks & Hprocess).
  exists s0. unfold try_catch. rewrite Hpath. repeat split; assumption.
Qed.

(** Rate-limit quota is spent by successful agent calls only.  A request
    to POST /v1/agent that is answered with 200 has passed the gates, and
    leaves the windows of the rate limiter as [check] left them, with one
    timestamp recorded for its agent: the reading of the clock that
    follows the one [check] took.  Every other request (another route, or
    an answer other than 200: a rejection, a provider failure) leaves no
    window larger than it was. *)
Theorem quota_is_spent_on_success (cfg : Config) (env : Env) (req : Request)
    (p : Process.t) :
  let s := handle cfg env req p in
  exists code payload,
    responses s = [(code, payload)]
    /\ (agent_route req = true -> code = 200 ->
        exists body policy agentPolicy,
          screened cfg env req body policy agentPolicy
          /\ let agent := str_field "agent" body in
             let limit := agentLimit agentPolicy policy in
             Process.rateLimiter (after s)
             = RateLimiter.record (clock env (if limit >? 0 then 2 else 1)%nat) agent
                 (snd (RateLimiter.check (clock env 1%nat) agent limit
                         (Process.rateLimiter p))))
    /\ (agent_route req = false \/ code <> 200 ->
        no_growth (Process.rateLimiter p) (Process.rateLimiter (after s))).
Proof.
  cbv zeta.
  destruct (quota_kept_without_success cfg env req p) as (code & payload & Hsent & Hkept).
  exists code, payload. split; [exact Hsent|]. split; [|exact Hkept].
  intros Hroute Hcode. subst code.
  destruct (handle_settles (gatekeeper (admitted cfg env req)) cfg env req p)
    as ([code' payload'] & Hsent' & Hadmitted & _).
  { rewrite (routes_agent _ _ _ _ _ Hroute).
    apply settles_try_catch; lawful; [apply route_agent_gatekeeper|].
    intros e. apply catch_block_gatekeeper. }
  rewrite Hsent in Hsent'. injection Hsent' as <- <-.
  destruct (Hadmitted eq_refl) as (body & policy & agentPolicy & _ & Hscreened & _).
  exists body, policy, agentPolicy. split; [exact Hscreened|]. cbv zeta.
  rewrite after_limiter, before_finally_start.
  revert Hsent. rewrite responses_of_handle. fold (request_start p).
  destruct (screened_path cfg env req p body policy agentPolicy Hroute Hscreened)
    as (s0 & -> & Hsent0 & Hticks & Hprocess).
  destruct Hscreened as (_ & text & table & _ & _ & _ & _ & _ & _ & Hintent & Hbudget).
  set (agent := str_field "agent" body). set (limit := agentLimit agentPolicy policy).
  unfold try_catch.
  destruct (Z.gtb_spec limit 0) as [Hpos|Hoff];
    [destruct (fst (RateLimiter.check (clock env (ticks s0)) agent limit (limiter_of s0)))
       eqn:Hwithin|].
  2: { (* the window is full: 429 *)
    pose proof (invoke_agent_gate env (request_uuid env) (clock env O) body agent
                  (str_field "intent" body) policy agentPolicy s0 Hintent Hbudget) as Hgate.
    cbv zeta in Hgate. fold limit in Hgate. rewrite Hwithin in Hgate.
    destruct (invoke_agent env (request_uuid env) (clock env O) body agent
                (str_field "intent" body) policy agentPolicy s0) as [[u|e] s1].
    - destruct Hgate as (r & Hsent1 & H429 & _). cbn [snd]. rewrite Hsent1, Hsent0.
      intros [= Hr]. subst r. destruct H429 as [_ H429].
      specialize (H429 (conj Hpos eq_refl)). discriminate H429.
    - destruct Hgate as (_ & Hfalse). specialize (Hfalse Hpos). discriminate Hfalse. }
  all: destruct (invoke_agent_at_gate env (request_uuid env) (clock env O) body agent
                   (str_field "intent" body) policy agentPolicy s0 Hintent Hbudget)
         as (s1 & -> & Hsent1 & _ & _ & Hlimiter1 & Hticks1);
    [fold limit; first [intros _; exact Hwithin | lia]|];
    fold limit in Hlimiter1, Hticks1;
    pose proof (call_provider_quota env (request_uuid env) (clock env O) body agent
                  (str_field "intent" body) agentPolicy s1) as Hquota;
    destruct (call_provider env (request_uuid env) (clock env O) body agent
                (str_field "intent" body) agentPolicy s1) as [[u|e] s2];
    [ destruct Hquota as (r & Hsent2 & Hrecorded); cbn [snd];
      rewrite Hsent2, Hsent1, Hsent0; intros [= Hr]; subst r;
      rewrite (Hrecorded eq_refl), Hlimiter1, Hticks1;
      unfold limiter_of; rewrite Hticks, Hprocess;
      destruct (Z.gtb_spec limit 0); first [reflexivity | lia]
    | destruct (catch_block_answers_500 env (request_uuid env) (clock env O) e s2)
        as (s3 & failure & -> & Hsent3 & _);
      cbn [snd]; rewrite Hsent3, Hquota, Hsent1, Hsent0; intros [= Hcode _];
      discriminate Hcode ].
Qed.

(** An agent request that passes every gate is answered with what the
    dispatcher returns.  If a provider answers, the response is a 200 whose
    output, provider and fallback flag are the dispatcher's; if every
    provider fails, it is a 500 that carries the dispatcher's error message
    and names the provider that was picked.  The providers are left as the
    dispatcher left them, and the provider counted in the metrics is the
    one the response names: [metrics.record] runs its statement
    [byProvider[provider] = (byProvider[provider] || 0) + 1] for it. *)
Theorem agent_answer_is_dispatch_result (cfg : Config) (env : Env) (req : Request)
    (p : Process.t) (payload : json) (policy : Policy) (agentPolicy : AgentPolicy)
    (name : string) (prompts : option Prompts) :
  agent_route req = true ->
  screened cfg env req payload policy agentPolicy ->
  (0 < agentLimit agentPolicy policy ->
   fst (RateLimiter.getUsage (clock env 1%nat) (str_field "agent" payload)
          (Process.rateLimiter p)) < agentLimit agentPolicy policy) ->
  pickProvider (jprop "provider" payload) agentPolicy (str_field "intent" payload)
  = Some (Data (JStr name)) ->
  (forall names, allowed_providers agentPolicy = Some names -> str_in name names = true) ->
  prompts_file env = Ret prompts ->
  let s := handle cfg env req p in
  let dispatched :=
    invokeWithFallback name (Some (default [] (fallback_chain agentPolicy)))
      (agent_args (request_uuid env) payload prompts) (Process.upstream p) in
  let counted :=
    match fst dispatched with
    | Ret result => provider result
    | Throw _ => name
    end in
  Process.upstream (after s) = snd dispatched
  /\ (exists latency,
        responses s =
          [ match fst dispatched with
            | Ret result =>
                (200, [ ("status", JStr "ok"); ("provider", JStr (provider result));
                        ("output", JStr (output result));
                        ("request_id", JStr (request_uuid env));
                        ("metadata", JObj [ ("latency_ms", JNum (num_of_Z latency));
                                            ("fallback", JBool (fallback result)) ]) ])
            | Throw err =>
                (500, [ ("status", JStr "error");
                        ("error", JStr (if String.eqb (message err) "" then "Gateway error"
                                        else message err));
                        ("request_id", JStr (request_uuid env));
                        ("metadata", JObj [("latency_ms", JNum (num_of_Z latency))]);
                        ("provider", JStr name);
                        ("output", JStr "") ])
            end ])
  /\ (counted <> "" ->
      Metrics.byProvider (Process.metrics (after s))
      = Metrics.bump_count counted (Metrics.byProvider (Process.metrics p))
          (Metrics.providerTexts (Process.metrics p))
      /\ Metrics.providerTexts (Process.metrics (after s))
         = Metrics.bump_text counted (Metrics.byProvider (Process.metrics p))
             (Metrics.providerTexts (Process.metrics p))).
Proof.
  intros Hroute Hscreened Hroom Hpicked Hallowed Hprompts. cbv zeta.
  pose proof (handle_metrics cfg env req p) as Hmetrics. cbv zeta in Hmetrics.
  rewrite Hmetrics, served_locals_before. clear Hmetrics.
  rewrite after_upstream, before_finally_start, responses_of_handle.
  fold (request_start p).
  destruct (screened_path cfg env req p payload policy agentPolicy Hroute Hscreened)
    as (s0 & -> & Hsent0 & Hticks & Hprocess).
  destruct Hscreened as (_ & body & table & _ & _ & _ & _ & _ & _ & Hintent & Hbudget).
  destruct (invoke_agent_at_gate env (request_uuid env) (clock env O) payload
              (str_field "agent" payload) (str_field "intent" payload) policy agentPolicy
              s0 Hintent Hbudget)
    as (s1 & Hgate & Hsent1 & _ & Hupstream1 & _).
  { intros Hpos. unfold limiter_of. rewrite Hticks, Hprocess.
    rewrite (check_counts_usage _ _ _ _ Hpos). apply Z.ltb_lt. auto. }
  unfold try_catch. rewrite Hgate.
  pose proof (call_provider_answers env (request_uuid env) (clock env O) payload agentPolicy
                name prompts s1 Hpicked Hallowed Hprompts) as Hcall.
  cbv zeta in Hcall. unfold upstream_of in *. rewrite Hupstream1, Hprocess in Hcall.
  destruct (invokeWithFallback name (Some (default [] (fallback_chain agentPolicy)))
              (agent_args (request_uuid env) payload prompts) (Process.upstream p))
    as [[result|err] w']; cbn [fst snd] in Hcall |- *;
    destruct Hcall as (s2 & -> & Hupstream2 & Hanswer).
  - destruct Hanswer as ((latency & Hsent2) & Hprovider). cbn [snd].
    split; [exact Hupstream2|]. split.
    + exists latency. now rewrite Hsent2, Hsent1, Hsent0.
    + intros Hcounted. rewrite Hprovider. unfold Metrics.record.
      cbn [Metrics.byProvider Metrics.providerTexts value_truthy truthy value_text to_text].
      apply String.eqb_neq in Hcounted. rewrite Hcounted. split; reflexivity.
  - destruct Hanswer as (Hsent2 & Hprovider).
    assert (Hname : name <> "").
    { pose proof (pickProvider_truthy _ _ _ _ Hpicked) as Htruthy.
      cbn [value_truthy truthy] in Htruthy.
      apply negb_true_iff, String.eqb_neq in Htruthy. exact Htruthy. }
    destruct (catch_block_names_provider env (request_uuid env) (clock env O) err name s2
                Hprovider Hname)
      as (latency & s3 & -> & Hsent3 & Hupstream3 & Hprovider3).
    cbn [snd]. unfold upstream_of in Hupstream3. split; [congruence|]. split.
    + exists latency. now rewrite Hsent3, Hsent2, Hsent1, Hsent0.
    + intros _. rewrite Hprovider3. unfold Metrics.record.
      cbn [Metrics.byProvider Metrics.providerTexts value_truthy truthy value_text to_text].
      apply String.eqb_neq in Hname. rewrite Hname. split; reflexivity.
Qed.

End Answers.

(** ** Further worked examples *)

Lemma first_working_fallback_answers_example :
  @invokeWithFallback (ollama_down "hello") "ollama"
    (Some ["ollama"; "mistral"; "openai"; "gemini"]) example_args tt
  = (Ret {| output := "hello"; provider := "openai"; fallback := true |}, tt).
Proof.
  apply (@first_working_fallback_answers (ollama_down "hello") "ollama" example_args
           "openai" Providers.openai "hello" ["ollama"; "mistral"] ["gemini"]
           tt tt tt tt []).
  - exists (Error "fetch failed"). reflexivity.
  - apply all_fail_nil.
  - discriminate.
  - reflexivity.
  - reflexivity.
Defined.

Lemma skipped_chain_hides_primary_error_example :
  @invokeWithFallback refusing "ollama" (Some ["ollama"; "mistral"]) example_args tt
  = (Throw (Error "All providers failed: "), tt).
Proof.
  apply (@skipped_chain_hides_primary_error refusing "ollama" ["ollama"; "mistral"]
           example_args tt tt).
  - exists (Error "fetch failed"). reflexivity.
  - discriminate.
  - reflexivity.
Defined.

Lemma journal_links_records_example :
  let env := example_env (example_policy 60 None) 1000 in
  let first :=
    @memory_record example_runtime (answering "hello") env [("type", JStr "verify")]
      (request_start (fresh_process (answering "hello") tt)) in
  let second :=
    @memory_record example_runtime (answering "hello") env [("type", JStr "agent_call")]
      (snd first) in
  exists hash1 hash2 record,
    fst first = Ret hash1
    /\ fst second = Ret hash2
    /\ record = @journal_record example_runtime (clock env (ticks (snd first))) hash1
                  [("type", JStr "agent_call")]
    /\ assoc "prev" record = Some (JStr hash1)
    /\ assoc "hash" record = Some (JStr hash2)
    /\ lastHash (memory_of (snd second)) = hash2
    /\ journal_of (snd second) =
         (if journal_append_ok env
          then Some (push (default [] (journal_of (snd first)))
                       (@JSON_stringify example_runtime (JObj record)))
          else journal_of (snd first)).
Proof.
  apply (@journal_links_records example_runtime (answering "hello")); reflexivity.
Defined.

Lemma recent_returns_newest_first_example :
  let env := example_env (example_policy 60 None) 1000 in
  let s := request_start (journaled_process (answering "hello") tt) in
  let s0 := request_start (fresh_process (answering "hello") tt) in
  fst (@memory_recent example_runtime (answering "hello") env (Some 1) s)
  = Ret [sky_payload]
  /\ fst (@memory_recent example_runtime (answering "hello") env (Some 0) s)
     = Ret [sky_payload; planner_payload]
  /\ fst (@memory_recent example_runtime (answering "hello") env (Some 1) s0) = Ret [].
Proof.
  cbv zeta.
  destruct (@recent_returns_newest_first example_runtime (answering "hello")
              (example_env (example_policy 60 None) 1000)
              (request_start (journaled_process (answering "hello") tt)))
    as (_ & _ & _ & _ & Hvalues).
  destruct (Hvalues [planner_body; sky_body] [planner_payload; sky_payload]
              eq_refl eq_refl) as (Hlast & Hall).
  split; [exact (Hlast 1 eq_refl)|]. split; [exact Hall|].
  destruct (@recent_returns_newest_first example_runtime (answering "hello")
              (example_env (example_policy 60 None) 1000)
              (request_start (fresh_process (answering "hello") tt)))
    as (_ & Hmissing & _).
  exact (Hmissing eq_refl (Some 1)).
Defined.

Lemma full_window_gets_429_example :
  let env := example_env (example_policy 1 None) 2000 in
  let req := local_request "POST" "/v1/agent" planner_body in
  let p := after (@handle example_runtime (answering "hello") example_config
                    (example_env (example_policy 1 None) 1000) req
                    (fresh_process (answering "hello") tt)) in
  let s := @handle example_runtime (answering "hello") example_config env req p in
  let limit := agentLimit (planner_policy None) (example_policy 1 None) in
  let usage :=
    fst (RateLimiter.getUsage (clock env 1%nat) (str_field "agent" planner_payload)
           (Process.rateLimiter p)) in
  exists code response,
    responses s = [(code, response)]
    /\ (code = 429 <-> 0 < limit <= usage)
    /\ (code = 429 ->
        Process.upstream (after s) = Process.upstream p
        /\ assoc "metadata" response
           = Some (JObj [ ("limit_per_minute", JNum (num_of_Z limit));
                          ("retry_after_seconds", JNum (num_of_Z 60)) ])).
Proof.
  apply (@full_window_gets_429 example_runtime (answering "hello")); [reflexivity|].
  split; [reflexivity|].
  exists planner_body, (<["planner" := planner_policy None]> ∅).
  repeat (split; [reflexivity|]). split.
  - exists ["analyze"]. split; reflexivity.
  - intros budget [= <-] _. vm_compute. discriminate.
Defined.

Lemma ollama_reports_the_local_endpoint_example :
  (exists w0,
     @Ollama.attempt example_runtime unreachable Ollama.LOCAL_OLLAMA_URL
       (@Ollama.request_body example_runtime ∅ "hi" "") w0
     = (Throw (Error "connect ECONNREFUSED http://127.0.0.1:11434/api/generate"), tt))
  /\ @Ollama.invoke example_runtime no_fetch ∅ "hi" "" tt
     = (Throw (Error "Global fetch is not available"), tt).
Proof.
  split.
  - destruct (@OllamaFacts.ollama_reports_the_local_endpoint example_runtime unreachable
                ∅ "hi" "" tt tt) as (_ & Hthrows & _).
    destruct (Hthrows (Error "connect ECONNREFUSED http://127.0.0.1:11434/api/generate")
                eq_refl) as [(Hmissing & _)|(_ & Hlocal)];
      [discriminate Hmissing | exact Hlocal].
  - destruct (@OllamaFacts.ollama_reports_the_local_endpoint example_runtime no_fetch
                ∅ "hi" "" tt tt) as (Hmissing & _).
    exact (Hmissing eq_refl).
Defined.

Lemma providers_are_reached_through_the_gates_example :
  @admitted example_runtime example_config (example_env (example_policy 60 None) 1000)
    (local_request "POST" "/v1/agent" planner_body).
Proof.
  destruct (@providers_are_reached_through_the_gates example_runtime (answering "hello")
              example_config (example_env (example_policy 60 None) 1000)
              (local_request "POST" "/v1/agent" planner_body)
              (fresh_process (answering "hello") tt))
    as (code & payload & Hsent & Hagent & _).
  destruct (Hagent eq_refl) as (Hadmitted & _). apply Hadmitted.
  vm_compute in Hsent. now injection Hsent as <- _.
Defined.

Lemma quota_is_spent_on_success_example :
  let env := example_env (example_policy 60 None) 1000 in
  let req := local_request "POST" "/v1/agent" planner_body in
  let p := fresh_process (answering "hello") tt in
  let s := @handle example_runtime (answering "hello") example_config env req p in
  exists body policy agentPolicy,
    @screened example_runtime example_config env req body policy agentPolicy
    /\ let agent := str_field "agent" body in
       let limit := agentLimit agentPolicy policy in
       Process.rateLimiter (after s)
       = RateLimiter.record (clock env (if limit >? 0 then 2 else 1)%nat) agent
           (snd (RateLimiter.check (clock env 1%nat) agent limit (Process.rateLimiter p))).
Proof.
  destruct (@quota_is_spent_on_success example_runtime (answering "hello")
              example_config (example_env (example_policy 60 None) 1000)
              (local_request "POST" "/v1/agent" planner_body)
              (fresh_process (answering "hello") tt))
    as (code & payload & Hsent & Hrecorded & _).
  apply (Hrecorded eq_refl).
  vm_compute in Hsent. now injection Hsent as <- _.
Defined.

Lemma agent_answer_is_dispatch_result_example :
  let env := example_env (example_policy 60 None) 1000 in
  let req := local_request "POST" "/v1/agent" planner_body in
  let p := fresh_process (answering "hello") tt in
  let s := @handle example_runtime (answering "hello") example_config env req p in
  let dispatched :=
    @invokeWithFallback (answering "hello") "ollama"
      (Some (default [] (fallback_chain (planner_policy None))))
      (@agent_args example_runtime (request_uuid env) planner_payload None)
      (Process.upstream p) in
  let counted :=
    match fst dispatched with
    | Ret result => provider result
    | Throw _ => "ollama"
    end in
  Process.upstream (after s) = snd dispatched
  /\ (exists latency,
        responses s =
          [ match fst dispatched with
            | Ret result =>
                (200, [ ("status", JStr "ok"); ("provider", JStr (provider result));
                        ("output", JStr (output result));
                        ("request_id", JStr (request_uuid env));
                        ("metadata", JObj [ ("latency_ms", JNum (num_of_Z latency));
                                            ("fallback", JBool (fallback result)) ]) ])
            | Throw err =>
                (500, [ ("status", JStr "error");
                        ("error", JStr (if String.eqb (message err) "" then "Gateway error"
                                        else message err));
                        ("request_id", JStr (request_uuid env));
                        ("metadata", JObj [("latency_ms", JNum (num_of_Z latency))]);
                        ("provider", JStr "ollama");
                        ("output", JStr "") ])
            end ])
  /\ (counted <> "" ->
      Metrics.byProvider (Process.metrics (after s))
      = Metrics.bump_count counted (Metrics.byProvider (Process.metrics p))
          (Metrics.providerTexts (Process.metrics p))
      /\ Metrics.providerTexts (Process.metrics (after s))
         = @Metrics.bump_text example_runtime counted
             (Metrics.byProvider (Process.metrics p))
             (Metrics.providerTexts (Process.metrics p))).
Proof.
  apply (@agent_answer_is_dispatch_result example_runtime (answering "hello")
           example_config (example_env (example_policy 60 None) 1000)
           (local_request "POST" "/v1/agent" planner_body)
           (fresh_process (answering "hello") tt) planner_payload
           (example_policy 60 None) (planner_policy None) "ollama" None).
  - reflexivity.
  - split; [reflexivity|].
    exists planner_body, (<["planner" := planner_policy None]> ∅).
    repeat (split; [reflexivity|]). split.
    + exists ["analyze"]. split; reflexivity.
    + intros budget [= <-] _. vm_compute. discriminate.
  - intros _. vm_compute. reflexivity.
  - reflexivity.
  - intros names [= <-]. reflexivity.
  - reflexivity.
Defined.

(** ** Names that every object answers *)

(** A request for the agent [constructor], which the policy does not
    list, finds the constructor of the table of agents where the policy of
    the agent would be.  It is refused for its intent, not as an unknown
    agent, and what it leaves in [byAgent] is a string. *)
Lemma inherited_agent_example :
  let env := example_env (example_policy 60 None) 1000 in
  let req := local_request "POST" "/v1/agent" constructor_body in
  let p := fresh_process (answering "hello") tt in
  let s := @handle example_runtime (answering "hello") example_config env req p in
  responses s =
    [(403, [ ("status", JStr "error"); ("error", JStr "Intent not allowed");
             ("request_id", JStr (request_uuid env)); ("output", JStr "") ])]
  /\ Metrics.byAgent (Process.metrics (after s)) = ∅
  /\ assoc "by_agent" (Metrics.snapshot 1000 (Process.metrics (after s)))
     = Some (JObj [("constructor", JStr "function Object() { [native code] }1")]).
Proof. cbv zeta. repeat split; vm_compute; reflexivity. Qed.

(** A request counted under the name [__proto__] changes neither table of
    [byAgent], and a second one under [constructor] appends to the string
    the first one left. *)
Lemma inherited_counter_example :
  let m := Metrics.initial 0 in
  let hidden := @Metrics.record example_runtime (Some "__proto__") None "error" m in
  let once := @Metrics.record example_runtime (Some "constructor") None "error" m in
  let twice := @Metrics.record example_runtime (Some "constructor") None "error" once in
  Metrics.totalRequests hidden = 1
  /\ Metrics.byAgent hidden = ∅
  /\ Metrics.agentTexts hidden = ∅
  /\ Metrics.byAgent twice = ∅
  /\ Metrics.agentTexts twice !! "constructor"
     = Some "function Object() { [native code] }11".
Proof. cbv zeta. repeat split; vm_compute; reflexivity. Qed.
